(** * libotr connection contexts (src/context.c)

    A shallow embedding of the context registry of the Off-the-Record
    messaging library: the sorted list of connection contexts hanging off
    an [OtrlUserState], the per-context fingerprint chain, the forced
    state transitions and the destructive operations.

    The C code works on heap objects linked by [next] pointers and
    pointer-to-pointer back references ([tous]).  The embedding keeps
    that shape: objects live in finite maps from addresses, pointers are
    addresses (or absent for NULL), every function threads the store, and
    a dereference of a pointer to no object has no result ([None]).
    Loops that walk the heap take a fuel argument; running out of fuel
    has no result either.

    Buffers and strings a context or an entry owns (the identity strings,
    the 20 fingerprint bytes, the trust label, the secrets) are held by
    value in the object.  [malloc] and [strdup] whose result the code
    asserts or does not test are taken to succeed; the one [malloc] whose
    result is tested, in [otrl_context_set_preshared_secret], may fail. *)

From stdpp Require Import base option list gmap strings sorting.
From Stdlib Require Import ZArith Lia Strings.Byte Strings.Ascii.

(** ** Data model *)

Abbreviation addr := positive.

(** The connection states, in the order of [otrl_context_statestr]. *)
Inductive ConnectionState := CONN_UNCONNECTED | CONN_SETUP | CONN_CONNECTED.

(** The header context.h is not part of the sources; of the offer states
    only [OFFER_NOT] is named by context.c. *)
Inductive OtrOffer := OFFER_NOT | OFFER_SENT | OFFER_REJECTED | OFFER_ACCEPTED.

(** A [Fingerprint *] that is not NULL: the sentinel embedded in a context,
    [&(context->fingerprint_root)], or an allocated entry. *)
Inductive fp_ptr := FpRootOf (context : addr) | FpNode (f : addr).

(** A [ConnContext **]: [&(us->context_root)] or [&(context->next)]. *)
Inductive ctx_slot := RootSlot | NextSlot (context : addr).

#[global] Instance ConnectionState_eq_dec : EqDecision ConnectionState.
Proof. solve_decision. Defined.
#[global] Instance fp_ptr_eq_dec : EqDecision fp_ptr.
Proof. solve_decision. Defined.
#[global] Instance ctx_slot_eq_dec : EqDecision ctx_slot.
Proof. solve_decision. Defined.

(** The fields [context], [next] and [tous] of a fingerprint carry the
    prefix [fp_], a context having fields of the same names.  [fp_tous] is
    a [Fingerprint **]; the only such locations the code forms are [next]
    fields, so [Some p] stands for [&(p->next)]. *)
Record Fingerprint := {
  fingerprint : option (list byte);
  fp_context : addr;
  trust : option string;
  fp_next : option fp_ptr;
  fp_tous : option fp_ptr
}.

Record DH_keypair := {
  groupid : Z;
  priv : option Z;
  pub : option Z
}.

(** Modelled from the spec: the session-key slot of dh.h, which is not
    among the sources.  The spec treats a slot as an owned resource that
    is either present or absent; the material itself is opaque. *)
Definition DH_sesskeys := option (list byte).

Record ConnContext := {
  username : option string;
  accountname : option string;
  protocol : option string;
  state : ConnectionState;
  fingerprint_root : Fingerprint;
  active_fingerprint : option fp_ptr;
  their_keyid : Z;
  their_y : option Z;
  their_old_y : option Z;
  our_keyid : Z;
  our_dh_key : DH_keypair;
  our_old_dh_key : DH_keypair;
  sesskeys_0_0 : DH_sesskeys;
  sesskeys_0_1 : DH_sesskeys;
  sesskeys_1_0 : DH_sesskeys;
  sesskeys_1_1 : DH_sesskeys;
  sessionid : list byte;
  numsavedkeys : Z;
  preshared_secret : option (list byte);
  preshared_secret_len : N;
  saved_mac_keys : option (list byte);
  generation : Z;
  lastsent : Z;
  lastmessage : option string;
  may_retransmit : Z;
  otr_offer : OtrOffer;
  app_data : option Z;
  app_data_free : option positive;
  next : option addr;
  tous : option ctx_slot
}.

(** The user state with the objects it reaches: the root pointer of the
    context list, the allocated contexts and fingerprint entries, and the
    calls made so far to application destructors (destructor, data). *)
Record OtrlUserState := {
  context_root : option addr;
  contexts : gmap positive ConnContext;
  fingerprints : gmap positive Fingerprint;
  app_data_freed : list (positive * Z)
}.

Definition empty_userstate : OtrlUserState :=
  {| context_root := None; contexts := ∅; fingerprints := ∅;
     app_data_freed := [] |}.

(** ** Collaborators outside context.c *)

(** Modelled from the spec: [otrl_dh_session_blank] and
    [otrl_dh_session_free] of dh.c, "release this owned resource, make it
    absent". *)
Definition otrl_dh_session_blank : DH_sesskeys := None.
Definition otrl_dh_session_free (sess : DH_sesskeys) : DH_sesskeys := None.

(** Modelled from the spec: [otrl_dh_keypair_free] of dh.c releases both
    halves of the pair. *)
Definition otrl_dh_keypair_free (kp : DH_keypair) : DH_keypair :=
  {| groupid := groupid kp; priv := None; pub := None |}.

(** [gcry_mpi_release] followed by the assignment of NULL. *)
Definition gcry_mpi_release (a : option Z) : option Z := None.

(** ** libc *)

Definition uchar (a : ascii) : Z := Z.of_N (N_of_ascii a).

(** [strcmp] on the bytes before the terminator: the sign of the
    difference of the first two bytes that differ, as unsigned chars. *)
Fixpoint strcmp (s1 s2 : string) : Z :=
  match s1, s2 with
  | EmptyString, EmptyString => 0
  | EmptyString, String _ _ => -1
  | String _ _, EmptyString => 1
  | String a s1', String b s2' =>
      if (uchar a <? uchar b)%Z then -1
      else if (uchar b <? uchar a)%Z then 1
      else strcmp s1' s2'
  end.

Definition ubyte (b : byte) : Z := Z.of_N (Byte.to_N b).

(** Two byte sequences compared as [memcmp] does: the sign of the
    difference of the first two bytes that differ, as unsigned chars. *)
Fixpoint bytes_cmp (b1 b2 : list byte) : Z :=
  match b1, b2 with
  | x :: b1', y :: b2' =>
      if (ubyte x <? ubyte y)%Z then -1
      else if (ubyte y <? ubyte x)%Z then 1
      else bytes_cmp b1' b2'
  | _, _ => 0
  end.

(** [memcmp(b1, b2, n)]; a buffer of fewer than [n] bytes would be read
    past its end, which has no result. *)
Definition memcmp (b1 b2 : list byte) (n : nat) : option Z :=
  if decide (n ≤ length b1 ∧ n ≤ length b2)
  then Some (bytes_cmp (take n b1) (take n b2))
  else None.

(** [memmove(dst, src, n)] into a fresh buffer [dst] of [n] bytes: the
    contents of [dst] afterwards. *)
Definition memmove (src : list byte) (n : nat) : option (list byte) :=
  if decide (n ≤ length src) then Some (take n src) else None.

(** [memset(buf, c, n)] on a buffer held by value. *)
Definition memset (buf : list byte) (c : byte) (n : nat) : list byte :=
  replicate n c ++ drop n buf.

(** ** Field assignments *)

Definition set_next (v : option addr) (c : ConnContext) : ConnContext :=
  {| username := username c; accountname := accountname c;
     protocol := protocol c; state := state c;
     fingerprint_root := fingerprint_root c;
     active_fingerprint := active_fingerprint c;
     their_keyid := their_keyid c; their_y := their_y c;
     their_old_y := their_old_y c; our_keyid := our_keyid c;
     our_dh_key := our_dh_key c; our_old_dh_key := our_old_dh_key c;
     sesskeys_0_0 := sesskeys_0_0 c; sesskeys_0_1 := sesskeys_0_1 c;
     sesskeys_1_0 := sesskeys_1_0 c; sesskeys_1_1 := sesskeys_1_1 c;
     sessionid := sessionid c; numsavedkeys := numsavedkeys c;
     preshared_secret := preshared_secret c;
     preshared_secret_len := preshared_secret_len c;
     saved_mac_keys := saved_mac_keys c; generation := generation c;
     lastsent := lastsent c; lastmessage := lastmessage c;
     may_retransmit := may_retransmit c; otr_offer := otr_offer c;
     app_data := app_data c; app_data_free := app_data_free c;
     next := v; tous := tous c |}.

Definition set_tous (v : option ctx_slot) (c : ConnContext) : ConnContext :=
  {| username := username c; accountname := accountname c;
     protocol := protocol c; state := state c;
     fingerprint_root := fingerprint_root c;
     active_fingerprint := active_fingerprint c;
     their_keyid := their_keyid c; their_y := their_y c;
     their_old_y := their_old_y c; our_keyid := our_keyid c;
     our_dh_key := our_dh_key c; our_old_dh_key := our_old_dh_key c;
     sesskeys_0_0 := sesskeys_0_0 c; sesskeys_0_1 := sesskeys_0_1 c;
     sesskeys_1_0 := sesskeys_1_0 c; sesskeys_1_1 := sesskeys_1_1 c;
     sessionid := sessionid c; numsavedkeys := numsavedkeys c;
     preshared_secret := preshared_secret c;
     preshared_secret_len := preshared_secret_len c;
     saved_mac_keys := saved_mac_keys c; generation := generation c;
     lastsent := lastsent c; lastmessage := lastmessage c;
     may_retransmit := may_retransmit c; otr_offer := otr_offer c;
     app_data := app_data c; app_data_free := app_data_free c;
     next := next c; tous := v |}.

Definition set_fingerprint_root (v : Fingerprint) (c : ConnContext)
  : ConnContext :=
  {| username := username c; accountname := accountname c;
     protocol := protocol c; state := state c;
     fingerprint_root := v;
     active_fingerprint := active_fingerprint c;
     their_keyid := their_keyid c; their_y := their_y c;
     their_old_y := their_old_y c; our_keyid := our_keyid c;
     our_dh_key := our_dh_key c; our_old_dh_key := our_old_dh_key c;
     sesskeys_0_0 := sesskeys_0_0 c; sesskeys_0_1 := sesskeys_0_1 c;
     sesskeys_1_0 := sesskeys_1_0 c; sesskeys_1_1 := sesskeys_1_1 c;
     sessionid := sessionid c; numsavedkeys := numsavedkeys c;
     preshared_secret := preshared_secret c;
     preshared_secret_len := preshared_secret_len c;
     saved_mac_keys := saved_mac_keys c; generation := generation c;
     lastsent := lastsent c; lastmessage := lastmessage c;
     may_retransmit := may_retransmit c; otr_offer := otr_offer c;
     app_data := app_data c; app_data_free := app_data_free c;
     next := next c; tous := tous c |}.

Definition set_app_data (d : option Z) (fr : option positive)
    (c : ConnContext) : ConnContext :=
  {| username := username c; accountname := accountname c;
     protocol := protocol c; state := state c;
     fingerprint_root := fingerprint_root c;
     active_fingerprint := active_fingerprint c;
     their_keyid := their_keyid c; their_y := their_y c;
     their_old_y := their_old_y c; our_keyid := our_keyid c;
     our_dh_key := our_dh_key c; our_old_dh_key := our_old_dh_key c;
     sesskeys_0_0 := sesskeys_0_0 c; sesskeys_0_1 := sesskeys_0_1 c;
     sesskeys_1_0 := sesskeys_1_0 c; sesskeys_1_1 := sesskeys_1_1 c;
     sessionid := sessionid c; numsavedkeys := numsavedkeys c;
     preshared_secret := preshared_secret c;
     preshared_secret_len := preshared_secret_len c;
     saved_mac_keys := saved_mac_keys c; generation := generation c;
     lastsent := lastsent c; lastmessage := lastmessage c;
     may_retransmit := may_retransmit c; otr_offer := otr_offer c;
     app_data := d; app_data_free := fr;
     next := next c; tous := tous c |}.

Definition set_preshared (b : option (list byte)) (len : N)
    (c : ConnContext) : ConnContext :=
  {| username := username c; accountname := accountname c;
     protocol := protocol c; state := state c;
     fingerprint_root := fingerprint_root c;
     active_fingerprint := active_fingerprint c;
     their_keyid := their_keyid c; their_y := their_y c;
     their_old_y := their_old_y c; our_keyid := our_keyid c;
     our_dh_key := our_dh_key c; our_old_dh_key := our_old_dh_key c;
     sesskeys_0_0 := sesskeys_0_0 c; sesskeys_0_1 := sesskeys_0_1 c;
     sesskeys_1_0 := sesskeys_1_0 c; sesskeys_1_1 := sesskeys_1_1 c;
     sessionid := sessionid c; numsavedkeys := numsavedkeys c;
     preshared_secret := b;
     preshared_secret_len := len;
     saved_mac_keys := saved_mac_keys c; generation := generation c;
     lastsent := lastsent c; lastmessage := lastmessage c;
     may_retransmit := may_retransmit c; otr_offer := otr_offer c;
     app_data := app_data c; app_data_free := app_data_free c;
     next := next c; tous := tous c |}.

Definition set_identity (u a p : option string) (c : ConnContext)
  : ConnContext :=
  {| username := u; accountname := a; protocol := p; state := state c;
     fingerprint_root := fingerprint_root c;
     active_fingerprint := active_fingerprint c;
     their_keyid := their_keyid c; their_y := their_y c;
     their_old_y := their_old_y c; our_keyid := our_keyid c;
     our_dh_key := our_dh_key c; our_old_dh_key := our_old_dh_key c;
     sesskeys_0_0 := sesskeys_0_0 c; sesskeys_0_1 := sesskeys_0_1 c;
     sesskeys_1_0 := sesskeys_1_0 c; sesskeys_1_1 := sesskeys_1_1 c;
     sessionid := sessionid c; numsavedkeys := numsavedkeys c;
     preshared_secret := preshared_secret c;
     preshared_secret_len := preshared_secret_len c;
     saved_mac_keys := saved_mac_keys c; generation := generation c;
     lastsent := lastsent c; lastmessage := lastmessage c;
     may_retransmit := may_retransmit c; otr_offer := otr_offer c;
     app_data := app_data c; app_data_free := app_data_free c;
     next := next c; tous := tous c |}.

Definition set_fp_next (v : option fp_ptr) (f : Fingerprint) : Fingerprint :=
  {| fingerprint := fingerprint f; fp_context := fp_context f;
     trust := trust f; fp_next := v; fp_tous := fp_tous f |}.

Definition set_fp_tous (v : option fp_ptr) (f : Fingerprint) : Fingerprint :=
  {| fingerprint := fingerprint f; fp_context := fp_context f;
     trust := trust f; fp_next := fp_next f; fp_tous := v |}.

Definition set_trust (v : option string) (f : Fingerprint) : Fingerprint :=
  {| fingerprint := fingerprint f; fp_context := fp_context f;
     trust := v; fp_next := fp_next f; fp_tous := fp_tous f |}.

(** ** The store *)

Definition with_root (r : option addr) (us : OtrlUserState) : OtrlUserState :=
  {| context_root := r; contexts := contexts us;
     fingerprints := fingerprints us; app_data_freed := app_data_freed us |}.

Definition with_contexts (m : gmap positive ConnContext)
    (us : OtrlUserState) : OtrlUserState :=
  {| context_root := context_root us; contexts := m;
     fingerprints := fingerprints us; app_data_freed := app_data_freed us |}.

Definition with_fingerprints (m : gmap positive Fingerprint)
    (us : OtrlUserState) : OtrlUserState :=
  {| context_root := context_root us; contexts := contexts us;
     fingerprints := m; app_data_freed := app_data_freed us |}.

Definition with_freed (l : list (positive * Z))
    (us : OtrlUserState) : OtrlUserState :=
  {| context_root := context_root us; contexts := contexts us;
     fingerprints := fingerprints us; app_data_freed := l |}.

(** [context->field = v] for an allocated context; no result otherwise. *)
Definition update_ctx (context : addr) (f : ConnContext → ConnContext)
    (us : OtrlUserState) : option OtrlUserState :=
  ctx ← contexts us !! context;
  Some (with_contexts (<[context := f ctx]> (contexts us)) us).

(** [*p] for a [Fingerprint *p]. *)
Definition load_fp (us : OtrlUserState) (p : fp_ptr) : option Fingerprint :=
  match p with
  | FpRootOf c => fingerprint_root <$> contexts us !! c
  | FpNode f => fingerprints us !! f
  end.

(** [p->field = v] for a [Fingerprint *p]. *)
Definition update_fp (p : fp_ptr) (g : Fingerprint → Fingerprint)
    (us : OtrlUserState) : option OtrlUserState :=
  match p with
  | FpRootOf c =>
      update_ctx c (λ ctx, set_fingerprint_root (g (fingerprint_root ctx)) ctx)
        us
  | FpNode f =>
      fp ← fingerprints us !! f;
      Some (with_fingerprints (<[f := g fp]> (fingerprints us)) us)
  end.

(** [*curp] and [*curp = v] for a [ConnContext **curp]. *)
Definition load_slot (us : OtrlUserState) (curp : ctx_slot)
  : option (option addr) :=
  match curp with
  | RootSlot => Some (context_root us)
  | NextSlot c => next <$> contexts us !! c
  end.

Definition store_slot (curp : ctx_slot) (v : option addr)
    (us : OtrlUserState) : option OtrlUserState :=
  match curp with
  | RootSlot => Some (with_root v us)
  | NextSlot c => update_ctx c (set_next v) us
  end.

(** [malloc] hands out an address that holds no object of the kind. *)
Definition malloc_context (us : OtrlUserState) : addr :=
  fresh (dom (contexts us)).

Definition malloc_fingerprint (us : OtrlUserState) : addr :=
  fresh (dom (fingerprints us)).

(** ** The operations of context.c *)

(** Create a new connection context.  [context] is the address [malloc]
    returned.  The code leaves [tous] and the sentinel's [trust] unwritten;
    they are absent here, and [otrl_context_find] sets [tous] before it
    returns. *)
Definition new_context (context : addr) (user accountname protocol : string)
  : ConnContext :=
  {| username := Some user;
     accountname := Some accountname;
     protocol := Some protocol;
     state := CONN_UNCONNECTED;
     fingerprint_root :=
       {| fingerprint := None; fp_context := context; trust := None;
          fp_next := None; fp_tous := None |};
     active_fingerprint := None;
     their_keyid := 0;
     their_y := None;
     their_old_y := None;
     our_keyid := 0;
     our_dh_key := {| groupid := 0; priv := None; pub := None |};
     our_old_dh_key := {| groupid := 0; priv := None; pub := None |};
     sesskeys_0_0 := otrl_dh_session_blank;
     sesskeys_0_1 := otrl_dh_session_blank;
     sesskeys_1_0 := otrl_dh_session_blank;
     sesskeys_1_1 := otrl_dh_session_blank;
     sessionid := replicate 20 x00;
     numsavedkeys := 0;
     preshared_secret := None;
     preshared_secret_len := 0;
     saved_mac_keys := None;
     generation := 0;
     lastsent := 0;
     lastmessage := None;
     may_retransmit := 0;
     otr_offer := OFFER_NOT;
     app_data := None;
     app_data_free := None;
     next := None;
     tous := None |}.

(** The callback [add_app_data(data, context)] exists "so that app_data and
    app_data_free can be filled in by the application": it is given the
    new context and answers with the two fields. *)
Definition add_app_data_fn : Type :=
  option Z → ConnContext → option Z * option positive.

(** The scan of [otrl_context_find].  The three comparison results live
    across iterations and are assigned only as far as the short-circuit
    evaluation of the condition gets. *)
Fixpoint find_scan (fuel : nat) (us : OtrlUserState)
    (user accountname_ protocol_ : string) (curp : ctx_slot)
    (usercmp acctcmp protocmp : Z) : option (ctx_slot * Z * Z * Z) :=
  match fuel with
  | O => None
  | S fuel' =>
      cur ← load_slot us curp;
      match cur with
      | None => Some (curp, usercmp, acctcmp, protocmp)
      | Some c =>
          ctx ← contexts us !! c;
          u ← username ctx;
          let usercmp := strcmp u user in
          if (0 <? usercmp)%Z then Some (curp, usercmp, acctcmp, protocmp)
          else if (usercmp =? 0)%Z then
            a ← accountname ctx;
            let acctcmp := strcmp a accountname_ in
            if (0 <? acctcmp)%Z then Some (curp, usercmp, acctcmp, protocmp)
            else if (acctcmp =? 0)%Z then
              p ← protocol ctx;
              let protocmp := strcmp p protocol_ in
              if (0 <=? protocmp)%Z
              then Some (curp, usercmp, acctcmp, protocmp)
              else find_scan fuel' us user accountname_ protocol_ (NextSlot c)
                     usercmp acctcmp protocmp
            else find_scan fuel' us user accountname_ protocol_ (NextSlot c)
                   usercmp acctcmp protocmp
          else find_scan fuel' us user accountname_ protocol_ (NextSlot c)
                 usercmp acctcmp protocmp
      end
  end.

(** Look up a connection context by name/account/protocol.  [addedp] is the
    cell behind the pointer (absent for a NULL pointer); the result is the
    returned pointer, the cell afterwards and the store afterwards. *)
Definition otrl_context_find (fuel : nat) (us : OtrlUserState)
    (user accountname_ protocol_ : option string) (add_if_missing : Z)
    (addedp : option Z) (add_app_data : option add_app_data_fn)
    (data : option Z) : option (option addr * option Z * OtrlUserState) :=
  let addedp := match addedp with Some _ => Some 0%Z | None => None end in
  match user, accountname_, protocol_ with
  | Some user, Some accountname_, Some protocol_ =>
      '(curp, usercmp, acctcmp, protocmp) ←
        find_scan fuel us user accountname_ protocol_ RootSlot 1 1 1;
      cur ← load_slot us curp;
      if ((usercmp =? 0) && (acctcmp =? 0) && (protocmp =? 0))%Z then
        Some (cur, addedp, us)
      else if negb (add_if_missing =? 0)%Z then
        let addedp := match addedp with Some _ => Some 1%Z | None => None end in
        let newctx := malloc_context us in
        let us :=
          with_contexts
            (<[newctx := new_context newctx user accountname_ protocol_]>
               (contexts us)) us in
        cur ← load_slot us curp;
        us ← update_ctx newctx (set_next cur) us;
        us ← match cur with
             | Some c => update_ctx c (set_tous (Some (NextSlot newctx))) us
             | None => Some us
             end;
        us ← store_slot curp (Some newctx) us;
        us ← update_ctx newctx (set_tous (Some curp)) us;
        us ← match add_app_data with
             | Some cb =>
                 cur ← load_slot us curp;
                 c ← cur;
                 ctx ← contexts us !! c;
                 let '(d, fr) := cb data ctx in
                 update_ctx c (set_app_data d fr) us
             | None => Some us
             end;
        cur ← load_slot us curp;
        Some (cur, addedp, us)
      else Some (None, addedp, us)
  | _, _, _ => Some (None, addedp, us)
  end.

(** The scan of [otrl_context_find_fingerprint]. *)
Fixpoint find_fingerprint_scan (fuel : nat) (us : OtrlUserState)
    (f : option fp_ptr) (fingerprint_ : list byte) : option (option fp_ptr) :=
  match fuel with
  | O => None
  | S fuel' =>
      match f with
      | None => Some None
      | Some p =>
          fp ← load_fp us p;
          buf ← fingerprint fp;
          r ← memcmp buf fingerprint_ 20;
          if (r =? 0)%Z then Some (Some p)
          else find_fingerprint_scan fuel' us (fp_next fp) fingerprint_
      end
  end.

(** Find a fingerprint in a given context, perhaps adding it if not
    present.  [fingerprint_] is the caller's array of 20 bytes. *)
Definition otrl_context_find_fingerprint (fuel : nat) (us : OtrlUserState)
    (context : addr) (fingerprint_ : list byte) (add_if_missing : Z)
    (addedp : option Z) : option (option fp_ptr * option Z * OtrlUserState) :=
  ctx ← contexts us !! context;
  let addedp := match addedp with Some _ => Some 0%Z | None => None end in
  found ← find_fingerprint_scan fuel us (fp_next (fingerprint_root ctx))
            fingerprint_;
  match found with
  | Some p => Some (Some p, addedp, us)
  | None =>
      if negb (add_if_missing =? 0)%Z then
        let addedp := match addedp with Some _ => Some 1%Z | None => None end in
        let f := malloc_fingerprint us in
        buf ← memmove fingerprint_ 20;
        let fp :=
          {| fingerprint := Some buf;
             fp_context := context;
             trust := None;
             fp_next := fp_next (fingerprint_root ctx);
             fp_tous := None |} in
        let us := with_fingerprints (<[f := fp]> (fingerprints us)) us in
        us ← match fp_next fp with
             | Some n => update_fp n (set_fp_tous (Some (FpNode f))) us
             | None => Some us
             end;
        us ← update_fp (FpRootOf context) (set_fp_next (Some (FpNode f))) us;
        us ← update_fp (FpNode f) (set_fp_tous (Some (FpRootOf context))) us;
        Some (Some (FpNode f), addedp, us)
      else Some (None, addedp, us)
  end.

(** Set the trust level for a given fingerprint. *)
Definition otrl_context_set_trust (fprint : option fp_ptr)
    (trust_ : option string) (us : OtrlUserState) : option OtrlUserState :=
  match fprint with
  | None => Some us
  | Some p => update_fp p (set_trust trust_) us
  end.

(** Set the preshared secret.  [malloc_ok] tells whether the one [malloc]
    whose result the code tests succeeds. *)
Definition otrl_context_set_preshared_secret (malloc_ok : bool)
    (context : addr) (secret : option (list byte)) (secret_len : N)
    (us : OtrlUserState) : option OtrlUserState :=
  us ← update_ctx context (set_preshared None 0) us;
  if (secret_len =? 0)%N then Some us
  else if malloc_ok then
    src ← secret;
    buf ← memmove src (N.to_nat secret_len);
    update_ctx context (set_preshared (Some buf) secret_len) us
  else Some us.

(** Force a context into the CONN_SETUP state (so that it only has local
    DH keys). *)
Definition otrl_context_force_setup (context : addr) (us : OtrlUserState)
  : option OtrlUserState :=
  update_ctx context (λ c,
    {| username := username c; accountname := accountname c;
       protocol := protocol c;
       state := CONN_SETUP;
       fingerprint_root := fingerprint_root c;
       active_fingerprint := None;
       their_keyid := 0;
       their_y := gcry_mpi_release (their_y c);
       their_old_y := gcry_mpi_release (their_old_y c);
       our_keyid := our_keyid c;
       our_dh_key := our_dh_key c; our_old_dh_key := our_old_dh_key c;
       sesskeys_0_0 := otrl_dh_session_free (sesskeys_0_0 c);
       sesskeys_0_1 := otrl_dh_session_free (sesskeys_0_1 c);
       sesskeys_1_0 := otrl_dh_session_free (sesskeys_1_0 c);
       sesskeys_1_1 := otrl_dh_session_free (sesskeys_1_1 c);
       sessionid := memset (sessionid c) x00 20;
       numsavedkeys := 0;
       preshared_secret := None;
       preshared_secret_len := 0;
       saved_mac_keys := None;
       generation := generation c; lastsent := lastsent c;
       lastmessage := None;
       may_retransmit := 0;
       otr_offer := otr_offer c;
       app_data := app_data c; app_data_free := app_data_free c;
       next := next c; tous := tous c |}) us.

(** Force a context into the CONN_UNCONNECTED state. *)
Definition otrl_context_force_disconnect (context : addr)
    (us : OtrlUserState) : option OtrlUserState :=
  us ← otrl_context_force_setup context us;
  update_ctx context (λ c,
    {| username := username c; accountname := accountname c;
       protocol := protocol c;
       state := CONN_UNCONNECTED;
       fingerprint_root := fingerprint_root c;
       active_fingerprint := active_fingerprint c;
       their_keyid := their_keyid c;
       their_y := their_y c; their_old_y := their_old_y c;
       our_keyid := 0;
       our_dh_key := otrl_dh_keypair_free (our_dh_key c);
       our_old_dh_key := otrl_dh_keypair_free (our_old_dh_key c);
       sesskeys_0_0 := sesskeys_0_0 c; sesskeys_0_1 := sesskeys_0_1 c;
       sesskeys_1_0 := sesskeys_1_0 c; sesskeys_1_1 := sesskeys_1_1 c;
       sessionid := sessionid c; numsavedkeys := numsavedkeys c;
       preshared_secret := preshared_secret c;
       preshared_secret_len := preshared_secret_len c;
       saved_mac_keys := saved_mac_keys c;
       generation := generation c; lastsent := lastsent c;
       lastmessage := lastmessage c;
       may_retransmit := may_retransmit c;
       otr_offer := otr_offer c;
       app_data := app_data c; app_data_free := app_data_free c;
       next := next c; tous := tous c |}) us.

(** [free(fprint)]: only an allocated entry can be released. *)
Definition free_fp (fprint : fp_ptr) (us : OtrlUserState)
  : option OtrlUserState :=
  match fprint with
  | FpNode f =>
      _ ← fingerprints us !! f;
      Some (with_fingerprints (delete f (fingerprints us)) us)
  | FpRootOf _ => None
  end.

(** Forget a fingerprint / forget a whole context.  The two functions call
    each other; [forget_fingerprints] is the loop at the head of
    [otrl_context_forget]. *)
Fixpoint otrl_context_forget_fingerprint (fuel : nat) (fprint : fp_ptr)
    (and_maybe_context : Z) (us : OtrlUserState) {struct fuel}
  : option OtrlUserState :=
  match fuel with
  | O => None
  | S fuel' =>
      fp ← load_fp us fprint;
      let context := fp_context fp in
      ctx ← contexts us !! context;
      if decide (fprint = FpRootOf context) then
        if bool_decide (state ctx = CONN_UNCONNECTED)
           && negb (and_maybe_context =? 0)%Z
        then otrl_context_forget fuel' context us
        else Some us
      else
        if bool_decide (state ctx ≠ CONN_CONNECTED)
           || bool_decide (active_fingerprint ctx ≠ Some fprint)
        then
          slot ← fp_tous fp;
          us ← update_fp slot (set_fp_next (fp_next fp)) us;
          fp ← load_fp us fprint;
          us ← match fp_next fp with
               | Some n => update_fp n (set_fp_tous (fp_tous fp)) us
               | None => Some us
               end;
          us ← free_fp fprint us;
          ctx ← contexts us !! context;
          if bool_decide (state ctx = CONN_UNCONNECTED)
             && bool_decide (fp_next (fingerprint_root ctx) = None)
             && negb (and_maybe_context =? 0)%Z
          then otrl_context_forget fuel' context us
          else Some us
        else Some us
  end
with otrl_context_forget (fuel : nat) (context : addr) (us : OtrlUserState)
    {struct fuel} : option OtrlUserState :=
  match fuel with
  | O => None
  | S fuel' =>
      ctx ← contexts us !! context;
      if bool_decide (state ctx ≠ CONN_UNCONNECTED) then Some us
      else
        us ← otrl_context_force_disconnect context us;
        us ← forget_fingerprints fuel' context us;
        us ← update_ctx context (set_identity None None None) us;
        ctx ← contexts us !! context;
        us ← match app_data ctx, app_data_free ctx with
             | Some d, Some fr =>
                 update_ctx context (set_app_data None (Some fr))
                   (with_freed (app_data_freed us ++ [(fr, d)]) us)
             | _, _ => Some us
             end;
        ctx ← contexts us !! context;
        slot ← tous ctx;
        us ← store_slot slot (next ctx) us;
        ctx ← contexts us !! context;
        us ← match next ctx with
             | Some n => update_ctx n (set_tous (tous ctx)) us
             | None => Some us
             end;
        _ ← contexts us !! context;
        Some (with_contexts (delete context (contexts us)) us)
  end
with forget_fingerprints (fuel : nat) (context : addr) (us : OtrlUserState)
    {struct fuel} : option OtrlUserState :=
  match fuel with
  | O => None
  | S fuel' =>
      ctx ← contexts us !! context;
      match fp_next (fingerprint_root ctx) with
      | None => Some us
      | Some f =>
          us ← otrl_context_forget_fingerprint fuel' f 0 us;
          forget_fingerprints fuel' context us
      end
  end.

(** Forget all the contexts in a given OtrlUserState, forcing them to
    UNCONNECTED. *)
Fixpoint otrl_context_forget_all (fuel : nat) (us : OtrlUserState)
  : option OtrlUserState :=
  match fuel with
  | O => None
  | S fuel' =>
      match context_root us with
      | None => Some us
      | Some c =>
          us ← otrl_context_force_disconnect c us;
          us ← otrl_context_forget fuel' c us;
          otrl_context_forget_all fuel' us
      end
  end.

(** ** Specification vocabulary *)

(** A NULL-terminated chain of objects: [nxt a] is the [next] field of the
    object at [a], and has no value when no object lives there. *)
Section chain_def.
Context {A : Type} (nxt : A → option (option A)).

Fixpoint chain (p : option A) (l : list A) : Prop :=
  match l with
  | [] => p = None
  | a :: l' => p = Some a ∧ ∃ q, nxt a = Some q ∧ chain q l'
  end.

End chain_def.

Definition ctx_next (us : OtrlUserState) (a : addr) : option (option addr) :=
  next <$> contexts us !! a.

Definition fp_next_at (us : OtrlUserState) (p : fp_ptr)
  : option (option fp_ptr) :=
  fp_next <$> load_fp us p.

(** The contexts reached from [us->context_root], in order. *)
Definition context_list (us : OtrlUserState) (l : list addr) : Prop :=
  chain (ctx_next us) (context_root us) l.

(** The fingerprint entries reached from the sentinel of [context]. *)
Definition fingerprint_list (us : OtrlUserState) (context : addr)
    (fl : list fp_ptr) : Prop :=
  ∃ ctx, contexts us !! context = Some ctx
         ∧ chain (fp_next_at us) (fp_next (fingerprint_root ctx)) fl.

(** The identity triple (username, accountname, protocol). *)
Definition ident : Type := string * string * string.

Definition ctx_key (c : ConnContext) : option ident :=
  u ← username c; a ← accountname c; p ← protocol c; Some (u, a, p).

Definition key_at (us : OtrlUserState) (a : addr) : option ident :=
  contexts us !! a ≫= ctx_key.

(** The order of the scan in [otrl_context_find]: by username, then by
    accountname, then by protocol, each compared by [strcmp]. *)
Definition ident_lt (k1 k2 : ident) : Prop :=
  let '(u1, a1, p1) := k1 in
  let '(u2, a2, p2) := k2 in
  (strcmp u1 u2 < 0)%Z
  ∨ (strcmp u1 u2 = 0 ∧ strcmp a1 a2 < 0)%Z
  ∨ (strcmp u1 u2 = 0 ∧ strcmp a1 a2 = 0 ∧ strcmp p1 p2 < 0)%Z.

(** A real entry of a fingerprint chain: an allocated object (not a
    sentinel) that holds 20 bytes. *)
Definition real_entry (us : OtrlUserState) (p : fp_ptr) : Prop :=
  ∃ f fp b, p = FpNode f ∧ fingerprints us !! f = Some fp
            ∧ fingerprint fp = Some b ∧ length b = 20.

(** The entry at [p] holds exactly the bytes [bytes]. *)
Definition entry_matches (us : OtrlUserState) (bytes : list byte)
    (p : fp_ptr) : Prop :=
  ∃ fp, load_fp us p = Some fp ∧ fingerprint fp = Some bytes.

(** The entries [fl] of the fingerprint chain of [context], from the
    pointer [p] on: each is an allocated entry that points back to
    [context], and whose [tous] names the [next] field that points to it
    ([prev] is the object before the first one). *)
Fixpoint entries (us : OtrlUserState) (context : addr) (prev : fp_ptr)
    (p : option fp_ptr) (fl : list addr) : Prop :=
  match fl with
  | [] => p = None
  | f :: fl' =>
      p = Some (FpNode f)
      ∧ ∃ fp, fingerprints us !! f = Some fp
              ∧ fp_context fp = context
              ∧ fp_tous fp = Some prev
              ∧ entries us context (FpNode f) (fp_next fp) fl'
  end.

(** The contexts [l] from the pointer [p] on, which sits in slot [s]: each
    is allocated, its [tous] names the slot that points to it, and its
    fingerprint chain is made of entries of its own. *)
Fixpoint linked (us : OtrlUserState) (s : ctx_slot) (p : option addr)
    (l : list addr) : Prop :=
  match l with
  | [] => p = None
  | a :: l' =>
      p = Some a
      ∧ ∃ ctx, contexts us !! a = Some ctx
               ∧ tous ctx = Some s
               ∧ (∃ fl, entries us a (FpRootOf a)
                          (fp_next (fingerprint_root ctx)) fl)
               ∧ linked us (NextSlot a) (next ctx) l'
  end.

(** A registry with all its links in place, holding the contexts [l]. *)
Definition linked_registry (us : OtrlUserState) (l : list addr) : Prop :=
  linked us RootSlot (context_root us) l.

(** The registry: the contexts reached from the root, each with its
    identity triple. *)
Definition registry (us : OtrlUserState) (reg : list (addr * ident)) : Prop :=
  context_list us reg.*1
  ∧ Forall (λ bk, key_at us bk.1 = Some bk.2) reg.

(** The slot the scan of [otrl_context_find] stands at after it has walked
    past the contexts [l], starting at slot [s]. *)
Definition slot_after (s : ctx_slot) (l : list addr) : ctx_slot :=
  match last l with
  | Some b => NextSlot b
  | None => s
  end.

(** The stores reached from the empty one by calls of
    [otrl_context_find]. *)
Inductive built_by_find : OtrlUserState → Prop :=
  | built_empty : built_by_find empty_userstate
  | built_find us fuel user accountname_ protocol_ add_if_missing addedp
      add_app_data data r addedp' us' :
      built_by_find us →
      otrl_context_find fuel us user accountname_ protocol_ add_if_missing
        addedp add_app_data data = Some (r, addedp', us') →
      built_by_find us'.

(** The three comparison results of the scan say "equal". *)
Definition all_zero (uc ac pc : Z) : Prop := (uc = 0 ∧ ac = 0 ∧ pc = 0)%Z.

(** The context object [otrl_context_find] links in at slot [curp], before
    [cur]: fresh from [new_context], then [next], [tous] and the
    application's two fields. *)
Definition created_context (us : OtrlUserState) (u a p : string)
    (curp : ctx_slot) (cur : option positive)
    (cb : option add_app_data_fn) (data : option Z) : ConnContext :=
  let c := set_tous (Some curp)
             (set_next cur (new_context (malloc_context us) u a p)) in
  match cb with
  | Some f => let '(d, fr) := f data c in set_app_data d fr c
  | None => c
  end.


(** The entry [otrl_context_find_fingerprint] links in at the front of the
    chain of [context], before [hd]. *)
Definition created_entry (context : positive) (bytes : list byte)
    (hd : option fp_ptr) : Fingerprint :=
  {| fingerprint := Some (take 20 bytes); fp_context := context;
     trust := None; fp_next := hd; fp_tous := Some (FpRootOf context) |}.

(** A well-formed store: the registry is sorted, all its links are in
    place, and every allocated context is in it. *)
Definition well_formed (us : OtrlUserState) : Prop :=
  ∃ reg, registry us reg
         ∧ StronglySorted ident_lt reg.*2
         ∧ linked_registry us reg.*1
         ∧ ∀ a, is_Some (contexts us !! a) → a ∈ reg.*1.

(** An assignment to fields of a context that leaves its links, the head
    of its fingerprint chain and its identity alone. *)
Definition keeps_links (f : ConnContext → ConnContext) : Prop :=
  ∀ c, next (f c) = next c
       ∧ tous (f c) = tous c
       ∧ fp_next (fingerprint_root (f c)) = fp_next (fingerprint_root c)
       ∧ ctx_key (f c) = ctx_key c.

(** The invariant on the preshared secret of one context, and of all. *)
Definition secret_inv (c : ConnContext) : Prop :=
  preshared_secret c = None ↔ preshared_secret_len c = 0%N.

Definition secrets_ok (us : OtrlUserState) : Prop :=
  ∀ a c, contexts us !! a = Some c → secret_inv c.

(** A call of one of the operations of context.c. *)
Inductive call :=
  | CallFind (fuel : nat) (user accountname_ protocol_ : option string)
      (add_if_missing : Z) (addedp : option Z)
      (add_app_data : option add_app_data_fn) (data : option Z)
  | CallFindFingerprint (fuel : nat) (context : addr)
      (fingerprint_ : list byte) (add_if_missing : Z) (addedp : option Z)
  | CallSetTrust (fprint : option fp_ptr) (trust_ : option string)
  | CallSetPresharedSecret (malloc_ok : bool) (context : addr)
      (secret : option (list byte)) (secret_len : N)
  | CallForceSetup (context : addr)
  | CallForceDisconnect (context : addr)
  | CallForgetFingerprint (fuel : nat) (fprint : fp_ptr)
      (and_maybe_context : Z)
  | CallForget (fuel : nat) (context : addr)
  | CallForgetAll (fuel : nat).

Definition run_call (c : call) (us : OtrlUserState) : option OtrlUserState :=
  match c with
  | CallFind fuel user accountname_ protocol_ add_if_missing addedp
      add_app_data data =>
      snd <$> otrl_context_find fuel us user accountname_ protocol_
                add_if_missing addedp add_app_data data
  | CallFindFingerprint fuel context fingerprint_ add_if_missing addedp =>
      snd <$> otrl_context_find_fingerprint fuel us context fingerprint_
                add_if_missing addedp
  | CallSetTrust fprint trust_ => otrl_context_set_trust fprint trust_ us
  | CallSetPresharedSecret malloc_ok context secret secret_len =>
      otrl_context_set_preshared_secret malloc_ok context secret secret_len us
  | CallForceSetup context => otrl_context_force_setup context us
  | CallForceDisconnect context => otrl_context_force_disconnect context us
  | CallForgetFingerprint fuel fprint and_maybe_context =>
      otrl_context_forget_fingerprint fuel fprint and_maybe_context us
  | CallForget fuel context => otrl_context_forget fuel context us
  | CallForgetAll fuel => otrl_context_forget_all fuel us
  end.

(** The calls that build a store up: all but the three that forget. *)
Definition builds (c : call) : Prop :=
  match c with
  | CallForgetFingerprint _ _ _ | CallForget _ _ | CallForgetAll _ => False
  | _ => True
  end.

(** The stores reached from the empty one by such calls and by the
    protocol driver outside context.c, which assigns to fields of a
    context but keeps its links. *)
Inductive built : OtrlUserState → Prop :=
  | built_start : built empty_userstate
  | built_call us c us' :
      built us → builds c → run_call c us = Some us' → built us'
  | built_driver us context f us' :
      built us → keeps_links f → update_ctx context f us = Some us' →
      built us'.

(** ** Sample stores *)

(** A context in the middle of a private conversation, with one
    fingerprint entry that is the active one. *)
Definition sample_entry : Fingerprint :=
  {| fingerprint := Some (replicate 20 x01); fp_context := 1;
     trust := Some "verified"; fp_next := None;
     fp_tous := Some (FpRootOf 1) |}.

Definition sample_connected : ConnContext :=
  {| username := Some "alice"; accountname := Some "me";
     protocol := Some "xmpp";
     state := CONN_CONNECTED;
     fingerprint_root :=
       {| fingerprint := None; fp_context := 1; trust := None;
          fp_next := Some (FpNode 1); fp_tous := None |};
     active_fingerprint := Some (FpNode 1);
     their_keyid := 3; their_y := Some 1234%Z; their_old_y := Some 567%Z;
     our_keyid := 2;
     our_dh_key := {| groupid := 5; priv := Some 11%Z; pub := Some 13%Z |};
     our_old_dh_key :=
       {| groupid := 5; priv := Some 17%Z; pub := Some 19%Z |};
     sesskeys_0_0 := Some [x0a]; sesskeys_0_1 := Some [x0b];
     sesskeys_1_0 := Some [x0c]; sesskeys_1_1 := Some [x0d];
     sessionid := replicate 20 xff;
     numsavedkeys := 1; preshared_secret := Some [x01; x02];
     preshared_secret_len := 2;
     saved_mac_keys := Some (replicate 20 x07);
     generation := 1; lastsent := 99; lastmessage := Some "hello";
     may_retransmit := 1; otr_offer := OFFER_ACCEPTED;
     app_data := Some 42%Z; app_data_free := Some 7%positive;
     next := None; tous := Some RootSlot |}.

Definition sample_userstate : OtrlUserState :=
  {| context_root := Some 1%positive;
     contexts := {[ 1%positive := sample_connected ]};
     fingerprints := {[ 1%positive := sample_entry ]};
     app_data_freed := [] |}.

(** The store a call leaves behind (the empty one if it has no result). *)
Definition store_of {A : Type} (r : option (A * option Z * OtrlUserState))
  : OtrlUserState :=
  match r with
  | Some (_, _, us) => us
  | None => empty_userstate
  end.

Definition sample_bob : OtrlUserState :=
  store_of (otrl_context_find 1 empty_userstate (Some "bob") (Some "me")
              (Some "xmpp") 1 None None None).

Definition sample_bob_alice : OtrlUserState :=
  store_of (otrl_context_find 2 sample_bob (Some "alice") (Some "me")
              (Some "xmpp") 1 (Some 0%Z) None None).

(** Two contexts in different states: the one of [sample_connected], in a
    private conversation, followed by a fresh one. *)
Definition sample_mixed : OtrlUserState :=
  {| context_root := Some 1%positive;
     contexts :=
       {[ 1%positive := set_next (Some 2%positive) sample_connected;
          2%positive := set_tous (Some (NextSlot 1))
                          (new_context 2 "bob" "me" "xmpp") ]};
     fingerprints := {[ 1%positive := sample_entry ]};
     app_data_freed := [] |}.

(** ** Coherent and reachable stores *)

(** The entries of the fingerprint chain of [context], in order. *)
Definition fingerprints_of (us : OtrlUserState) (context : addr)
    (fl : list addr) : Prop :=
  ∃ ctx, contexts us !! context = Some ctx
         ∧ entries us context (FpRootOf context)
             (fp_next (fingerprint_root ctx)) fl.

(** The object before the entry that follows the entries [fl], which
    start behind [prev]. *)
Definition entry_before (prev : fp_ptr) (fl : list addr) : fp_ptr :=
  match last fl with
  | Some g => FpNode g
  | None => prev
  end.

(** Every sentinel points back to the context it is embedded in. *)
Definition sentinels_ok (us : OtrlUserState) : Prop :=
  ∀ a ctx, contexts us !! a = Some ctx → fp_context (fingerprint_root ctx) = a.

(** Every allocated entry holds 20 bytes and sits in the fingerprint chain
    of the context it points back to. *)
Definition entries_owned (us : OtrlUserState) : Prop :=
  ∀ f fp, fingerprints us !! f = Some fp →
    (∃ b, fingerprint fp = Some b ∧ length b = 20)
    ∧ ∃ fl, fingerprints_of us (fp_context fp) fl ∧ f ∈ fl.

(** No two entries of one context hold the same bytes. *)
Definition entries_distinct (us : OtrlUserState) : Prop :=
  ∀ f g fp fg,
    fingerprints us !! f = Some fp → fingerprints us !! g = Some fg →
    fp_context fp = fp_context fg → fingerprint fp = fingerprint fg →
    f = g.

(** A coherent store: well-formed, with sentinels and entries as just
    said. *)
Definition coherent (us : OtrlUserState) : Prop :=
  well_formed us ∧ sentinels_ok us ∧ entries_owned us ∧ entries_distinct us.

(** [c'] is [c] but for its two links. *)
Definition same_but_links (c c' : ConnContext) : Prop :=
  c' = set_next (next c') (set_tous (tous c') c).

(** [e'] is the entry [e] but for its two links. *)
Definition same_entry_but_links (e e' : Fingerprint) : Prop :=
  e' = set_fp_next (fp_next e') (set_fp_tous (fp_tous e') e).

(** An assignment to fields of a context by the protocol driver: it keeps
    the links, the identity and the sentinel's back pointer. *)
Definition driver_assignment (f : ConnContext → ConnContext) : Prop :=
  keeps_links f
  ∧ ∀ c, fp_context (fingerprint_root (f c)) = fp_context (fingerprint_root c).

(** An assignment to fields of an entry that keeps its links, its owner
    and its bytes. *)
Definition keeps_entry (g : Fingerprint → Fingerprint) : Prop :=
  ∀ fp, fp_context (g fp) = fp_context fp
        ∧ fp_tous (g fp) = fp_tous fp
        ∧ fp_next (g fp) = fp_next fp
        ∧ fingerprint (g fp) = fingerprint fp.

(** The stores reached from the empty one by calls of the operations of
    context.c, with whatever arguments, and by assignments of the protocol
    driver. *)
Inductive reachable : OtrlUserState → Prop :=
  | reachable_start : reachable empty_userstate
  | reachable_call us c us' :
      reachable us → run_call c us = Some us' → reachable us'
  | reachable_driver us context f us' :
      reachable us → driver_assignment f →
      update_ctx context f us = Some us' → reachable us'.

(** The call of the application's destructor that releasing the context
    [c] entails: [app_data_free(app_data)] if both are set. *)
Definition destructor_call (c : ConnContext) : list (positive * Z) :=
  match app_data c, app_data_free c with
  | Some d, Some fr => [(fr, d)]
  | _, _ => []
  end.

(** The destructor calls for the contexts at [l], in order. *)
Definition destructor_calls (us : OtrlUserState) (l : list addr)
  : list (positive * Z) :=
  l ≫= λ a, from_option destructor_call [] (contexts us !! a).

(** ** More sample stores *)

(** A sequence of calls, one after the other. *)
Definition run_calls (cs : list call) (us : OtrlUserState)
  : option OtrlUserState :=
  foldl (λ o c, o ≫= run_call c) (Some us) cs.

(** The driver's assignment on entering or leaving a private
    conversation. *)
Definition set_state (s : ConnectionState) (a : option fp_ptr)
    (c : ConnContext) : ConnContext :=
  {| username := username c; accountname := accountname c;
     protocol := protocol c; state := s;
     fingerprint_root := fingerprint_root c;
     active_fingerprint := a;
     their_keyid := their_keyid c; their_y := their_y c;
     their_old_y := their_old_y c; our_keyid := our_keyid c;
     our_dh_key := our_dh_key c; our_old_dh_key := our_old_dh_key c;
     sesskeys_0_0 := sesskeys_0_0 c; sesskeys_0_1 := sesskeys_0_1 c;
     sesskeys_1_0 := sesskeys_1_0 c; sesskeys_1_1 := sesskeys_1_1 c;
     sessionid := sessionid c; numsavedkeys := numsavedkeys c;
     preshared_secret := preshared_secret c;
     preshared_secret_len := preshared_secret_len c;
     saved_mac_keys := saved_mac_keys c; generation := generation c;
     lastsent := lastsent c; lastmessage := lastmessage c;
     may_retransmit := may_retransmit c; otr_offer := otr_offer c;
     app_data := app_data c; app_data_free := app_data_free c;
     next := next c; tous := tous c |}.

(** An application callback that stores [data] with destructor 7. *)
Definition sample_callback : add_app_data_fn :=
  λ data _, (data, Some 7%positive).

(** bob (context 1, with application data and the entries 2 and 1) and
    alice (context 2, with the entry 3). *)
Definition sample_calls : list call :=
  [ CallFind 1 (Some "bob") (Some "me") (Some "xmpp") 1 None
      (Some sample_callback) (Some 42%Z);
    CallFind 2 (Some "alice") (Some "me") (Some "xmpp") 1 None None None;
    CallFindFingerprint 1 1 (replicate 20 x01) 1 None;
    CallFindFingerprint 2 1 (replicate 20 x02) 1 None;
    CallFindFingerprint 1 2 (replicate 20 x01) 1 None ].

Definition sample_registry : OtrlUserState :=
  default empty_userstate (run_calls sample_calls empty_userstate).

(** The same with alice in a private conversation under the entry 3. *)
Definition sample_private : OtrlUserState :=
  default empty_userstate
    (update_ctx 2 (set_state CONN_CONNECTED (Some (FpNode 3)))
       sample_registry).

(** The active fingerprint of every context in a private conversation is
    an entry of the fingerprint chain of that context. *)
Definition active_ok (us : OtrlUserState) : Prop :=
  ∀ c ctx p,
    contexts us !! c = Some ctx →
    state ctx = CONN_CONNECTED →
    active_fingerprint ctx = Some p →
    ∃ f fl, p = FpNode f ∧ fingerprints_of us c fl ∧ f ∈ fl.

(** A driver that takes care: when its assignment leaves the context in a
    private conversation with an active fingerprint, that fingerprint is
    an entry of the chain of the context. *)
Definition careful_assignment (us : OtrlUserState) (c : addr)
    (f : ConnContext → ConnContext) : Prop :=
  driver_assignment f
  ∧ ∀ ctx p,
      contexts us !! c = Some ctx →
      state (f ctx) = CONN_CONNECTED →
      active_fingerprint (f ctx) = Some p →
      ∃ g fl, p = FpNode g ∧ fingerprints_of us c fl ∧ g ∈ fl.

(** The stores reached from the empty one by calls of the operations of
    context.c, with whatever arguments, and by assignments of a driver
    that takes care. *)
Inductive reachable_with_care : OtrlUserState → Prop :=
  | with_care_start : reachable_with_care empty_userstate
  | with_care_call us c us' :
      reachable_with_care us → run_call c us = Some us' →
      reachable_with_care us'
  | with_care_driver us context f us' :
      reachable_with_care us → careful_assignment us context f →
      update_ctx context f us = Some us' → reachable_with_care us'.

(** * Properties *)

(** [bind_inv H as x Hx] splits [H : m ≫= k = Some y] into the result
    [x] of [m] and what is left of [H]. *)
Tactic Notation "bind_inv" hyp(H) "as" ident(x) ident(Hx) :=
  apply bind_Some in H as (x & Hx & H).

#[global] Arguments update_ctx : simpl never.
#[global] Arguments update_fp : simpl never.
#[global] Arguments load_fp : simpl never.
#[global] Arguments load_slot : simpl never.
#[global] Arguments store_slot : simpl never.
#[global] Arguments free_fp : simpl never.
#[global] Arguments otrl_context_force_setup : simpl never.
#[global] Arguments otrl_context_force_disconnect : simpl never.
#[global] Arguments ident_lt : simpl never.

(** Walks two runs of the same code in step, one in a hypothesis and one
    in the goal, as long as they do the same thing. *)
Ltac mono_walk :=
  repeat match goal with
         | H : Some _ = Some _ |- _ => exact H
         | H : None = Some _ |- _ => discriminate H
         | H : (?m ≫= _) = Some _ |- (?m ≫= _) = Some _ =>
             let E := fresh "E" in
             destruct m eqn:E; simpl in H |- *; [|discriminate H]
         | H : (if ?b then _ else _) = Some _ |- (if ?b then _ else _) = Some _ =>
             destruct b; simpl in H |- *
         | H : match ?m with Some _ => _ | None => _ end = Some _
           |- match ?m with Some _ => _ | None => _ end = Some _ =>
             destruct m; simpl in H |- *
         | H : (match ?m with Some _ => _ | None => _ end ≫= _) = Some _
           |- (match ?m with Some _ => _ | None => _ end ≫= _) = Some _ =>
             destruct m; simpl in H |- *
         end.

(** Case analysis on every decision in the goal. *)
Ltac goal_decide :=
  repeat match goal with
         | |- context [decide ?P] => destruct (decide P)
         end.

(** ** The store *)

Lemma update_ctx_Some us context ctx f :
  contexts us !! context = Some ctx →
  update_ctx context f us
  = Some (with_contexts (<[context := f ctx]> (contexts us)) us).
Proof. intros H. unfold update_ctx. rewrite H. reflexivity. Qed.

Lemma update_ctx_inv us us' context f :
  update_ctx context f us = Some us' →
  ∃ ctx, contexts us !! context = Some ctx
         ∧ us' = with_contexts (<[context := f ctx]> (contexts us)) us.
Proof.
  unfold update_ctx. destruct (contexts us !! context) as [c|]; [|done].
  intros [= <-]. eauto.
Qed.

(** ** libc *)

Lemma memset_memset buf c n : memset (memset buf c n) c n = memset buf c n.
Proof.
  unfold memset. rewrite drop_app_length'; [done|]. by rewrite length_replicate.
Qed.

Lemma memset_take buf c n : take n (memset buf c n) = replicate n c.
Proof.
  unfold memset. rewrite take_app_length'; [done|]. by rewrite length_replicate.
Qed.

Lemma memset_drop buf c n : drop n (memset buf c n) = drop n buf.
Proof.
  unfold memset. rewrite drop_app_length'; [done|]. by rewrite length_replicate.
Qed.

(** ** Forced transitions *)

(** C4: whatever the context held before, after [otrl_context_force_setup]
    it is in state CONN_SETUP with no active fingerprint, [their_keyid] 0,
    no remote public values, four blank session-key slots, 20 zero bytes of
    session id, no preshared secret (length 0), no saved MAC keys (count
    0), no last message and a clear retransmit flag; our two key pairs,
    [our_keyid] and the three identity strings are as before, and nothing
    else in the store changes. *)
Theorem force_setup_effect us context ctx :
  contexts us !! context = Some ctx →
  ∃ ctx',
    otrl_context_force_setup context us
    = Some (with_contexts (<[context := ctx']> (contexts us)) us)
    ∧ state ctx' = CONN_SETUP
    ∧ active_fingerprint ctx' = None
    ∧ their_keyid ctx' = 0%Z
    ∧ their_y ctx' = None ∧ their_old_y ctx' = None
    ∧ sesskeys_0_0 ctx' = None ∧ sesskeys_0_1 ctx' = None
    ∧ sesskeys_1_0 ctx' = None ∧ sesskeys_1_1 ctx' = None
    ∧ take 20 (sessionid ctx') = replicate 20 x00
    ∧ drop 20 (sessionid ctx') = drop 20 (sessionid ctx)
    ∧ preshared_secret ctx' = None ∧ preshared_secret_len ctx' = 0%N
    ∧ numsavedkeys ctx' = 0%Z ∧ saved_mac_keys ctx' = None
    ∧ lastmessage ctx' = None
    ∧ may_retransmit ctx' = 0%Z
    ∧ our_dh_key ctx' = our_dh_key ctx
    ∧ our_old_dh_key ctx' = our_old_dh_key ctx
    ∧ our_keyid ctx' = our_keyid ctx
    ∧ username ctx' = username ctx
    ∧ accountname ctx' = accountname ctx
    ∧ protocol ctx' = protocol ctx.
Proof.
  intros Hctx. unfold otrl_context_force_setup.
  rewrite (update_ctx_Some _ _ _ _ Hctx).
  eexists; split; [reflexivity|].
  cbn [state active_fingerprint their_keyid their_y their_old_y
       sesskeys_0_0 sesskeys_0_1 sesskeys_1_0 sesskeys_1_1 sessionid
       preshared_secret preshared_secret_len numsavedkeys saved_mac_keys
       lastmessage may_retransmit our_dh_key our_old_dh_key our_keyid
       username accountname protocol].
  rewrite memset_take, memset_drop. repeat split.
Qed.

Lemma force_setup_effect_witness :
  contexts sample_userstate !! 1%positive = Some sample_connected
  ∧ ∃ us' ctx',
      otrl_context_force_setup 1 sample_userstate = Some us'
      ∧ contexts us' !! 1%positive = Some ctx'
      ∧ state ctx' = CONN_SETUP
      ∧ sessionid ctx' = replicate 20 x00
      ∧ our_dh_key ctx' = our_dh_key sample_connected.
Proof.
  split; [reflexivity|].
  destruct (force_setup_effect sample_userstate 1 sample_connected eq_refl)
    as (ctx' & -> & Hst & _ & _ & _ & _ & _ & _ & _ & _ & Htk & Hdr & H).
  exists (with_contexts (<[1%positive := ctx']> (contexts sample_userstate))
            sample_userstate), ctx'.
  split; [reflexivity|]. split; [apply lookup_insert_eq|].
  split; [exact Hst|]. split; [|apply H].
  rewrite <- (take_drop 20 (sessionid ctx')), Htk, Hdr. reflexivity.
Defined.

Lemma force_setup_twice context us :
  otrl_context_force_setup context us ≫= otrl_context_force_setup context
  = otrl_context_force_setup context us.
Proof.
  unfold otrl_context_force_setup, update_ctx.
  destruct (contexts us !! context) as [c|] eqn:E; simpl; [|done].
  rewrite lookup_insert_eq. simpl. unfold with_contexts; simpl.
  rewrite insert_insert_eq. unfold gcry_mpi_release, otrl_dh_session_free.
  by rewrite memset_memset.
Qed.

Lemma force_setup_then_disconnect context us :
  otrl_context_force_setup context us ≫= otrl_context_force_disconnect context
  = otrl_context_force_disconnect context us.
Proof.
  unfold otrl_context_force_disconnect.
  rewrite <- (force_setup_twice context us) at 2.
  by rewrite option_bind_assoc.
Qed.

Lemma force_disconnect_twice context us :
  otrl_context_force_disconnect context us
    ≫= otrl_context_force_disconnect context
  = otrl_context_force_disconnect context us.
Proof.
  unfold otrl_context_force_disconnect, otrl_context_force_setup, update_ctx.
  destruct (contexts us !! context) as [c|] eqn:E; simpl; [|done].
  rewrite !lookup_insert_eq. simpl. rewrite !lookup_insert_eq. simpl.
  rewrite !lookup_insert_eq. simpl.
  unfold with_contexts; simpl.
  rewrite !insert_insert_eq.
  unfold gcry_mpi_release, otrl_dh_session_free, otrl_dh_keypair_free. simpl.
  by rewrite memset_memset.
Qed.

Lemma force_setup_is_Some context us :
  is_Some (otrl_context_force_setup context us)
  ↔ is_Some (contexts us !! context).
Proof.
  unfold otrl_context_force_setup, update_ctx.
  destruct (contexts us !! context); simpl; split; intros [? ?]; eauto; done.
Qed.

Lemma force_disconnect_is_Some context us :
  is_Some (otrl_context_force_disconnect context us)
  ↔ is_Some (contexts us !! context).
Proof.
  unfold otrl_context_force_disconnect, otrl_context_force_setup, update_ctx.
  destruct (contexts us !! context); simpl.
  - rewrite lookup_insert_eq. simpl. split; eauto.
  - split; intros [? ?]; done.
Qed.

(** C5: from any store, [otrl_context_force_setup] followed by
    [otrl_context_force_disconnect] ends in the same store as
    [otrl_context_force_disconnect] alone, and each of the two operations
    applied twice ends in the same store as applied once.  Both have a
    result exactly when the context is allocated. *)
Theorem force_setup_disconnect_absorb context us :
  (otrl_context_force_setup context us
     ≫= otrl_context_force_disconnect context
   = otrl_context_force_disconnect context us)
  ∧ (otrl_context_force_setup context us
       ≫= otrl_context_force_setup context
     = otrl_context_force_setup context us)
  ∧ (otrl_context_force_disconnect context us
       ≫= otrl_context_force_disconnect context
     = otrl_context_force_disconnect context us)
  ∧ (is_Some (otrl_context_force_setup context us)
     ↔ is_Some (contexts us !! context))
  ∧ (is_Some (otrl_context_force_disconnect context us)
     ↔ is_Some (contexts us !! context)).
Proof.
  split; [apply force_setup_then_disconnect|].
  split; [apply force_setup_twice|].
  split; [apply force_disconnect_twice|].
  split; [apply force_setup_is_Some|apply force_disconnect_is_Some].
Qed.

(** ** Refusals *)

(** C9, as the code has it: when one of the three identity strings is
    absent, [otrl_context_find] returns NULL and leaves the store as it
    was, for any fuel; the caller's [*addedp], when the pointer is given,
    has been set to 0 before the arguments are looked at. *)
Theorem find_absent_identity fuel us user accountname_ protocol_
    add_if_missing addedp add_app_data data :
  user = None ∨ accountname_ = None ∨ protocol_ = None →
  otrl_context_find fuel us user accountname_ protocol_ add_if_missing
    addedp add_app_data data
  = Some (None, match addedp with Some _ => Some 0%Z | None => None end, us).
Proof.
  intros H. unfold otrl_context_find.
  destruct user, accountname_, protocol_; try reflexivity.
  destruct H as [H|[H|H]]; discriminate.
Qed.

Lemma find_absent_identity_witness :
  otrl_context_find 0 sample_userstate (Some "alice") None (Some "xmpp") 1
    (Some 1%Z) None None
  = Some (None, Some 0%Z, sample_userstate).
Proof.
  apply (find_absent_identity 0 sample_userstate (Some "alice") None
           (Some "xmpp") 1 (Some 1%Z) None None).
  right; left; reflexivity.
Defined.

(** C9, as the specification words it, fails at the caller's flag: a cell holding 5
    holds 0 after a call with an absent user name. *)
Lemma find_absent_identity_resets_addedp :
  otrl_context_find 1 empty_userstate None (Some "me") (Some "xmpp") 1
    (Some 5%Z) None None
  = Some (None, Some 0%Z, empty_userstate)
  ∧ otrl_context_find 1 empty_userstate None (Some "me") (Some "xmpp") 1
      (Some 5%Z) None None
    ≠ Some (None, Some 5%Z, empty_userstate).
Proof. split; [reflexivity|]. intros [=]. Qed.

(** C3: [otrl_context_forget] on a context that is not CONN_UNCONNECTED
    returns with the store exactly as it was (the context, its
    fingerprints and the list of contexts); a call that changes the store
    was made on a CONN_UNCONNECTED context. *)
Theorem forget_refuses_unless_unconnected fuel context us ctx :
  contexts us !! context = Some ctx →
  (state ctx ≠ CONN_UNCONNECTED →
   otrl_context_forget (S fuel) context us = Some us)
  ∧ (∀ us', otrl_context_forget fuel context us = Some us' →
            us' ≠ us → state ctx = CONN_UNCONNECTED).
Proof.
  intros Hctx. split.
  - intros Hst. simpl. rewrite Hctx. simpl.
    by rewrite bool_decide_eq_true_2.
  - intros us' Hrun Hne. destruct fuel as [|fuel]; [done|].
    simpl in Hrun. rewrite Hctx in Hrun. simpl in Hrun.
    destruct (decide (state ctx = CONN_UNCONNECTED)) as [|Hst]; [done|].
    rewrite bool_decide_eq_true_2 in Hrun by done. congruence.
Qed.

Lemma forget_refuses_unless_unconnected_witness :
  contexts sample_userstate !! 1%positive = Some sample_connected
  ∧ otrl_context_forget 1 1 sample_userstate = Some sample_userstate.
Proof.
  split; [reflexivity|].
  apply (forget_refuses_unless_unconnected 0 1 sample_userstate
           sample_connected eq_refl).
  discriminate.
Defined.

(** C2: [otrl_context_forget_fingerprint] on the active fingerprint of a
    CONN_CONNECTED context returns with the store exactly as it was,
    whatever [and_maybe_context] is: no entry is removed and no link or
    trust label changes. *)
Theorem forget_fingerprint_active_noop fuel fprint and_maybe_context us
    fp ctx :
  load_fp us fprint = Some fp →
  contexts us !! fp_context fp = Some ctx →
  state ctx = CONN_CONNECTED →
  active_fingerprint ctx = Some fprint →
  otrl_context_forget_fingerprint (S fuel) fprint and_maybe_context us
  = Some us.
Proof.
  intros Hfp Hctx Hst Hact. simpl. rewrite Hfp. simpl. rewrite Hctx. simpl.
  rewrite Hst, Hact. case_decide; simpl.
  - done.
  - rewrite !bool_decide_eq_false_2; [done|naive_solver..].
Qed.

Lemma forget_fingerprint_active_noop_witness :
  otrl_context_forget_fingerprint 1 (FpNode 1) 1 sample_userstate
  = Some sample_userstate.
Proof.
  apply (forget_fingerprint_active_noop 0 (FpNode 1) 1 sample_userstate
           sample_entry sample_connected);
    reflexivity.
Defined.

(** ** The preshared secret *)

Lemma secrets_ok_update us us' a f :
  (∀ c, secret_inv c → secret_inv (f c)) →
  update_ctx a f us = Some us' → secrets_ok us → secrets_ok us'.
Proof.
  intros Hf Hup Hok. apply update_ctx_inv in Hup as (ctx & Hctx & ->).
  intros b c. simpl. rewrite lookup_insert. case_decide.
  - intros [= <-]. eauto.
  - apply Hok.
Qed.

Lemma secrets_ok_update_fp us us' p g :
  update_fp p g us = Some us' → secrets_ok us → secrets_ok us'.
Proof.
  destruct p as [c|f]; unfold update_fp.
  - apply secrets_ok_update. done.
  - intros H. bind_inv H as fp Hfp. injection H as <-. done.
Qed.

Lemma secrets_ok_store_slot us us' sl v :
  store_slot sl v us = Some us' → secrets_ok us → secrets_ok us'.
Proof.
  destruct sl as [|c]; unfold store_slot.
  - intros [= <-]. done.
  - apply secrets_ok_update. done.
Qed.

Lemma secrets_ok_free_fp us us' p :
  free_fp p us = Some us' → secrets_ok us → secrets_ok us'.
Proof.
  destruct p as [c|f]; unfold free_fp; [done|].
  intros H. bind_inv H as fp Hfp. injection H as <-. done.
Qed.

Lemma secrets_ok_force_setup us us' c :
  otrl_context_force_setup c us = Some us' → secrets_ok us → secrets_ok us'.
Proof. apply secrets_ok_update. intros; by split. Qed.

Lemma secrets_ok_force_disconnect us us' c :
  otrl_context_force_disconnect c us = Some us' →
  secrets_ok us → secrets_ok us'.
Proof.
  unfold otrl_context_force_disconnect. intros H. bind_inv H as us1 E1.
  intros Hok. eapply secrets_ok_update in H; [done|done|].
  eapply secrets_ok_force_setup; eauto.
Qed.

Lemma secrets_ok_set_preshared_secret ok c secret len us us' :
  otrl_context_set_preshared_secret ok c secret len us = Some us' →
  secrets_ok us → secrets_ok us'.
Proof.
  unfold otrl_context_set_preshared_secret. intros H Hok.
  bind_inv H as us1 E1.
  eapply secrets_ok_update in E1; [| |done]; [|intros; by split].
  destruct (N.eqb_spec len 0); [by injection H as <-|].
  destruct ok; [|by injection H as <-].
  bind_inv H as src Hsrc. bind_inv H as buf Hbuf.
  eapply secrets_ok_update; [|done..]. intros; by split.
Qed.

Lemma secrets_ok_find fuel us u a p add addedp cb data r ad us' :
  otrl_context_find fuel us u a p add addedp cb data = Some (r, ad, us') →
  secrets_ok us → secrets_ok us'.
Proof.
  unfold otrl_context_find. intros H Hok.
  destruct u as [u|], a as [a|], p as [p|]; try by injection H as <- <- <-.
  bind_inv H as sc Hsc. destruct sc as [[[curp uc] ac] pc]. simpl in H.
  bind_inv H as cur Hcur. case_match; [by injection H as <- <- <-|].
  case_match; [|by injection H as <- <- <-].
  set (us0 := with_contexts _ us) in H.
  assert (secrets_ok us0) as Hok0.
  { intros b c. simpl. rewrite lookup_insert. case_decide; [|apply Hok].
    intros [= <-]. by split. }
  clearbody us0.
  bind_inv H as cur' Hcur'. bind_inv H as us1 E1.
  apply secrets_ok_update in E1; [|done|done].
  bind_inv H as us2 E2.
  assert (secrets_ok us2).
  { destruct cur'; [|by injection E2 as <-].
    eapply secrets_ok_update; eauto. done. }
  bind_inv H as us3 E3. apply secrets_ok_store_slot in E3; [|done].
  bind_inv H as us4 E4. apply secrets_ok_update in E4; [|done|done].
  bind_inv H as us5 E5. bind_inv H as cur5 Hcur5. injection H as <- <- <-.
  destruct cb as [cb|]; [|by injection E5 as <-].
  bind_inv E5 as o Ho. bind_inv E5 as c Hc. bind_inv E5 as ctx Hctx.
  destruct (cb data ctx).
  eapply secrets_ok_update; eauto. done.
Qed.

Lemma secrets_ok_find_fingerprint fuel us c F add addedp r ad us' :
  otrl_context_find_fingerprint fuel us c F add addedp = Some (r, ad, us') →
  secrets_ok us → secrets_ok us'.
Proof.
  unfold otrl_context_find_fingerprint. intros H Hok.
  bind_inv H as ctx Hctx. bind_inv H as found Hfound.
  destruct found; [by injection H as <- <- <-|].
  case_match; [|by injection H as <- <- <-].
  bind_inv H as buf Hbuf. simpl in H.
  set (us0 := with_fingerprints _ us) in H.
  assert (secrets_ok us0) as Hok0 by done. clearbody us0.
  bind_inv H as us1 E1. bind_inv H as us2 E2. bind_inv H as us3 E3.
  injection H as <- <- <-.
  assert (secrets_ok us1).
  { destruct (fp_next _); [|by injection E1 as <-].
    eapply secrets_ok_update_fp; eauto. }
  eapply secrets_ok_update_fp; [done|].
  eapply secrets_ok_update_fp; [done|]. done.
Qed.

Lemma secrets_ok_forget_family fuel :
  (∀ fprint amc us us',
     otrl_context_forget_fingerprint fuel fprint amc us = Some us' →
     secrets_ok us → secrets_ok us')
  ∧ (∀ context us us',
       otrl_context_forget fuel context us = Some us' →
       secrets_ok us → secrets_ok us')
  ∧ (∀ context us us',
       forget_fingerprints fuel context us = Some us' →
       secrets_ok us → secrets_ok us').
Proof.
  induction fuel as [|fuel (IHfp & IHctx & IHloop)]; [done|].
  split; [|split].
  - intros fprint amc us us' H Hok. simpl in H.
    bind_inv H as fp Hfp. bind_inv H as ctx Hctx. case_decide.
    { case_match; [eauto|by injection H as <-]. }
    case_match; [|by injection H as <-].
    bind_inv H as slot Hslot. bind_inv H as us1 E1.
    apply secrets_ok_update_fp in E1; [|done].
    bind_inv H as fp' Hfp'. bind_inv H as us2 E2.
    assert (secrets_ok us2).
    { destruct (fp_next fp'); [|by injection E2 as <-].
      eapply secrets_ok_update_fp; eauto. }
    bind_inv H as us3 E3. apply secrets_ok_free_fp in E3; [|done].
    bind_inv H as ctx' Hctx'. case_match; [eauto|by injection H as <-].
  - intros context us us' H Hok. simpl in H.
    bind_inv H as ctx Hctx. case_match; [by injection H as <-|].
    bind_inv H as us1 E1. apply secrets_ok_force_disconnect in E1; [|done].
    bind_inv H as us2 E2. apply IHloop in E2; [|done].
    bind_inv H as us3 E3. apply secrets_ok_update in E3; [|intros ? ?; assumption|assumption].
    bind_inv H as ctx3 Hctx3. bind_inv H as us4 E4.
    assert (secrets_ok us4).
    { destruct (app_data ctx3); [|by injection E4 as <-].
      destruct (app_data_free ctx3); [|by injection E4 as <-].
      eapply secrets_ok_update; [|done|]; done. }
    bind_inv H as ctx4 Hctx4. bind_inv H as slot Hslot.
    bind_inv H as us5 E5.
    apply secrets_ok_store_slot in E5; [|done].
    bind_inv H as ctx5 Hctx5. bind_inv H as us6 E6.
    assert (secrets_ok us6) as Hok6.
    { destruct (next ctx5); [|by injection E6 as <-].
      eapply secrets_ok_update; [|done|]; done. }
    bind_inv H as ctx6 Hctx6. injection H as <-.
    intros b c. simpl. rewrite lookup_delete.
    destruct (decide (context = b)); [done|]. apply Hok6.
  - intros context us us' H Hok. simpl in H.
    bind_inv H as ctx Hctx. destruct (fp_next _); [|by injection H as <-].
    bind_inv H as us1 E1. eauto.
Qed.

Lemma secrets_ok_forget_all fuel us us' :
  otrl_context_forget_all fuel us = Some us' → secrets_ok us → secrets_ok us'.
Proof.
  revert us. induction fuel as [|fuel IH]; [done|]. intros us H Hok.
  simpl in H. destruct (context_root us); [|by injection H as <-].
  bind_inv H as us1 E1. bind_inv H as us2 E2.
  apply secrets_ok_force_disconnect in E1; [|done].
  destruct (secrets_ok_forget_family fuel) as (_ & Hctx & _).
  apply Hctx in E2; [|done]. eauto.
Qed.

(** C10: the empty store and every new context satisfy "the preshared
    secret is absent exactly when its length is 0"; every call of an
    operation of context.c that returns keeps it true of every context;
    and [otrl_context_set_preshared_secret] whose allocation fails leaves
    the context with no secret and length 0, whatever it held before. *)
Theorem preshared_secret_invariant :
  secrets_ok empty_userstate
  ∧ (∀ context user accountname_ protocol_,
       secret_inv (new_context context user accountname_ protocol_))
  ∧ (∀ c us us', run_call c us = Some us' → secrets_ok us → secrets_ok us')
  ∧ (∀ context ctx secret secret_len us,
       contexts us !! context = Some ctx →
       secret_len ≠ 0%N →
       ∃ ctx',
         otrl_context_set_preshared_secret false context secret secret_len us
         = Some (with_contexts (<[context := ctx']> (contexts us)) us)
         ∧ preshared_secret ctx' = None
         ∧ preshared_secret_len ctx' = 0%N).
Proof.
  split; [done|]. split; [by split|]. split.
  - intros c us us' Hrun Hok. destruct c; simpl in Hrun.
    + apply fmap_Some in Hrun as ([[r ad] us1] & Hrun & ->).
      eapply secrets_ok_find; eauto.
    + apply fmap_Some in Hrun as ([[r ad] us1] & Hrun & ->).
      eapply secrets_ok_find_fingerprint; eauto.
    + destruct fprint as [p|]; [|by injection Hrun as <-].
      eapply secrets_ok_update_fp; eauto.
    + eapply secrets_ok_set_preshared_secret; eauto.
    + eapply secrets_ok_force_setup; eauto.
    + eapply secrets_ok_force_disconnect; eauto.
    + destruct (secrets_ok_forget_family fuel) as (Hfp & _ & _); eauto.
    + destruct (secrets_ok_forget_family fuel) as (_ & Hctx & _); eauto.
    + eapply secrets_ok_forget_all; eauto.
  - intros context ctx secret secret_len us Hctx Hlen.
    unfold otrl_context_set_preshared_secret.
    rewrite (update_ctx_Some _ _ _ _ Hctx). simpl.
    apply N.eqb_neq in Hlen. rewrite Hlen. eauto.
Qed.

(** ** The order on identities *)

Lemma uchar_inj a b : uchar a = uchar b → a = b.
Proof.
  unfold uchar. intros H. apply N2Z.inj in H.
  rewrite <- (ascii_N_embedding a), <- (ascii_N_embedding b). by rewrite H.
Qed.

Lemma strcmp_refl s : strcmp s s = 0%Z.
Proof.
  induction s as [|a s IH]; simpl; [done|].
  rewrite Z.ltb_irrefl. done.
Qed.

Lemma strcmp_eq s t : strcmp s t = 0%Z → s = t.
Proof.
  revert t. induction s as [|a s IH]; intros [|b t]; simpl; try done.
  destruct (Z.ltb_spec (uchar a) (uchar b)); [done|].
  destruct (Z.ltb_spec (uchar b) (uchar a)); [done|].
  intros Hs. f_equal; [apply uchar_inj; lia|by apply IH].
Qed.

Lemma strcmp_antisym s t : (strcmp s t < 0 ↔ 0 < strcmp t s)%Z.
Proof.
  revert t. induction s as [|a s IH]; intros [|b t]; simpl; try done.
  destruct (Z.ltb_spec (uchar a) (uchar b)), (Z.ltb_spec (uchar b) (uchar a));
    try lia. apply IH.
Qed.

Lemma strcmp_trans s t r :
  (strcmp s t < 0 → strcmp t r < 0 → strcmp s r < 0)%Z.
Proof.
  revert t r. induction s as [|a s IH]; intros [|b t] [|c r]; simpl; try done.
  destruct (Z.ltb_spec (uchar a) (uchar b)), (Z.ltb_spec (uchar b) (uchar a)),
    (Z.ltb_spec (uchar b) (uchar c)), (Z.ltb_spec (uchar c) (uchar b)),
    (Z.ltb_spec (uchar a) (uchar c)), (Z.ltb_spec (uchar c) (uchar a));
    try lia. apply IH.
Qed.

Lemma strcmp_zero_iff s t : strcmp s t = 0%Z ↔ s = t.
Proof. split; [apply strcmp_eq|intros ->; apply strcmp_refl]. Qed.

Lemma ident_lt_irrefl k : ¬ ident_lt k k.
Proof.
  destruct k as [[u a] p]. unfold ident_lt. rewrite !strcmp_refl. lia.
Qed.

Lemma ident_lt_trans k1 k2 k3 :
  ident_lt k1 k2 → ident_lt k2 k3 → ident_lt k1 k3.
Proof.
  destruct k1 as [[u1 a1] p1], k2 as [[u2 a2] p2], k3 as [[u3 a3] p3].
  unfold ident_lt.
  intros [H1|[[H1 H1']|(H1 & H1' & H1'')]] [H2|[[H2 H2']|(H2 & H2' & H2'')]];
    repeat match goal with
           | H : strcmp _ _ = 0%Z |- _ => apply strcmp_eq in H; subst
           end;
    rewrite ?strcmp_refl;
    first [ left; by eauto using strcmp_trans
          | right; left; by eauto using strcmp_trans
          | right; right; by eauto using strcmp_trans ].
Qed.

Lemma ident_lt_total k1 k2 : ident_lt k1 k2 ∨ k1 = k2 ∨ ident_lt k2 k1.
Proof.
  destruct k1 as [[u1 a1] p1], k2 as [[u2 a2] p2]. unfold ident_lt.
  pose proof (strcmp_antisym u1 u2). pose proof (strcmp_antisym u2 u1).
  pose proof (strcmp_antisym a1 a2). pose proof (strcmp_antisym a2 a1).
  pose proof (strcmp_antisym p1 p2). pose proof (strcmp_antisym p2 p1).
  destruct (Z.lt_trichotomy (strcmp u1 u2) 0) as [?|[Hu|?]]; [lia| |lia].
  destruct (Z.lt_trichotomy (strcmp a1 a2) 0) as [?|[Ha|?]];
    [lia| |apply strcmp_eq in Hu; subst; rewrite strcmp_refl; lia].
  destruct (Z.lt_trichotomy (strcmp p1 p2) 0) as [?|[Hp|?]]; [lia| |].
  - apply strcmp_eq in Hu, Ha, Hp. subst. auto.
  - apply strcmp_eq in Hu, Ha. subst. rewrite !strcmp_refl. lia.
Qed.

(** ** Chains *)

Section chain_facts.
Context {A : Type} (nxt : A → option (option A)).

Lemma chain_head p l : chain nxt p l → p = head l.
Proof. destruct l; simpl; [done|]. by intros [-> _]. Qed.

Lemma chain_det p l l' : chain nxt p l → chain nxt p l' → l = l'.
Proof.
  revert p l'. induction l as [|a l IH]; intros p [|a' l']; simpl.
  - done.
  - intros -> [? _]. done.
  - intros [-> _] ?. done.
  - intros [-> (q & Hq & Hl)] [[= <-] (q' & Hq' & Hl')].
    rewrite Hq in Hq'. injection Hq' as <-. f_equal. eauto.
Qed.

Lemma chain_suffix p l1 l2 :
  chain nxt p (l1 ++ l2) → ∃ q, chain nxt q l2.
Proof.
  revert p. induction l1 as [|a l1 IH]; intros p; simpl; [eauto|].
  intros [_ (q & _ & Hl)]. eauto.
Qed.

Lemma chain_head_not_in_tail p a l : chain nxt p (a :: l) → a ∉ l.
Proof.
  intros Hc Hin. apply list_elem_of_split in Hin as (l1 & l2 & ->).
  pose proof Hc as [_ (q & _ & Hl)].
  apply chain_suffix in Hl as (q' & Hl).
  pose proof (chain_head _ _ Hl) as ->. simpl in Hl.
  destruct Hc as [-> Hc].
  assert (chain nxt (Some a) (a :: l1 ++ a :: l2)) as Hc' by done.
  assert (chain nxt (Some a) (a :: l2)) as Hl' by done.
  pose proof (chain_det _ _ _ Hc' Hl') as Heq.
  apply (f_equal length) in Heq. simpl in Heq.
  rewrite length_app in Heq. simpl in Heq. lia.
Qed.

Lemma chain_NoDup p l : chain nxt p l → NoDup l.
Proof.
  revert p. induction l as [|a l IH]; intros p Hc; [constructor|].
  constructor; [by eapply chain_head_not_in_tail|].
  destruct Hc as [_ (q & _ & Hl)]. eauto.
Qed.

Lemma chain_ext (nxt' : A → option (option A)) p l :
  (∀ a, a ∈ l → nxt' a = nxt a) → chain nxt p l → chain nxt' p l.
Proof.
  revert p. induction l as [|a l IH]; intros p Hext; simpl; [done|].
  intros [-> (q & Hq & Hl)]. split; [done|]. exists q. split.
  - rewrite Hext; [done|]. apply list_elem_of_here.
  - apply IH; [|done]. intros b Hb. apply Hext. by apply list_elem_of_further.
Qed.

Lemma chain_insert (nxt' : A → option (option A)) new l2 :
  ∀ l1 p,
    chain nxt p (l1 ++ l2) →
    nxt' new = Some (head l2) →
    (∀ b, b ∈ l1 ++ l2 → last l1 ≠ Some b → nxt' b = nxt b) →
    (∀ b, last l1 = Some b → nxt' b = Some (Some new)) →
    chain nxt' (match l1 with [] => Some new | _ => p end)
      (l1 ++ new :: l2).
Proof.
  induction l1 as [|a l1 IH]; intros p Hc Hnew Hsame Hlast.
  - simpl in *. split; [done|]. exists (head l2). split; [done|].
    rewrite <- (chain_head _ _ Hc).
    apply chain_ext; [|done]. intros b Hb. by apply Hsame.
  - pose proof (chain_NoDup _ _ Hc) as Hnd.
    destruct Hc as [-> (q & Hq & Hl)].
    change ((a :: l1) ++ l2) with (a :: (l1 ++ l2)) in Hnd.
    apply NoDup_cons in Hnd as [Hnotin Hnd].
    change ((a :: l1) ++ new :: l2) with (a :: (l1 ++ new :: l2)).
    split; [done|].
    destruct l1 as [|a' l1].
    + exists (Some new). split; [by apply Hlast|].
      apply (IH q); [done|done| |done].
      intros b Hb _. apply Hsame; [by apply list_elem_of_further|].
      simpl. intros [= ->]. done.
    + exists q. split.
      * rewrite Hsame; [done|apply list_elem_of_here|].
        rewrite last_cons_cons. intros Hl1. apply Hnotin.
        apply elem_of_app. left. by apply last_Some_elem_of.
      * apply (IH q); [done|done| |].
        -- intros b Hb Hne. apply Hsame; [by apply list_elem_of_further|].
           by rewrite last_cons_cons.
        -- intros b Hb. apply Hlast. by rewrite last_cons_cons.
Qed.

End chain_facts.


(** ** The scan of the registry *)

Lemma slot_after_cons s b l :
  slot_after s (b :: l) = slot_after (NextSlot b) l.
Proof.
  unfold slot_after. destruct l as [|b' l]; [done|].
  rewrite last_cons_cons. by destruct (last (b' :: l)) eqn:E; [|apply last_None in E].
Qed.

Lemma key_at_Some us b k :
  key_at us b = Some k →
  ∃ ctx, contexts us !! b = Some ctx
         ∧ username ctx = Some k.1.1
         ∧ accountname ctx = Some k.1.2
         ∧ protocol ctx = Some k.2.
Proof.
  unfold key_at, ctx_key. intros H.
  bind_inv H as ctx Hctx. exists ctx. split; [done|].
  bind_inv H as u Hu. bind_inv H as a Ha. bind_inv H as p Hp.
  by injection H as <-.
Qed.


Lemma find_scan_spec us u a p :
  ∀ reg fuel curp q uc ac pc,
    load_slot us curp = Some q →
    chain (ctx_next us) q reg.*1 →
    Forall (λ bk, key_at us bk.1 = Some bk.2) reg →
    length reg < fuel →
    ¬ all_zero uc ac pc →
    ∃ l1 l2 uc' ac' pc',
      reg = l1 ++ l2
      ∧ find_scan fuel us u a p curp uc ac pc
        = Some (slot_after curp l1.*1, uc', ac', pc')
      ∧ load_slot us (slot_after curp l1.*1) = Some (head l2.*1)
      ∧ Forall (λ bk, ident_lt bk.2 (u, a, p)) l1
      ∧ match l2 with
        | [] => ¬ all_zero uc' ac' pc'
        | bk :: _ =>
            ¬ ident_lt bk.2 (u, a, p)
            ∧ (all_zero uc' ac' pc' ↔ bk.2 = (u, a, p))
        end.
Proof.
  induction reg as [|[b k] reg IH]; intros fuel curp q uc ac pc Hq Hc Hk Hf Hz.
  - simpl in Hc. subst q. destruct fuel as [|fuel]; [simpl in Hf; lia|].
    exists [], [], uc, ac, pc. simpl. rewrite Hq. simpl. done.
  - destruct fuel as [|fuel]; [simpl in Hf; lia|].
    simpl in Hc. destruct Hc as [-> (r & Hr & Hc)].
    apply Forall_cons in Hk as [Hkb Hk]. simpl in Hkb.
    apply key_at_Some in Hkb as (ctx & Hctx & Hu & Ha & Hp).
    destruct k as [[ku ka] kp]. simpl in Hu, Ha, Hp.
    assert (load_slot us (NextSlot b) = Some r) as Hnext.
    { unfold load_slot. unfold ctx_next in Hr. done. }
    assert (∀ uc' ac' pc', ident_lt (ku, ka, kp) (u, a, p) →
            ¬ all_zero uc' ac' pc' →
            ∃ l1 l2 uc'' ac'' pc'',
              (b, (ku, ka, kp)) :: reg = l1 ++ l2
              ∧ find_scan fuel us u a p (NextSlot b) uc' ac' pc'
                = Some (slot_after curp l1.*1, uc'', ac'', pc'')
              ∧ load_slot us (slot_after curp l1.*1) = Some (head l2.*1)
              ∧ Forall (λ bk, ident_lt bk.2 (u, a, p)) l1
              ∧ match l2 with
                | [] => ¬ all_zero uc'' ac'' pc''
                | bk :: _ =>
                    ¬ ident_lt bk.2 (u, a, p)
                    ∧ (all_zero uc'' ac'' pc'' ↔ bk.2 = (u, a, p))
                end) as Hcont.
    { intros uc' ac' pc' Hlt Hz'.
      destruct (IH fuel (NextSlot b) r uc' ac' pc' Hnext Hc Hk) as
        (l1 & l2 & uc'' & ac'' & pc'' & -> & Hscan & Hload & Hlt1 & Hl2);
        [simpl in Hf; lia|done|].
      exists ((b, (ku, ka, kp)) :: l1), l2, uc'', ac'', pc''.
      rewrite fmap_cons, slot_after_cons. simpl.
      split; [done|]. split; [done|]. split; [done|].
      split; [|done]. by constructor. }
    assert (∀ uc' ac' pc', ¬ ident_lt (ku, ka, kp) (u, a, p) →
            (all_zero uc' ac' pc' ↔ (ku, ka, kp) = (u, a, p)) →
            ∃ l1 l2 uc'' ac'' pc'',
              (b, (ku, ka, kp)) :: reg = l1 ++ l2
              ∧ Some (curp, uc', ac', pc')
                = Some (slot_after curp l1.*1, uc'', ac'', pc'')
              ∧ load_slot us (slot_after curp l1.*1) = Some (head l2.*1)
              ∧ Forall (λ bk, ident_lt bk.2 (u, a, p)) l1
              ∧ match l2 with
                | [] => ¬ all_zero uc'' ac'' pc''
                | bk :: _ =>
                    ¬ ident_lt bk.2 (u, a, p)
                    ∧ (all_zero uc'' ac'' pc'' ↔ bk.2 = (u, a, p))
                end) as Hbreak.
    { intros uc' ac' pc' Hlt Hz'.
      exists [], ((b, (ku, ka, kp)) :: reg), uc', ac', pc'. simpl.
      split; [done|]. split; [done|]. split; [done|]. split; [done|]. done. }
    simpl. rewrite Hq. simpl. rewrite Hctx. simpl. rewrite Hu. simpl.
    unfold ident_lt, all_zero in *.
    pose proof (strcmp_zero_iff ku u) as Hzu.
    pose proof (strcmp_zero_iff ka a) as Hza.
    pose proof (strcmp_zero_iff kp p) as Hzp.
    destruct (Z.ltb_spec 0 (strcmp ku u)).
    { apply Hbreak; [lia|]. split; [lia|]. intros [= -> -> ->].
      rewrite strcmp_refl in *. lia. }
    destruct (Z.eqb_spec (strcmp ku u) 0) as [Heu|Hneu]; cycle 1.
    { apply Hcont; lia. }
    rewrite Ha. simpl.
    destruct (Z.ltb_spec 0 (strcmp ka a)).
    { apply Hbreak; [lia|]. split; [lia|]. intros [= -> -> ->].
      rewrite strcmp_refl in *. lia. }
    destruct (Z.eqb_spec (strcmp ka a) 0) as [Hea|Hnea]; cycle 1.
    { apply Hcont; lia. }
    rewrite Hp. simpl.
    destruct (Z.leb_spec 0 (strcmp kp p)).
    { apply Hbreak; [lia|]. split.
      - intros (_ & _ & Hep). f_equal; [f_equal|]; by apply strcmp_eq.
      - intros [= -> -> ->]. rewrite !strcmp_refl. done. }
    apply Hcont; lia.
Qed.

Lemma all_zero_test uc ac pc :
  ((uc =? 0) && (ac =? 0) && (pc =? 0))%Z = true ↔ all_zero uc ac pc.
Proof. unfold all_zero. rewrite !andb_true_iff, !Z.eqb_eq. tauto. Qed.

Lemma update_ctx_lookup us us' a f b :
  update_ctx a f us = Some us' →
  contexts us' !! b
  = if decide (a = b) then f <$> contexts us !! a else contexts us !! b.
Proof.
  intros H. apply update_ctx_inv in H as (ctx & Hctx & ->). simpl.
  rewrite lookup_insert. case_decide; [|done]. by rewrite Hctx.
Qed.

Lemma update_ctx_frame us us' a f :
  update_ctx a f us = Some us' →
  context_root us' = context_root us
  ∧ fingerprints us' = fingerprints us
  ∧ app_data_freed us' = app_data_freed us.
Proof. intros H. by apply update_ctx_inv in H as (ctx & Hctx & ->). Qed.

Lemma update_ctx_None us a f :
  update_ctx a f us = None → contexts us !! a = None.
Proof. unfold update_ctx. by destruct (contexts us !! a). Qed.

Lemma malloc_context_fresh us : contexts us !! malloc_context us = None.
Proof.
  apply not_elem_of_dom. unfold malloc_context. apply is_fresh.
Qed.

Lemma malloc_fingerprint_fresh us :
  fingerprints us !! malloc_fingerprint us = None.
Proof.
  apply not_elem_of_dom. unfold malloc_fingerprint. apply is_fresh.
Qed.

Lemma find_create_effect fuel us u a p add addedp cb data curp uc ac pc cur :
  find_scan fuel us u a p RootSlot 1 1 1 = Some (curp, uc, ac, pc) →
  ¬ all_zero uc ac pc →
  add ≠ 0%Z →
  load_slot us curp = Some cur →
  (∀ c, cur = Some c → is_Some (contexts us !! c)) →
  ∃ us',
    otrl_context_find fuel us (Some u) (Some a) (Some p) add addedp cb data
    = Some (Some (malloc_context us),
            match addedp with Some _ => Some 1%Z | None => None end, us')
    ∧ (∀ b, contexts us' !! b
            = if decide (b = malloc_context us)
              then Some (created_context us u a p curp cur cb data)
              else (λ c, (if decide (curp = NextSlot b)
                          then set_next (Some (malloc_context us)) else id)
                           ((if decide (cur = Some b)
                             then set_tous
                                    (Some (NextSlot (malloc_context us)))
                             else id) c))
                   <$> contexts us !! b)
    ∧ context_root us'
      = (if decide (curp = RootSlot) then Some (malloc_context us)
         else context_root us)
    ∧ fingerprints us' = fingerprints us
    ∧ app_data_freed us' = app_data_freed us.
Proof.
  intros Hscan Hz Hadd Hcur Halloc.
  unfold otrl_context_find. rewrite Hscan. simpl. rewrite Hcur. simpl.
  destruct ((uc =? 0) && (ac =? 0) && (pc =? 0))%Z eqn:Ez;
    [by apply all_zero_test in Ez|].
  apply Z.eqb_neq in Hadd. rewrite Hadd. simpl.
  pose proof (malloc_context_fresh us) as Hfresh.
  set (new := malloc_context us) in *.
  set (N0 := new_context new u a p).
  set (us0 := with_contexts _ us).
  assert (load_slot us0 curp = Some cur) as Hcur0.
  { destruct curp as [|c]; [done|]. unfold load_slot in *. simpl.
    rewrite lookup_insert_ne; [done|]. intros <-. by rewrite Hfresh in Hcur. }
  rewrite Hcur0. simpl.
  assert (∀ b, contexts us0 !! b
               = if decide (b = new) then Some N0 else contexts us !! b) as L0.
  { intros b. simpl. rewrite lookup_insert. by repeat case_decide. }
  assert (context_root us0 = context_root us
          ∧ fingerprints us0 = fingerprints us
          ∧ app_data_freed us0 = app_data_freed us) as F0 by done.
  clearbody us0.
  (* newctx->next = *curp *)
  destruct (update_ctx new (set_next cur) us0) as [us1|] eqn:E1; cycle 1.
  { apply update_ctx_None in E1. rewrite L0 in E1. by case_decide. }
  pose proof (λ b, update_ctx_lookup _ _ _ _ b E1) as L1.
  pose proof (update_ctx_frame _ _ _ _ E1) as F1. simpl.
  (* tous of the old *curp becomes &(newctx->next) *)
  destruct (match cur with
            | Some c => update_ctx c (set_tous (Some (NextSlot new))) us1
            | None => Some us1
            end) as [us2|] eqn:E2; cycle 1.
  { destruct cur as [c|]; [|done]. apply update_ctx_None in E2.
    destruct (Halloc c eq_refl) as [cc Hcc].
    rewrite ?L1, ?L0 in E2. repeat case_decide; congruence. }
  assert (∀ b, contexts us2 !! b
               = if decide (cur = Some b)
                 then set_tous (Some (NextSlot new)) <$> contexts us1 !! b
                 else contexts us1 !! b) as L2.
  { intros b. destruct cur as [c|].
    - rewrite (update_ctx_lookup _ _ _ _ b E2).
      repeat case_decide; congruence.
    - injection E2 as <-. by case_decide. }
  assert (context_root us2 = context_root us1
          ∧ fingerprints us2 = fingerprints us1
          ∧ app_data_freed us2 = app_data_freed us1) as F2.
  { destruct cur as [c|]; [by eapply update_ctx_frame|by injection E2 as <-]. }
  clear E2. simpl.
  (* *curp = newctx *)
  destruct (store_slot curp (Some new) us2) as [us3|] eqn:E3; cycle 1.
  { destruct curp as [|c]; [done|]. unfold store_slot in E3.
    apply update_ctx_None in E3. unfold load_slot in Hcur.
    rewrite ?L2, ?L1, ?L0 in E3.
    destruct (contexts us !! c); [|done].
    repeat case_decide; done. }
  assert (∀ b, contexts us3 !! b
               = if decide (curp = NextSlot b)
                 then set_next (Some new) <$> contexts us2 !! b
                 else contexts us2 !! b) as L3.
  { intros b. destruct curp as [|c]; unfold store_slot in E3.
    - injection E3 as <-. by case_decide.
    - rewrite (update_ctx_lookup _ _ _ _ b E3).
      repeat case_decide; congruence. }
  assert (context_root us3
          = (if decide (curp = RootSlot) then Some new else context_root us2)
          ∧ fingerprints us3 = fingerprints us2
          ∧ app_data_freed us3 = app_data_freed us2) as F3.
  { destruct curp as [|c]; unfold store_slot in E3.
    - by injection E3 as <-.
    - apply update_ctx_frame in E3. by case_decide. }
  simpl.
  (* newctx->tous = curp *)
  destruct (update_ctx new (set_tous (Some curp)) us3) as [us4|] eqn:E4;
    cycle 1.
  { apply update_ctx_None in E4. rewrite ?L3, ?L2, ?L1, ?L0 in E4.
    repeat case_decide; done. }
  pose proof (λ b, update_ctx_lookup _ _ _ _ b E4) as L4.
  pose proof (update_ctx_frame _ _ _ _ E4) as F4. simpl.
  assert (load_slot us4 curp = Some (Some new)) as Hcur4.
  { destruct curp as [|c]; unfold load_slot in *.
    - destruct F4 as [-> _], F3 as [-> _]. by case_decide.
    - rewrite ?L4, ?L3, ?L2, ?L1, ?L0.
      destruct (contexts us !! c) eqn:Ec; [|done].
      assert (c ≠ new) by (intros ->; congruence).
      repeat case_decide; try done; by destruct cur. }
  assert (contexts us4 !! new
          = Some (set_tous (Some curp) (set_next cur N0))) as Hnew4.
  { rewrite ?L4, ?L3, ?L2, ?L1, ?L0.
    assert (curp ≠ NextSlot new).
    { intros ->. unfold load_slot in Hcur. by rewrite Hfresh in Hcur. }
    assert (cur ≠ Some new).
    { intros Hc. destruct (Halloc new Hc). congruence. }
    repeat case_decide; done. }
  (* add_app_data(data, *curp) *)
  destruct (match cb with
            | Some cb0 =>
                cur0 ← load_slot us4 curp;
                c ← cur0;
                ctx ← contexts us4 !! c;
                let '(d, fr) := cb0 data ctx in
                update_ctx c (set_app_data d fr) us4
            | None => Some us4
            end) as [us5|] eqn:E5; cycle 1.
  { destruct cb as [cb0|]; [|done]. rewrite Hcur4 in E5. simpl in E5.
    rewrite Hnew4 in E5. simpl in E5. destruct (cb0 data _).
    apply update_ctx_None in E5. congruence. }
  assert (∀ b, contexts us5 !! b
               = if decide (b = new)
                 then Some (created_context us u a p curp cur cb data)
                 else contexts us4 !! b) as L5.
  { intros b. unfold created_context. fold new. fold N0.
    destruct cb as [cb0|].
    - rewrite Hcur4 in E5. simpl in E5. rewrite Hnew4 in E5. simpl in E5.
      destruct (cb0 data _) as [d fr].
      rewrite (update_ctx_lookup _ _ _ _ b E5), Hnew4.
      repeat case_decide; try done; congruence.
    - injection E5 as <-.
      destruct (decide (b = new)) as [->|]; [exact Hnew4|done]. }
  assert (context_root us5 = context_root us4
          ∧ fingerprints us5 = fingerprints us4
          ∧ app_data_freed us5 = app_data_freed us4) as F5.
  { destruct cb as [cb0|]; [|by injection E5 as <-].
    rewrite Hcur4 in E5. simpl in E5. rewrite Hnew4 in E5. simpl in E5.
    destruct (cb0 data _) as [d fr]. by eapply update_ctx_frame. }
  assert (load_slot us5 curp = Some (Some new)) as Hcur5.
  { destruct curp as [|c]; unfold load_slot in *.
    - destruct F5 as [-> _]. done.
    - rewrite L5. destruct (decide (c = new)) as [->|]; [|done].
      by rewrite Hfresh in Hcur. }
  simpl. rewrite Hcur5. simpl.
  exists us5. split; [by destruct addedp|]. split; [|split; [|split]].
  - intros b. rewrite L5. destruct (decide (b = new)) as [->|Hb]; [done|].
    rewrite ?L4, ?L3, ?L2, ?L1, ?L0.
    destruct (contexts us !! b) as [cb'|] eqn:Eb;
      repeat case_decide; try done; congruence.
  - destruct F5 as [-> _], F4 as [-> _], F3 as [-> _], F2 as [-> _],
      F1 as [-> _], F0 as [-> _]. done.
  - destruct F5 as (_ & -> & _), F4 as (_ & -> & _), F3 as (_ & -> & _),
      F2 as (_ & -> & _), F1 as (_ & -> & _), F0 as (_ & -> & _). done.
  - destruct F5 as (_ & _ & ->), F4 as (_ & _ & ->), F3 as (_ & _ & ->),
      F2 as (_ & _ & ->), F1 as (_ & _ & ->), F0 as (_ & _ & ->). done.
Qed.

Lemma find_scan_mono us u a p fuel :
  ∀ fuel' curp uc ac pc r,
    find_scan fuel us u a p curp uc ac pc = Some r →
    fuel ≤ fuel' →
    find_scan fuel' us u a p curp uc ac pc = Some r.
Proof.
  induction fuel as [|fuel IH]; intros fuel' curp uc ac pc r H Hle; [done|].
  destruct fuel' as [|fuel']; [lia|]. simpl in *.
  destruct (load_slot us curp) as [[c|]|]; simpl in *; [|done..].
  destruct (contexts us !! c) as [ctx|]; simpl in *; [|done].
  destruct (username ctx) as [ku|]; simpl in *; [|done].
  destruct (0 <? strcmp ku u)%Z; [done|].
  destruct (strcmp ku u =? 0)%Z; [|apply IH; [done|lia]].
  destruct (accountname ctx) as [ka|]; simpl in *; [|done].
  destruct (0 <? strcmp ka a)%Z; [done|].
  destruct (strcmp ka a =? 0)%Z; [|apply IH; [done|lia]].
  destruct (protocol ctx) as [kp|]; simpl in *; [|done].
  destruct (0 <=? strcmp kp p)%Z; [done|]. apply IH; [done|lia].
Qed.

Lemma find_mono fuel fuel' us user acct proto add addedp cb data r :
  otrl_context_find fuel us user acct proto add addedp cb data = Some r →
  fuel ≤ fuel' →
  otrl_context_find fuel' us user acct proto add addedp cb data = Some r.
Proof.
  unfold otrl_context_find. intros H Hle.
  destruct user as [u|], acct as [a|], proto as [p|]; try done.
  bind_inv H as sc Hsc.
  by rewrite (find_scan_mono _ _ _ _ _ _ _ _ _ _ _ Hsc Hle).
Qed.

Lemma registry_alloc us reg b k :
  registry us reg → (b, k) ∈ reg → key_at us b = Some k.
Proof.
  intros [_ Hk] Hin. rewrite Forall_forall in Hk. by apply (Hk (b, k)).
Qed.

Lemma sorted_keys_unique (reg : list (positive * ident)) b b' k :
  StronglySorted ident_lt reg.*2 → (b, k) ∈ reg → (b', k) ∈ reg → b = b'.
Proof.
  induction reg as [|[c kc] reg IH]; simpl; intros Hs Hin Hin'.
  - by apply elem_of_nil in Hin.
  - apply StronglySorted_cons in Hs as [Hall Hs].
    rewrite Forall_forall in Hall.
    apply elem_of_cons in Hin as [Hin|Hin], Hin' as [Hin'|Hin'].
    + congruence.
    + injection Hin as -> ->. exfalso. apply (ident_lt_irrefl kc), Hall.
      apply list_elem_of_fmap. by exists (b', kc).
    + injection Hin' as -> ->. exfalso. apply (ident_lt_irrefl kc), Hall.
      apply list_elem_of_fmap. by exists (b, kc).
    + by apply IH.
Qed.

Lemma slot_after_root l : slot_after RootSlot l = RootSlot ↔ l = [].
Proof.
  unfold slot_after. destruct (last l) eqn:E.
  - split; [done|]. intros ->. done.
  - apply last_None in E. done.
Qed.

Lemma slot_after_next s l b :
  slot_after s l = NextSlot b →
  last l = Some b ∨ (l = [] ∧ s = NextSlot b).
Proof.
  unfold slot_after. destruct (last l) eqn:E.
  - intros [= ->]. by left.
  - apply last_None in E. intros ->. by right.
Qed.

Lemma find_scan_registry us reg u a p fuel :
  registry us reg →
  StronglySorted ident_lt reg.*2 →
  length reg < fuel →
  ∃ l1 l2 uc ac pc,
    reg = l1 ++ l2
    ∧ find_scan fuel us u a p RootSlot 1 1 1
      = Some (slot_after RootSlot l1.*1, uc, ac, pc)
    ∧ load_slot us (slot_after RootSlot l1.*1) = Some (head l2.*1)
    ∧ Forall (λ bk, ident_lt bk.2 (u, a, p)) l1
    ∧ ((all_zero uc ac pc ∧ ∃ b l2', l2 = (b, (u, a, p)) :: l2')
       ∨ (¬ all_zero uc ac pc
          ∧ Forall (λ bk, ident_lt (u, a, p) bk.2) l2)).
Proof.
  intros [Hc Hk] Hs Hf.
  destruct (find_scan_spec us u a p reg fuel RootSlot (context_root us)
              1 1 1 eq_refl Hc Hk Hf)
    as (l1 & l2 & uc & ac & pc & -> & Hscan & Hload & Hlt & Hl2).
  { unfold all_zero. lia. }
  exists l1, l2, uc, ac, pc. do 4 (split; [done|]).
  destruct l2 as [|[b k] l2]; [right; by split|].
  destruct Hl2 as [Hnlt Hz]. simpl in *.
  destruct (ident_lt_total k (u, a, p)) as [?|[->|Hgt]]; [done| |].
  - left. split; [by apply Hz|]. eauto.
  - right. split; [intros Hz'; apply Hz in Hz'; subst; by apply ident_lt_irrefl in Hgt|].
    rewrite fmap_app in Hs. apply StronglySorted_app_1_r in Hs.
    rewrite fmap_cons in Hs. apply StronglySorted_cons in Hs as [Hall _].
    constructor; [done|]. simpl in Hall.
    rewrite Forall_fmap in Hall. eapply Forall_impl; [exact Hall|].
    intros [c kc] Hkc. simpl in *. eapply ident_lt_trans; eauto.
Qed.

(** ** Lookup and creation of contexts *)
Lemma created_context_next us u a p curp cur cb data :
  next (created_context us u a p curp cur cb data) = cur.
Proof.
  unfold created_context. destruct cb as [f|]; [|done]. by destruct (f _ _).
Qed.

Lemma created_context_key us u a p curp cur cb data :
  ctx_key (created_context us u a p curp cur cb data) = Some (u, a, p).
Proof.
  unfold created_context. destruct cb as [f|]; [|done]. by destruct (f _ _).
Qed.

Lemma registry_not_fresh us reg b :
  registry us reg → b ∈ reg.*1 → b ≠ malloc_context us.
Proof.
  intros [_ Hk] Hin Hb.
  apply list_elem_of_fmap in Hin as ([b' k] & Heq & Hin). simpl in Heq.
  rewrite Forall_forall in Hk. apply Hk in Hin. simpl in Hin.
  unfold key_at in Hin. subst. by rewrite malloc_context_fresh in Hin.
Qed.

(** What [otrl_context_find] does on a sorted registry. *)
Lemma find_spec us reg fuel u a p add addedp cb data :
  registry us reg →
  StronglySorted ident_lt reg.*2 →
  length reg < fuel →
  ∃ r flag us' reg',
    otrl_context_find fuel us (Some u) (Some a) (Some p) add addedp cb data
    = Some (r, flag, us')
    ∧ registry us' reg'
    ∧ StronglySorted ident_lt reg'.*2
    ∧ ((∃ b, (b, (u, a, p)) ∈ reg ∧ r = Some b ∧ us' = us ∧ reg' = reg
             ∧ flag = match addedp with Some _ => Some 0%Z | None => None end)
       ∨ (((u, a, p) ∉ reg.*2) ∧ add = 0%Z ∧ r = None ∧ us' = us ∧ reg' = reg
          ∧ flag = match addedp with Some _ => Some 0%Z | None => None end)
       ∨ (((u, a, p) ∉ reg.*2) ∧ add ≠ 0%Z
          ∧ r = Some (malloc_context us)
          ∧ flag = match addedp with Some _ => Some 1%Z | None => None end
          ∧ fingerprints us' = fingerprints us
          ∧ ∃ l1 l2,
              reg = l1 ++ l2
              ∧ reg' = l1 ++ (malloc_context us, (u, a, p)) :: l2
              ∧ (∀ b, contexts us' !! b
                      = if decide (b = malloc_context us)
                        then Some (created_context us u a p
                                     (slot_after RootSlot l1.*1)
                                     (head l2.*1) cb data)
                        else (λ c,
                                (if decide (slot_after RootSlot l1.*1
                                            = NextSlot b)
                                 then set_next (Some (malloc_context us))
                                 else id)
                                  ((if decide (head l2.*1 = Some b)
                                    then set_tous
                                           (Some (NextSlot
                                                    (malloc_context us)))
                                    else id) c))
                             <$> contexts us !! b)
              ∧ context_root us'
                = (if decide (slot_after RootSlot l1.*1 = RootSlot)
                   then Some (malloc_context us) else context_root us))).
Proof.
  intros Hreg Hs Hf.
  destruct (find_scan_registry us reg u a p fuel Hreg Hs Hf)
    as (l1 & l2 & uc & ac & pc & -> & Hscan & Hload & Hlt & Hcase).
  destruct Hcase as [[Hz (b & l2' & ->)]|[Hz Hgt]].
  - (* found *)
    exists (Some b), (match addedp with Some _ => Some 0%Z | None => None end),
      us, (l1 ++ (b, (u, a, p)) :: l2').
    split.
    { unfold otrl_context_find. rewrite Hscan. simpl. rewrite Hload. simpl.
      apply all_zero_test in Hz. by rewrite Hz. }
    split; [done|]. split; [done|]. left. exists b.
    split; [|done]. apply elem_of_app. right. apply list_elem_of_here.
  - assert ((u, a, p) ∉ (l1 ++ l2).*2) as Hnotin.
    { intros Hin. apply list_elem_of_fmap in Hin as ([b k] & Hk & Hin).
      simpl in Hk. subst k. rewrite Forall_forall in Hlt, Hgt.
      apply elem_of_app in Hin as [Hin|Hin].
      - apply Hlt in Hin. by apply ident_lt_irrefl in Hin.
      - apply Hgt in Hin. by apply ident_lt_irrefl in Hin. }
    destruct (decide (add = 0%Z)) as [->|Hadd].
    + (* missing, not created *)
      exists None, (match addedp with Some _ => Some 0%Z | None => None end),
        us, (l1 ++ l2).
      split.
      { unfold otrl_context_find. rewrite Hscan. simpl. rewrite Hload. simpl.
        destruct ((uc =? 0) && (ac =? 0) && (pc =? 0))%Z eqn:Ez; [|done].
        by apply all_zero_test in Ez. }
      split; [done|]. split; [done|]. right; left. done.
    + (* created *)
      destruct (find_create_effect fuel us u a p add addedp cb data _ uc ac pc
                  _ Hscan Hz Hadd Hload)
        as (us' & Hfind & Hctx & Hroot & Hfps & _).
      { intros c Hc. destruct l2 as [|[c' k'] l2]; [done|].
        injection Hc as ->. destruct Hreg as [_ Hk].
        apply Forall_app in Hk as [_ Hk]. apply Forall_cons in Hk as [Hk _].
        simpl in Hk. unfold key_at in Hk.
        destruct (contexts us !! c); [eauto|done]. }
      pose proof (malloc_context_fresh us) as Hfresh.
      set (new := malloc_context us) in *.
      exists (Some new),
        (match addedp with Some _ => Some 1%Z | None => None end),
        us', (l1 ++ (new, (u, a, p)) :: l2).
      split; [done|].
      assert (∀ b, b ≠ new → key_at us' b = key_at us b) as Hkeys.
      { intros b Hb. unfold key_at. rewrite Hctx.
        rewrite decide_False by done.
        destruct (contexts us !! b) as [c|]; [|done]. simpl.
        by goal_decide. }
      assert (key_at us' new = Some (u, a, p)) as Hkey.
      { unfold key_at. rewrite Hctx, decide_True by done. simpl.
        apply created_context_key. }
      split; [split|].
      * (* the chain *)
        unfold context_list. rewrite fmap_app, fmap_cons. simpl.
        replace (context_root us') with
          (match l1.*1 with [] => Some new | _ => context_root us end).
        2:{ rewrite Hroot. destruct l1; [done|].
            rewrite decide_False; [done|]. by rewrite slot_after_root. }
        pose proof Hreg as [Hc Hk]. unfold context_list in Hc.
        rewrite fmap_app in Hc.
        apply (chain_insert (ctx_next us) (ctx_next us') new (l2.*1) (l1.*1)
                 (context_root us) Hc).
        -- unfold ctx_next. rewrite Hctx, decide_True by done. simpl.
           by rewrite created_context_next.
        -- intros b Hb Hlast. unfold ctx_next. rewrite Hctx.
           rewrite decide_False.
           2:{ eapply registry_not_fresh; [done|]. by rewrite fmap_app. }
           destruct (contexts us !! b) as [c|]; [|done]. simpl.
           rewrite decide_False.
           2:{ intros Heq. apply slot_after_next in Heq as [?|[_ [=]]].
               done. }
           by goal_decide.
        -- intros b Hlast. unfold ctx_next. rewrite Hctx.
           assert (b ∈ (l1 ++ l2).*1) as Hb.
           { rewrite fmap_app. apply elem_of_app. left.
             by apply last_Some_elem_of. }
           rewrite decide_False by by eapply registry_not_fresh.
           apply list_elem_of_fmap in Hb as ([b' k] & Heq & Hb).
           simpl in Heq. subst b'.
           rewrite Forall_forall in Hk. apply Hk in Hb. simpl in Hb.
           unfold key_at in Hb. destruct (contexts us !! b); [|done]. simpl.
           rewrite decide_True; [by goal_decide|].
           unfold slot_after. by rewrite Hlast.
      * (* the keys *)
        destruct Hreg as [_ Hk]. apply Forall_app in Hk as [Hk1 Hk2].
        apply Forall_app. split; [|constructor; [done|]].
        -- eapply Forall_impl; [exact Hk1|]. intros [b k] Hbk. simpl in *.
           rewrite Hkeys; [done|]. intros ->. unfold key_at in Hbk.
           by rewrite Hfresh in Hbk.
        -- eapply Forall_impl; [exact Hk2|]. intros [b k] Hbk. simpl in *.
           rewrite Hkeys; [done|]. intros ->. unfold key_at in Hbk.
           by rewrite Hfresh in Hbk.
      * split.
        -- rewrite fmap_app in *. rewrite fmap_cons. simpl.
           apply StronglySorted_app in Hs as (H12 & Hs1 & Hs2).
           apply StronglySorted_app. split; [|split; [done|]].
           ++ intros x1 x2 Hx1 Hx2. apply elem_of_cons in Hx2 as [->|Hx2].
              ** rewrite Forall_forall in Hlt.
                 apply list_elem_of_fmap in Hx1 as ([b k] & -> & Hx1).
                 by apply Hlt in Hx1.
              ** by apply H12.
           ++ apply StronglySorted_cons. split; [|done].
              by rewrite Forall_fmap.
        -- right; right. do 5 (split; [done|]). exists l1, l2. done.
Qed.

Lemma StronglySorted_lt_NoDup (ks : list ident) :
  StronglySorted ident_lt ks → NoDup ks.
Proof.
  induction ks as [|k ks IH]; [constructor|].
  intros [Hall Hs]%StronglySorted_cons. constructor; [|by apply IH].
  intros Hin. rewrite Forall_forall in Hall.
  by apply (ident_lt_irrefl k), Hall.
Qed.

Lemma find_existing us reg fuel u a p add addedp cb data b :
  registry us reg →
  StronglySorted ident_lt reg.*2 →
  length reg < fuel →
  (b, (u, a, p)) ∈ reg →
  otrl_context_find fuel us (Some u) (Some a) (Some p) add addedp cb data
  = Some (Some b, match addedp with Some _ => Some 0%Z | None => None end, us).
Proof.
  intros Hreg Hs Hf Hin.
  assert ((u, a, p) ∈ reg.*2) as Hin2.
  { apply list_elem_of_fmap. by exists (b, (u, a, p)). }
  destruct (find_spec us reg fuel u a p add addedp cb data Hreg Hs Hf)
    as (r & flag & us' & reg' & Hfind & _ & _ & Hcase).
  destruct Hcase as [(b' & Hin' & -> & -> & -> & ->)|[[Hn _]|[Hn _]]];
    [|done..].
  by rewrite (sorted_keys_unique reg b b' (u, a, p) Hs Hin Hin').
Qed.

(** C1: in every store reached from the empty one by calls of
    [otrl_context_find], the contexts hanging off the root form a list in
    which every context is strictly below every later one in the order
    (username, accountname, protocol); so the list is sorted and no two of
    its contexts have the same triple.  In such a store every further call
    returns, given fuel beyond the length of the list. *)
Theorem find_keeps_registry_sorted us :
  built_by_find us →
  ∃ reg,
    registry us reg
    ∧ StronglySorted ident_lt reg.*2
    ∧ NoDup reg.*2
    ∧ ∀ fuel user accountname_ protocol_ add_if_missing addedp
        add_app_data data,
        length reg < fuel →
        is_Some (otrl_context_find fuel us user accountname_ protocol_
                   add_if_missing addedp add_app_data data).
Proof.
  intros Hb.
  cut (∃ reg, registry us reg ∧ StronglySorted ident_lt reg.*2).
  { intros (reg & Hreg & Hs). exists reg. split; [done|]. split; [done|].
    split; [by apply StronglySorted_lt_NoDup|].
    intros fuel [u|] [a|] [p|] add addedp cb data Hf;
      try (unfold otrl_context_find; done).
    destruct (find_spec us reg fuel u a p add addedp cb data Hreg Hs Hf)
      as (r & flag & us' & reg' & -> & _). done. }
  induction Hb as [|us fuel user acct proto add addedp cb data r ad us' _ IH H].
  - exists []. split; [|constructor]. split; [done|constructor].
  - destruct IH as (reg & Hreg & Hs).
    destruct user as [u|], acct as [a|], proto as [p|];
      try (unfold otrl_context_find in H; injection H as <- <- <-;
           by eauto).
    apply (find_mono _ (fuel + S (length reg))) in H; [|lia].
    destruct (find_spec us reg (fuel + S (length reg)) u a p add addedp cb
                data Hreg Hs) as (r' & flag & us1 & reg' & Hfind & Hreg' & Hs' & _);
      [lia|].
    rewrite Hfind in H. injection H as <- <- <-. eauto.
Qed.

Lemma built_sample_bob_alice : built_by_find sample_bob_alice.
Proof.
  apply (built_find sample_bob 2 (Some "alice") (Some "me") (Some "xmpp") 1
           (Some 0%Z) None None (Some 2%positive) (Some 1%Z)).
  - apply (built_find empty_userstate 1 (Some "bob") (Some "me") (Some "xmpp")
             1 None None None (Some 1%positive) None).
    + apply built_empty.
    + vm_compute. reflexivity.
  - vm_compute. reflexivity.
Defined.

Lemma find_keeps_registry_sorted_witness :
  context_root sample_bob_alice = Some 2%positive
  ∧ ∃ reg, registry sample_bob_alice reg
           ∧ StronglySorted ident_lt reg.*2
           ∧ NoDup reg.*2.
Proof.
  split; [vm_compute; reflexivity|].
  destruct (find_keeps_registry_sorted sample_bob_alice
              built_sample_bob_alice) as (reg & Hreg & Hs & Hnd & _).
  exists reg. split; [exact Hreg|]. split; [exact Hs|exact Hnd].
Defined.

(** C7: on a sorted registry, [otrl_context_find] with [add_if_missing]
    set, called twice with the same three strings, returns the same
    context both times, and that context carries the triple.  The first
    call sets [*addedp] to 1 exactly when the triple was not in the
    registry; the second call sets it to 0 and leaves the store as the
    first call left it. *)
Theorem find_twice_same_context us reg fuel fuel' u a p add add' addedp
    addedp' cb cb' data data' :
  registry us reg →
  StronglySorted ident_lt reg.*2 →
  length reg < fuel →
  S (length reg) < fuel' →
  add ≠ 0%Z →
  add' ≠ 0%Z →
  ∃ c us1,
    otrl_context_find fuel us (Some u) (Some a) (Some p) add addedp cb data
    = Some (Some c,
            match addedp with
            | Some _ => Some (if decide ((u, a, p) ∈ reg.*2) then 0%Z else 1%Z)
            | None => None
            end, us1)
    ∧ key_at us1 c = Some (u, a, p)
    ∧ otrl_context_find fuel' us1 (Some u) (Some a) (Some p) add' addedp'
        cb' data'
      = Some (Some c,
              match addedp' with Some _ => Some 0%Z | None => None end, us1).
Proof.
  intros Hreg Hs Hf Hf' Hadd Hadd'.
  destruct (find_spec us reg fuel u a p add addedp cb data Hreg Hs Hf)
    as (r & flag & us1 & reg' & Hfind & Hreg' & Hs' & Hcase).
  destruct Hcase as [(b & Hin & -> & -> & -> & ->)|[(_ & ? & _)|Hcase]];
    [|done|].
  - exists b, us. rewrite Hfind.
    assert ((u, a, p) ∈ reg.*2) as Hin2.
    { apply list_elem_of_fmap. by exists (b, (u, a, p)). }
    rewrite decide_True by done. split; [done|].
    split; [by eapply registry_alloc|].
    eapply find_existing; eauto. lia.
  - destruct Hcase as (Hnotin & _ & -> & -> & _ & l1 & l2 & -> & -> & _).
    exists (malloc_context us), us1. rewrite Hfind.
    rewrite decide_False by done. split; [done|].
    assert ((malloc_context us, (u, a, p))
            ∈ l1 ++ (malloc_context us, (u, a, p)) :: l2) as Hin.
    { apply elem_of_app. right. apply list_elem_of_here. }
    split; [by eapply registry_alloc|].
    eapply find_existing; eauto.
    rewrite length_app in *. simpl. lia.
Qed.

Lemma registry_sample_bob :
  registry sample_bob [(1%positive, ("bob", "me", "xmpp"))].
Proof.
  split.
  - split; [reflexivity|]. exists None. split; reflexivity.
  - repeat constructor.
Defined.

Lemma find_twice_same_context_witness :
  ∃ c us1,
    otrl_context_find 2 sample_bob (Some "alice") (Some "me") (Some "xmpp") 1
      (Some 0%Z) None None
    = Some (Some c, Some 1%Z, us1)
    ∧ key_at us1 c = Some ("alice", "me", "xmpp")
    ∧ otrl_context_find 3 us1 (Some "alice") (Some "me") (Some "xmpp") 1
        (Some 1%Z) None None
      = Some (Some c, Some 0%Z, us1).
Proof.
  apply (find_twice_same_context sample_bob
           [(1%positive, ("bob", "me", "xmpp"))] 2 3 "alice" "me" "xmpp"
           1 1 (Some 0%Z) (Some 1%Z) None None None None).
  - exact registry_sample_bob.
  - repeat constructor.
  - simpl. lia.
  - simpl. lia.
  - discriminate.
  - discriminate.
Defined.

(** ** Lookup and creation of fingerprints *)

Lemma ubyte_inj x y : ubyte x = ubyte y → x = y.
Proof.
  unfold ubyte. intros H. apply N2Z.inj in H.
  apply (f_equal Byte.of_N) in H. rewrite !Byte.of_to_N in H. congruence.
Qed.

Lemma bytes_cmp_eq b1 : ∀ b2,
  length b1 = length b2 → bytes_cmp b1 b2 = 0%Z ↔ b1 = b2.
Proof.
  induction b1 as [|x b1 IH]; intros [|y b2] Hl; simpl in *; try done.
  destruct (Z.ltb_spec (ubyte x) (ubyte y)).
  { split; [done|]. intros [= -> _]. lia. }
  destruct (Z.ltb_spec (ubyte y) (ubyte x)).
  { split; [done|]. intros [= -> _]. lia. }
  rewrite IH by lia. split.
  - intros ->. f_equal. apply ubyte_inj. lia.
  - by intros [= _ ->].
Qed.

Lemma memcmp_Some b1 b2 n :
  length b1 = n → length b2 = n →
  memcmp b1 b2 n = Some (bytes_cmp b1 b2).
Proof.
  intros H1 H2. unfold memcmp. rewrite decide_True by lia.
  by rewrite !take_ge by lia.
Qed.

Lemma find_fingerprint_scan_spec us bytes :
  length bytes = 20 →
  ∀ fl fuel q,
    chain (fp_next_at us) q fl →
    Forall (real_entry us) fl →
    length fl < fuel →
    (∃ p, find_fingerprint_scan fuel us q bytes = Some (Some p)
          ∧ p ∈ fl ∧ entry_matches us bytes p)
    ∨ (find_fingerprint_scan fuel us q bytes = Some None
       ∧ ∀ p, p ∈ fl → ¬ entry_matches us bytes p).
Proof.
  intros Hlen. induction fl as [|p fl IH]; intros fuel q Hc Hreal Hf.
  - simpl in Hc. subst q. destruct fuel; [simpl in Hf; lia|].
    right. split; [done|]. intros p Hp. by apply elem_of_nil in Hp.
  - destruct fuel as [|fuel]; [simpl in Hf; lia|].
    destruct Hc as [-> (r & Hr & Hc)].
    apply Forall_cons in Hreal as [(f & fp & b & -> & Hfp & Hb & Hbl) Hreal].
    unfold fp_next_at, load_fp in Hr. rewrite Hfp in Hr.
    injection Hr as <-.
    simpl. unfold load_fp. rewrite Hfp. simpl. rewrite Hb. simpl.
    rewrite (memcmp_Some b bytes 20) by done. simpl.
    destruct (Z.eqb_spec (bytes_cmp b bytes) 0) as [Heq|Hne].
    + apply bytes_cmp_eq in Heq; [|congruence]. subst b.
      left. exists (FpNode f). split; [done|].
      split; [apply list_elem_of_here|]. exists fp. done.
    + destruct (IH fuel (fp_next fp) Hc Hreal) as
        [(p & Hscan & Hin & Hm)|[Hscan Hnone]]; [simpl in Hf; lia| |].
      * left. exists p. split; [done|]. split; [|done].
        by apply list_elem_of_further.
      * right. split; [done|]. intros p [->|Hp]%elem_of_cons; [|by apply Hnone].
        intros (fp' & Hfp' & Hb'). unfold load_fp in Hfp'.
        rewrite Hfp in Hfp'. injection Hfp' as <-.
        rewrite Hb in Hb'. injection Hb' as ->.
        apply Hne. apply bytes_cmp_eq; [congruence|done].
Qed.


Lemma update_fp_node_Some us f fp g :
  fingerprints us !! f = Some fp →
  update_fp (FpNode f) g us
  = Some (with_fingerprints (<[f := g fp]> (fingerprints us)) us).
Proof. intros H. unfold update_fp. by rewrite H. Qed.

Lemma update_fp_root_Some us c ctx g :
  contexts us !! c = Some ctx →
  update_fp (FpRootOf c) g us
  = Some (with_contexts
            (<[c := set_fingerprint_root (g (fingerprint_root ctx)) ctx]>
               (contexts us)) us).
Proof. intros H. unfold update_fp. by rewrite (update_ctx_Some _ _ ctx). Qed.

Lemma find_fingerprint_create_effect fuel us context ctx bytes add addedp :
  contexts us !! context = Some ctx →
  find_fingerprint_scan fuel us (fp_next (fingerprint_root ctx)) bytes
  = Some None →
  add ≠ 0%Z →
  20 ≤ length bytes →
  (∀ n, fp_next (fingerprint_root ctx) = Some n →
        ∃ g, n = FpNode g ∧ is_Some (fingerprints us !! g)) →
  ∃ us',
    otrl_context_find_fingerprint fuel us context bytes add addedp
    = Some (Some (FpNode (malloc_fingerprint us)),
            match addedp with Some _ => Some 1%Z | None => None end, us')
    ∧ (∀ g, fingerprints us' !! g
            = if decide (g = malloc_fingerprint us)
              then Some (created_entry context bytes
                           (fp_next (fingerprint_root ctx)))
              else (if decide (fp_next (fingerprint_root ctx)
                               = Some (FpNode g))
                    then set_fp_tous (Some (FpNode (malloc_fingerprint us)))
                    else id) <$> fingerprints us !! g)
    ∧ contexts us'
      = <[context :=
            set_fingerprint_root
              (set_fp_next (Some (FpNode (malloc_fingerprint us)))
                 (fingerprint_root ctx)) ctx]> (contexts us)
    ∧ context_root us' = context_root us
    ∧ app_data_freed us' = app_data_freed us.
Proof.
  intros Hctx Hscan Hadd Hlen Hhd.
  unfold otrl_context_find_fingerprint. rewrite Hctx. simpl.
  rewrite Hscan. simpl. apply Z.eqb_neq in Hadd. rewrite Hadd. simpl.
  unfold memmove. rewrite decide_True by done. simpl.
  pose proof (malloc_fingerprint_fresh us) as Hfresh.
  set (f := malloc_fingerprint us) in *.
  destruct (fp_next (fingerprint_root ctx)) as [n|] eqn:En.
  - destruct (Hhd n eq_refl) as (g & -> & [fpg Hg]).
    assert (g ≠ f) as Hgf by congruence.
    erewrite update_fp_node_Some;
      [|simpl; rewrite lookup_insert_ne by done; exact Hg].
    simpl. erewrite update_fp_root_Some; [|exact Hctx].
    simpl. erewrite update_fp_node_Some;
      [|simpl; rewrite lookup_insert_ne by done; apply lookup_insert_eq].
    simpl.
    eexists. split; [by destruct addedp|]. simpl.
    split; [|done]. intros x.
    destruct (decide (x = f)) as [->|Hx].
    + rewrite lookup_insert_eq. done.
    + rewrite lookup_insert_ne by done.
      destruct (decide (Some (FpNode g) = Some (FpNode x))) as [[= ->]|Hne].
      * rewrite lookup_insert_eq. by rewrite Hg.
      * rewrite lookup_insert_ne by congruence.
        rewrite lookup_insert_ne by done.
        by destruct (fingerprints us !! x).
  - simpl. erewrite update_fp_root_Some; [|exact Hctx].
    simpl. erewrite update_fp_node_Some; [|simpl; apply lookup_insert_eq].
    simpl.
    eexists. split; [by destruct addedp|]. simpl.
    split; [|done]. intros x. rewrite insert_insert_eq.
    destruct (decide (x = f)) as [->|Hx].
    + by rewrite lookup_insert_eq.
    + rewrite lookup_insert_ne by done. by destruct (fingerprints us !! x).
Qed.

Lemma bytes_cmp_refl b : bytes_cmp b b = 0%Z.
Proof. by apply bytes_cmp_eq. Qed.

(** C8: on a context whose fingerprint chain consists of real entries, and
    for 20 given bytes, [otrl_context_find_fingerprint] either returns an
    entry of the chain that holds exactly these bytes, with the store
    untouched and [*addedp] 0; or no entry of the chain holds them, and
    then without [add_if_missing] it returns NULL, and with it it returns
    a new entry, outside the old chain and now first in the chain, that
    holds the bytes and no trust label, with [*addedp] 1; any later call
    with the same bytes returns that same entry with [*addedp] 0 and
    changes nothing. *)
Theorem find_fingerprint_spec us context fl bytes fuel :
  fingerprint_list us context fl →
  Forall (real_entry us) fl →
  length bytes = 20 →
  length fl < fuel →
  (∃ p, p ∈ fl ∧ entry_matches us bytes p
        ∧ ∀ add addedp,
            otrl_context_find_fingerprint fuel us context bytes add addedp
            = Some (Some p,
                    match addedp with Some _ => Some 0%Z | None => None end,
                    us))
  ∨ ((∀ p, p ∈ fl → ¬ entry_matches us bytes p)
     ∧ (∀ addedp,
          otrl_context_find_fingerprint fuel us context bytes 0 addedp
          = Some (None,
                  match addedp with Some _ => Some 0%Z | None => None end,
                  us))
     ∧ ∀ add addedp,
         add ≠ 0%Z →
         ∃ us' fp,
           otrl_context_find_fingerprint fuel us context bytes add addedp
           = Some (Some (FpNode (malloc_fingerprint us)),
                   match addedp with Some _ => Some 1%Z | None => None end,
                   us')
           ∧ (FpNode (malloc_fingerprint us) ∉ fl)
           ∧ fingerprint_list us' context
               (FpNode (malloc_fingerprint us) :: fl)
           ∧ Forall (real_entry us') (FpNode (malloc_fingerprint us) :: fl)
           ∧ load_fp us' (FpNode (malloc_fingerprint us)) = Some fp
           ∧ fingerprint fp = Some bytes
           ∧ trust fp = None
           ∧ fp_context fp = context
           ∧ ∀ fuel' add' addedp',
               otrl_context_find_fingerprint (S fuel') us' context bytes add'
                 addedp'
               = Some (Some (FpNode (malloc_fingerprint us)),
                       match addedp' with
                       | Some _ => Some 0%Z
                       | None => None
                       end, us')).
Proof.
  intros (ctx & Hctx & Hc) Hreal Hlen Hf.
  destruct (find_fingerprint_scan_spec us bytes Hlen fl fuel _ Hc Hreal Hf)
    as [(p & Hscan & Hin & Hm)|[Hscan Hnone]].
  - left. exists p. split; [done|]. split; [done|]. intros add addedp.
    unfold otrl_context_find_fingerprint. rewrite Hctx. simpl.
    by rewrite Hscan.
  - right. split; [done|]. split.
    { intros addedp. unfold otrl_context_find_fingerprint.
      rewrite Hctx. simpl. by rewrite Hscan. }
    intros add addedp Hadd.
    destruct (find_fingerprint_create_effect fuel us context ctx bytes add
                addedp Hctx Hscan Hadd)
      as (us' & Hfind & Hfps & Hctxs & _); [lia| |].
    { intros n Hn. rewrite (chain_head _ _ _ Hc) in Hn.
      destruct fl as [|p fl]; [done|]. injection Hn as ->.
      apply Forall_cons in Hreal as [(g & fp & b & -> & Hg & _) _]. eauto. }
    pose proof (malloc_fingerprint_fresh us) as Hfresh.
    set (f := malloc_fingerprint us) in *.
    set (hd := fp_next (fingerprint_root ctx)) in *.
    assert (take 20 bytes = bytes) as Htake by (apply take_ge; lia).
    assert (load_fp us' (FpNode f) = Some (created_entry context bytes hd))
      as Hnew.
    { unfold load_fp. rewrite Hfps. by rewrite decide_True. }
    assert (∀ g fp, fingerprints us !! g = Some fp →
                    ∃ fp', fingerprints us' !! g = Some fp'
                           ∧ fingerprint fp' = fingerprint fp
                           ∧ fp_next fp' = fp_next fp) as Hold.
    { intros g fp Hg. rewrite Hfps. rewrite decide_False by congruence.
      rewrite Hg. simpl. eexists. split; [done|]. by goal_decide. }
    assert (contexts us' !! context
            = Some (set_fingerprint_root
                      (set_fp_next (Some (FpNode f)) (fingerprint_root ctx))
                      ctx)) as Hctx'.
    { rewrite Hctxs. apply lookup_insert_eq. }
    exists us', (created_entry context bytes hd).
    split; [done|]. split; [|split; [|split; [|split]]].
    + intros Hin. rewrite Forall_forall in Hreal.
      destruct (Hreal _ Hin) as (g & fp & b & [= <-] & Hg & _). congruence.
    + eexists. split; [exact Hctx'|]. simpl. split; [done|].
      exists hd. split; [unfold fp_next_at; by rewrite Hnew|].
      apply (chain_ext (fp_next_at us)); [|done].
      intros p Hp. rewrite Forall_forall in Hreal.
      destruct (Hreal _ Hp) as (g & fp & b & -> & Hg & _).
      destruct (Hold g fp Hg) as (fp' & Hg' & _ & Hn').
      unfold fp_next_at, load_fp. rewrite Hg, Hg'. simpl. by rewrite Hn'.
    + constructor.
      * exists f, (created_entry context bytes hd), (take 20 bytes).
        split; [done|]. split; [exact Hnew|]. split; [done|].
        rewrite length_take. lia.
      * eapply Forall_impl; [exact Hreal|].
        intros p (g & fp & b & -> & Hg & Hb & Hbl).
        destruct (Hold g fp Hg) as (fp' & Hg' & Hb' & _).
        exists g, fp', b. rewrite Hb'. done.
    + done.
    + split; [simpl; by rewrite Htake|]. split; [done|]. split; [done|].
      intros fuel' add' addedp'. unfold otrl_context_find_fingerprint.
      rewrite Hctx'. simpl. rewrite Hnew. simpl. rewrite Htake.
      rewrite (memcmp_Some bytes bytes 20) by done. simpl.
      by rewrite bytes_cmp_refl.
Qed.

Lemma fingerprint_list_sample :
  fingerprint_list sample_userstate 1 [FpNode 1]
  ∧ Forall (real_entry sample_userstate) [FpNode 1].
Proof.
  split.
  - exists sample_connected. split; [reflexivity|].
    split; [reflexivity|]. exists None. split; reflexivity.
  - constructor; [|constructor].
    exists 1%positive, sample_entry, (replicate 20 x01).
    repeat split; reflexivity.
Defined.

Lemma find_fingerprint_spec_witness :
  ∃ p, otrl_context_find_fingerprint 2 sample_userstate 1 (replicate 20 x01)
         1 (Some 5%Z)
       = Some (Some p, Some 0%Z, sample_userstate).
Proof.
  destruct fingerprint_list_sample as [Hfl Hreal].
  destruct (find_fingerprint_spec sample_userstate 1 [FpNode 1]
              (replicate 20 x01) 2 Hfl Hreal eq_refl)
    as [(p & _ & _ & H)|(Hnone & _)].
  - simpl. lia.
  - exists p. apply H.
  - exfalso. apply (Hnone (FpNode 1)); [apply list_elem_of_here|].
    exists sample_entry. split; reflexivity.
Defined.

(** ** Destruction *)

Lemma entries_ext us us' c :
  ∀ fl prev p,
    (∀ f, f ∈ fl → fingerprints us' !! f = fingerprints us !! f) →
    entries us c prev p fl → entries us' c prev p fl.
Proof.
  induction fl as [|f fl IH]; intros prev p Hext; simpl; [done|].
  intros [-> (fp & Hfp & Hc & Ht & Hrest)]. split; [done|].
  exists fp. rewrite Hext by apply list_elem_of_here.
  do 3 (split; [done|]). apply IH; [|done].
  intros g Hg. apply Hext. by apply list_elem_of_further.
Qed.

Lemma entries_owner us c : ∀ fl prev p f,
  entries us c prev p fl → f ∈ fl →
  ∃ fp, fingerprints us !! f = Some fp ∧ fp_context fp = c.
Proof.
  induction fl as [|g fl IH]; intros prev p f H Hin.
  - by apply elem_of_nil in Hin.
  - destruct H as [-> (fp & Hfp & Hc & Ht & Hrest)].
    apply elem_of_cons in Hin as [->|Hin]; eauto.
Qed.

Lemma entries_tous_node us c : ∀ fl g p f,
  entries us c (FpNode g) p fl → f ∈ fl →
  ∃ fp h, fingerprints us !! f = Some fp ∧ fp_tous fp = Some (FpNode h).
Proof.
  induction fl as [|x fl IH]; intros g p f H Hin.
  - by apply elem_of_nil in Hin.
  - destruct H as [-> (fp & Hfp & Hc & Ht & Hrest)].
    apply elem_of_cons in Hin as [->|Hin]; eauto.
Qed.

Lemma entries_chain us c : ∀ fl prev p,
  entries us c prev p fl → chain (fp_next_at us) p (FpNode <$> fl).
Proof.
  induction fl as [|f fl IH]; intros prev p; simpl; [done|].
  intros [-> (fp & Hfp & Hc & Ht & Hrest)]. split; [done|].
  exists (fp_next fp). split; [|by eapply IH].
  unfold fp_next_at, load_fp. by rewrite Hfp.
Qed.

(** One round of the loop of [otrl_context_forget]: the first entry of the
    chain goes. *)
Lemma forget_fingerprint_head us c ctx f fp :
  contexts us !! c = Some ctx →
  state ctx ≠ CONN_CONNECTED →
  fingerprints us !! f = Some fp →
  fp_context fp = c →
  fp_tous fp = Some (FpRootOf c) →
  (∀ n, fp_next fp = Some n →
        ∃ g, n = FpNode g ∧ g ≠ f ∧ is_Some (fingerprints us !! g)) →
  ∃ us',
    (∀ fuel, 0 < fuel →
             otrl_context_forget_fingerprint fuel (FpNode f) 0 us = Some us')
    ∧ contexts us'
      = <[c := set_fingerprint_root
                 (set_fp_next (fp_next fp) (fingerprint_root ctx)) ctx]>
          (contexts us)
    ∧ (∀ x, fingerprints us' !! x
            = if decide (x = f) then None
              else (if decide (fp_next fp = Some (FpNode x))
                    then set_fp_tous (Some (FpRootOf c)) else id)
                   <$> fingerprints us !! x)
    ∧ context_root us' = context_root us
    ∧ app_data_freed us' = app_data_freed us.
Proof.
  intros Hctx Hst Hfp Hc Ht Hn. subst c.
  assert (∀ us0, fingerprints us0 = fingerprints us →
                 load_fp us0 (FpNode f) = Some fp) as Hl.
  { intros us0 H0. unfold load_fp. by rewrite H0. }
  destruct (fp_next fp) as [n|] eqn:En.
  - destruct (Hn n eq_refl) as (g & -> & Hgf & [fpg Hg]).
    eexists. split.
    { intros [|fuel] Hfuel; [lia|]. simpl.
      rewrite (Hl us) by done. simpl. rewrite Hctx. simpl.
      rewrite (bool_decide_eq_true_2 (state ctx ≠ CONN_CONNECTED)) by done.
      simpl. rewrite Ht. simpl. rewrite En.
      erewrite update_fp_root_Some; [|exact Hctx]. simpl.
      rewrite Hl by done. simpl. rewrite En.
      erewrite update_fp_node_Some; [|exact Hg]. simpl.
      unfold free_fp. simpl. rewrite lookup_insert_ne by done.
      rewrite Hfp. simpl. rewrite lookup_insert_eq. simpl.
      rewrite andb_false_r. reflexivity. }
    simpl. split; [done|]. split; [|done].
    intros x. rewrite lookup_delete.
    destruct (decide (f = x)) as [->|Hx].
    + by rewrite decide_True.
    + rewrite decide_False by done.
      destruct (decide (Some (FpNode g) = Some (FpNode x))) as [[= ->]|Hne].
      * rewrite lookup_insert_eq. by rewrite Hg, Ht.
      * rewrite lookup_insert_ne by congruence.
        by destruct (fingerprints us !! x).
  - eexists. split.
    { intros [|fuel] Hfuel; [lia|]. simpl.
      rewrite (Hl us) by done. simpl. rewrite Hctx. simpl.
      rewrite (bool_decide_eq_true_2 (state ctx ≠ CONN_CONNECTED)) by done.
      simpl. rewrite Ht. simpl. rewrite En.
      erewrite update_fp_root_Some; [|exact Hctx]. simpl.
      rewrite Hl by done. simpl. rewrite En.
      unfold free_fp. simpl. rewrite Hfp. simpl.
      rewrite lookup_insert_eq. simpl. rewrite andb_false_r. reflexivity. }
    simpl. split; [done|]. split; [|done].
    intros x. rewrite lookup_delete.
    destruct (decide (f = x)) as [->|Hx].
    + by rewrite decide_True.
    + rewrite decide_False by done. by destruct (fingerprints us !! x).
Qed.

Lemma entries_NoDup us c fl prev p : entries us c prev p fl → NoDup fl.
Proof.
  intros H. apply entries_chain, chain_NoDup in H.
  by apply NoDup_fmap_1 in H.
Qed.

Lemma set_fingerprint_root_id ctx :
  set_fingerprint_root (fingerprint_root ctx) ctx = ctx.
Proof. by destruct ctx. Qed.

Lemma set_fp_next_id fp : set_fp_next (fp_next fp) fp = fp.
Proof. by destruct fp. Qed.

Lemma forget_fingerprints_spec c :
  ∀ fl us ctx,
    contexts us !! c = Some ctx →
    state ctx ≠ CONN_CONNECTED →
    entries us c (FpRootOf c) (fp_next (fingerprint_root ctx)) fl →
    ∃ us',
      (∀ fuel, length fl < fuel → forget_fingerprints fuel c us = Some us')
      ∧ contexts us'
        = <[c := set_fingerprint_root
                   (set_fp_next None (fingerprint_root ctx)) ctx]>
            (contexts us)
      ∧ (∀ x, fingerprints us' !! x
              = if decide (x ∈ fl) then None else fingerprints us !! x)
      ∧ context_root us' = context_root us
      ∧ app_data_freed us' = app_data_freed us.
Proof.
  induction fl as [|f fl IH]; intros us ctx Hctx Hst Hent.
  - simpl in Hent. exists us. split.
    { intros [|fuel] Hf; [simpl in Hf; lia|]. simpl. rewrite Hctx. simpl.
      by rewrite Hent. }
    split.
    { rewrite <- Hent, set_fp_next_id, set_fingerprint_root_id.
      symmetry. by apply insert_id. }
    split; [|done]. intros x.
    destruct (decide (x ∈ [])) as [Hx|]; [by apply elem_of_nil in Hx|done].
  - pose proof (entries_NoDup _ _ _ _ _ Hent) as Hnd.
    apply NoDup_cons in Hnd as [Hf_fl Hnd].
    pose proof Hent as [Hhd (fp & Hfp & Hc & Ht & Hrest)].
    destruct (forget_fingerprint_head us c ctx f fp Hctx Hst Hfp Hc Ht)
      as (us1 & Hstep & Hctx1 & Hfps1 & Hroot1 & Hfreed1).
    { intros n Hn. destruct fl as [|g fl]; simpl in Hrest; [congruence|].
      destruct Hrest as [Hn' (fpg & Hg & _)]. exists g.
      split; [congruence|]. split; [|eauto]. intros ->. apply Hf_fl.
      apply list_elem_of_here. }
    set (ctx1 := set_fingerprint_root
                   (set_fp_next (fp_next fp) (fingerprint_root ctx)) ctx)
      in *.
    assert (contexts us1 !! c = Some ctx1) as Hc1.
    { rewrite Hctx1. apply lookup_insert_eq. }
    assert (entries us1 c (FpRootOf c) (fp_next fp) fl) as Hent1.
    { destruct fl as [|g fl]; [done|].
      destruct Hrest as [Hn (fpg & Hg & Hcg & Htg & Hrest)].
      split; [done|]. exists (set_fp_tous (Some (FpRootOf c)) fpg).
      apply NoDup_cons in Hnd as [Hg_fl _].
      assert (g ≠ f).
      { intros ->. apply Hf_fl, list_elem_of_here. }
      split.
      { rewrite Hfps1. rewrite decide_False by done.
        rewrite decide_True by done. by rewrite Hg. }
      do 2 (split; [done|]). simpl.
      apply (entries_ext us); [|done].
      intros x Hx. rewrite Hfps1.
      rewrite decide_False.
      2:{ intros ->. apply Hf_fl. by apply list_elem_of_further. }
      rewrite decide_False.
      2:{ rewrite Hn. intros [= ->]. done. }
      by destruct (fingerprints us !! x). }
    destruct (IH us1 ctx1 Hc1 Hst Hent1) as
      (us' & Hloop & Hctx' & Hfps' & Hroot' & Hfreed').
    exists us'. split.
    { intros [|fuel] Hf; [simpl in Hf; lia|]. simpl. rewrite Hctx. simpl.
      rewrite Hhd. rewrite Hstep by (simpl in Hf; lia). simpl.
      apply Hloop. simpl in Hf. lia. }
    split.
    { rewrite Hctx', Hctx1. by rewrite insert_insert_eq. }
    split; [|split; congruence].
    intros x. rewrite Hfps', Hfps1.
    destruct (decide (x = f)) as [->|Hx].
    + rewrite (decide_True (P := f ∈ f :: fl)) by apply list_elem_of_here.
      by destruct (decide (f ∈ fl)).
    + destruct (decide (x ∈ fl)) as [Hin|Hnin].
      * rewrite decide_True; [done|]. by apply list_elem_of_further.
      * rewrite (decide_False (P := x ∈ f :: fl)).
        2:{ intros [->|?]%elem_of_cons; done. }
        rewrite decide_False.
        2:{ intros Hn. apply Hnin. destruct fl as [|g fl];
              simpl in Hrest; [congruence|].
            destruct Hrest as [Hn' _]. rewrite Hn' in Hn.
            injection Hn as ->. apply list_elem_of_here. }
        by destruct (fingerprints us !! x).
Qed.

Lemma force_disconnect_Some us c ctx :
  contexts us !! c = Some ctx →
  ∃ ctx1,
    otrl_context_force_disconnect c us
    = Some (with_contexts (<[c := ctx1]> (contexts us)) us)
    ∧ state ctx1 = CONN_UNCONNECTED
    ∧ next ctx1 = next ctx
    ∧ tous ctx1 = tous ctx
    ∧ fingerprint_root ctx1 = fingerprint_root ctx
    ∧ app_data ctx1 = app_data ctx
    ∧ app_data_free ctx1 = app_data_free ctx.
Proof.
  intros Hctx. unfold otrl_context_force_disconnect, otrl_context_force_setup.
  rewrite (update_ctx_Some _ _ _ _ Hctx). simpl.
  erewrite update_ctx_Some; [|simpl; apply lookup_insert_eq]. simpl.
  rewrite insert_insert_eq. eexists. split; [reflexivity|]. done.
Qed.

Lemma linked_chain us : ∀ l s p, linked us s p l → chain (ctx_next us) p l.
Proof.
  induction l as [|a l IH]; intros s p; simpl; [done|].
  intros [-> (ctx & Hctx & Ht & Hfl & Hrest)]. split; [done|].
  exists (next ctx). split; [|by eapply IH].
  unfold ctx_next. by rewrite Hctx.
Qed.

Lemma linked_ext us us' :
  ∀ l s p,
    (∀ a ctx, a ∈ l → contexts us !! a = Some ctx →
              ∃ ctx', contexts us' !! a = Some ctx'
                      ∧ next ctx' = next ctx
                      ∧ tous ctx' = tous ctx
                      ∧ fp_next (fingerprint_root ctx')
                        = fp_next (fingerprint_root ctx)) →
    (∀ x fp, fingerprints us !! x = Some fp → fp_context fp ∈ l →
             fingerprints us' !! x = Some fp) →
    linked us s p l → linked us' s p l.
Proof.
  induction l as [|a l IH]; intros s p Hctxs Hfps; simpl; [done|].
  intros [-> (ctx & Hctx & Ht & [fl Hfl] & Hrest)]. split; [done|].
  destruct (Hctxs a ctx (list_elem_of_here _ _) Hctx)
    as (ctx' & Hctx' & Hn' & Ht' & Hr').
  exists ctx'. split; [done|]. split; [congruence|]. split.
  - exists fl. rewrite Hr'. apply (entries_ext us); [|done].
    intros x Hx. destruct (entries_owner _ _ _ _ _ _ Hfl Hx) as (fp & Hfp & Hc).
    rewrite Hfp. apply Hfps; [done|]. rewrite Hc. apply list_elem_of_here.
  - rewrite Hn'. apply IH; [| |done].
    + intros b cb Hb. apply Hctxs. by apply list_elem_of_further.
    + intros x fp Hfp Hin. apply Hfps; [done|]. by apply list_elem_of_further.
Qed.

Lemma forget_head us c l ctx :
  linked_registry us (c :: l) →
  contexts us !! c = Some ctx →
  state ctx = CONN_UNCONNECTED →
  ∃ fuel0, ∀ fuel, fuel0 ≤ fuel →
    ∃ us',
      otrl_context_forget fuel c us = Some us'
      ∧ linked_registry us' l
      ∧ (∀ a, contexts us' !! a
              = if decide (a = c) then None
                else (if decide (next ctx = Some a)
                      then set_tous (Some RootSlot) else id)
                     <$> contexts us !! a)
      ∧ (∀ x, fingerprints us !! x = None → fingerprints us' !! x = None).
Proof.
  intros Hl Hctx Hst.
  pose proof (chain_NoDup _ _ _ (linked_chain _ _ _ _ Hl)) as Hnd.
  apply NoDup_cons in Hnd as [Hc_l Hnd].
  destruct Hl as [Hroot (ctx' & Hctx' & Htous & [fl Hfl] & Hrest)].
  rewrite Hctx in Hctx'. injection Hctx' as <-.
  exists (length fl + 2). intros [|fuel] Hfuel; [lia|].
  simpl. rewrite Hctx. simpl.
  rewrite (bool_decide_eq_false_2 (state ctx ≠ CONN_UNCONNECTED))
    by (intros ?; done).
  (* otrl_context_force_disconnect(context) *)
  destruct (force_disconnect_Some us c ctx Hctx)
    as (ctx1 & -> & Hst1 & Hn1 & Ht1 & Hr1 & Had1 & Hadf1).
  simpl.
  set (us1 := with_contexts (<[c := ctx1]> (contexts us)) us).
  assert (contexts us1 !! c = Some ctx1) as Hc1 by apply lookup_insert_eq.
  (* the fingerprints go *)
  destruct (forget_fingerprints_spec c fl us1 ctx1 Hc1)
    as (us2 & Hloop & Hctx2 & Hfps2 & Hroot2 & Hfreed2).
  { by rewrite Hst1. }
  { rewrite Hr1. by apply (entries_ext us). }
  rewrite Hloop by lia. simpl.
  set (ctx2 := set_fingerprint_root
                 (set_fp_next None (fingerprint_root ctx1)) ctx1) in *.
  assert (contexts us2 !! c = Some ctx2) as Hc2.
  { rewrite Hctx2. apply lookup_insert_eq. }
  (* the identity strings go *)
  rewrite (update_ctx_Some _ _ _ _ Hc2). simpl.
  rewrite lookup_insert_eq. simpl.
  set (ctx3 := set_identity None None None ctx2).
  set (us3 := with_contexts (<[c := ctx3]> (contexts us2)) us2).
  (* the application data goes *)
  destruct (match app_data ctx1 with
            | Some d =>
                match app_data_free ctx1 with
                | Some fr =>
                    update_ctx c (set_app_data None (Some fr))
                      (with_freed (app_data_freed us2 ++ [(fr, d)]) us3)
                | None => Some us3
                end
            | None => Some us3
            end) as [us4|] eqn:E4; cycle 1.
  { destruct (app_data ctx1); [|done]. destruct (app_data_free ctx1); [|done].
    apply update_ctx_None in E4. simpl in E4.
    by rewrite lookup_insert_eq in E4. }
  assert (∃ ctx4, contexts us4 = <[c := ctx4]> (contexts us3)
                  ∧ next ctx4 = next ctx ∧ tous ctx4 = tous ctx
                  ∧ context_root us4 = context_root us
                  ∧ fingerprints us4 = fingerprints us2)
    as (ctx4 & Hctx4 & Hn4 & Ht4 & Hroot4 & Hfps4).
  { destruct (app_data ctx1) as [d|].
    - destruct (app_data_free ctx1) as [fr|].
      + apply update_ctx_inv in E4 as (cx & Hcx & ->). simpl in *.
        rewrite lookup_insert_eq in Hcx. injection Hcx as <-.
        eexists. split; [reflexivity|]. simpl.
        split; [done|]. split; [done|]. split; [|done].
        by rewrite Hroot2.
      + injection E4 as <-. exists ctx3. simpl.
        rewrite insert_insert_eq. split; [done|].
        split; [done|]. split; [done|]. split; [|done]. by rewrite Hroot2.
    - injection E4 as <-. exists ctx3. simpl.
      rewrite insert_insert_eq. split; [done|].
      split; [done|]. split; [done|]. split; [|done]. by rewrite Hroot2. }
  clear E4.
  assert (contexts us4 !! c = Some ctx4) as Hc4.
  { rewrite Hctx4. apply lookup_insert_eq. }
  simpl. rewrite Hc4. simpl. rewrite Ht4, Htous. simpl.
  unfold store_slot. simpl. rewrite Hc4. simpl. rewrite Hn4.
  assert (∀ a, a ≠ c → contexts us4 !! a = contexts us !! a) as Hsame4.
  { intros a Ha. rewrite Hctx4. rewrite lookup_insert_ne by done.
    simpl. rewrite lookup_insert_ne by done. rewrite Hctx2.
    rewrite lookup_insert_ne by done. simpl. by rewrite lookup_insert_ne. }
  assert (∀ x, fingerprints us4 !! x
               = if decide (x ∈ fl) then None else fingerprints us !! x)
    as Hfp4.
  { intros x. by rewrite Hfps4, Hfps2. }
  assert (∀ x fp a, fingerprints us !! x = Some fp → fp_context fp = a →
                    a ≠ c → fingerprints us4 !! x = Some fp) as Hfpo.
  { intros x fp a Hx Ha Hac. rewrite Hfp4. rewrite decide_False; [done|].
    intros Hin. destruct (entries_owner _ _ _ _ _ _ Hfl Hin) as (fp' & Hx' & Hc').
    congruence. }
  destruct l as [|n l].
  - (* no successor *)
    simpl in Hrest. rewrite Hrest. simpl. rewrite Hc4. simpl.
    eexists. split; [reflexivity|]. split; [done|]. split.
    + intros a. simpl. rewrite lookup_delete.
      destruct (decide (c = a)) as [->|Ha].
      * by rewrite decide_True.
      * rewrite decide_False by done. rewrite Hsame4 by done.
        by destruct (contexts us !! a).
    + intros x Hx. simpl. rewrite Hfp4. by destruct (decide _).
  - (* the successor moves into the root slot *)
    destruct Hrest as [Hnext (cn & Hcn & Htn & [fln Hfln] & Hrest)].
    assert (n ≠ c) as Hnc.
    { intros ->. apply Hc_l, list_elem_of_here. }
    apply NoDup_cons in Hnd as [Hn_l _].
    rewrite Hnext. simpl. rewrite Ht4, Htous.
    erewrite update_ctx_Some; [|simpl; rewrite Hsame4 by done; exact Hcn].
    simpl. rewrite lookup_insert_ne by done. rewrite Hc4. simpl.
    eexists. split; [reflexivity|]. split; [|split].
    + split; [done|]. exists (set_tous (Some RootSlot) cn). simpl.
      split.
      { rewrite lookup_delete_ne by done. apply lookup_insert_eq. }
      split; [done|]. split.
      { exists fln. apply (entries_ext us); [|done]. intros x Hx. simpl.
        destruct (entries_owner _ _ _ _ _ _ Hfln Hx) as (fp & Hfp & Hcx).
        rewrite Hfp. by eapply Hfpo. }
      apply (linked_ext us); [| |done].
      * intros a ca Ha Hca. exists ca. simpl.
        assert (a ≠ c).
        { intros ->. apply Hc_l. by apply list_elem_of_further. }
        assert (a ≠ n) by (intros ->; done).
        rewrite lookup_delete_ne by done.
        rewrite lookup_insert_ne by done. by rewrite Hsame4.
      * intros x fp Hx Hin. simpl. eapply Hfpo; [done..|].
        intros Heq. apply Hc_l. rewrite <- Heq.
        by apply list_elem_of_further.
    + intros a. simpl. rewrite lookup_delete.
      destruct (decide (c = a)) as [->|Ha].
      * by rewrite decide_True.
      * rewrite decide_False by done.
        destruct (decide (Some n = Some a)) as [[= ->]|Hna].
        -- rewrite lookup_insert_eq. by rewrite Hcn.
        -- rewrite lookup_insert_ne by congruence. rewrite Hsame4 by done.
           by destruct (contexts us !! a).
    + intros x Hx. simpl. rewrite Hfp4. by destruct (decide _).
Qed.

(** More fuel does not change a result. *)
Lemma forget_family_mono fuel :
  (∀ fuel' fprint amc us r,
     otrl_context_forget_fingerprint fuel fprint amc us = Some r →
     fuel ≤ fuel' →
     otrl_context_forget_fingerprint fuel' fprint amc us = Some r)
  ∧ (∀ fuel' context us r,
       otrl_context_forget fuel context us = Some r →
       fuel ≤ fuel' →
       otrl_context_forget fuel' context us = Some r)
  ∧ (∀ fuel' context us r,
       forget_fingerprints fuel context us = Some r →
       fuel ≤ fuel' →
       forget_fingerprints fuel' context us = Some r).
Proof.
  induction fuel as [|fuel (IHfp & IHctx & IHloop)]; [done|].
  split; [|split].
  - intros [|fuel'] fprint amc us r H Hle; [lia|]. simpl in H |- *.
    mono_walk.
    + apply IHctx; [done|lia].
    + apply IHctx; [done|lia].
  - intros [|fuel'] context us r H Hle; [lia|]. simpl in H |- *.
    mono_walk.
    match goal with
    | H : (forget_fingerprints fuel ?c ?u ≫= _) = Some _ |- _ =>
        destruct (forget_fingerprints fuel c u) as [us2|] eqn:E2;
        simpl in H; [|done]
    end.
    rewrite (IHloop fuel' _ _ _ E2) by lia. simpl. done.
  - intros [|fuel'] context us r H Hle; [lia|]. simpl in H |- *.
    mono_walk.
    destruct (otrl_context_forget_fingerprint fuel f 0 us) as [us1|] eqn:E1;
      simpl in H; [|done].
    rewrite (IHfp fuel' _ _ _ _ E1) by lia. simpl.
    apply IHloop; [done|lia].
Qed.

Lemma forget_all_mono fuel :
  ∀ fuel' us r,
    otrl_context_forget_all fuel us = Some r →
    fuel ≤ fuel' →
    otrl_context_forget_all fuel' us = Some r.
Proof.
  induction fuel as [|fuel IH]; [done|].
  intros [|fuel'] us r H Hle; [lia|]. simpl in H |- *.
  destruct (context_root us) as [c|]; [|done].
  destruct (otrl_context_force_disconnect c us) as [us1|]; simpl in *; [|done].
  destruct (otrl_context_forget fuel c us1) as [us2|] eqn:E2; simpl in *;
    [|done].
  destruct (forget_family_mono fuel) as (_ & Hm & _).
  rewrite (Hm fuel' _ _ _ E2) by lia. simpl. apply IH; [done|lia].
Qed.

(** On a registry with all its links in place the loop of
    [otrl_context_forget_all] runs to the end. *)
Lemma forget_all_linked us l :
  linked_registry us l →
  ∃ fuel0 us',
    (∀ fuel, fuel0 ≤ fuel → otrl_context_forget_all fuel us = Some us')
    ∧ context_root us' = None
    ∧ (∀ a, a ∈ l → contexts us' !! a = None)
    ∧ (∀ a, contexts us !! a = None → contexts us' !! a = None)
    ∧ (∀ x, fingerprints us !! x = None → fingerprints us' !! x = None).
Proof.
  revert us. induction l as [|c l IH]; intros us Hl.
  - exists 1, us. split; [|split; [done|split; [|done]]].
    + intros [|fuel] Hf; [lia|]. simpl. unfold linked_registry in Hl.
      simpl in Hl. by rewrite Hl.
    + intros a Ha. by apply elem_of_nil in Ha.
  - pose proof Hl as [Hroot (ctx & Hctx & Htous & Hfl & Hrest)].
    destruct (force_disconnect_Some us c ctx Hctx)
      as (ctx1 & Hdis & Hst1 & Hn1 & Ht1 & Hr1 & _).
    set (us1 := with_contexts (<[c := ctx1]> (contexts us)) us) in *.
    assert (linked_registry us1 (c :: l)) as Hl1.
    { unfold linked_registry. apply (linked_ext us); [| |done].
      - intros a ca Ha Hca. simpl. destruct (decide (a = c)) as [->|Hac].
        + rewrite lookup_insert_eq. exists ctx1.
          rewrite Hctx in Hca. injection Hca as <-.
          by rewrite Hn1, Ht1, Hr1.
        + rewrite lookup_insert_ne by done. eauto.
      - done. }
    assert (contexts us1 !! c = Some ctx1) as Hc1 by apply lookup_insert_eq.
    destruct (forget_head us1 c l ctx1 Hl1 Hc1 Hst1) as [fuelc Hhead].
    destruct (Hhead fuelc) as (us2 & Hforget & Hl2 & Hctx2 & Hfps2); [lia|].
    destruct (IH us2 Hl2) as (fuel0 & us' & Hall & Hroot' & Hin' & Hno' & Hfp').
    exists (S (fuelc + fuel0)), us'.
    split; [|split; [done|split; [|split]]].
    + intros [|fuel] Hf; [lia|]. simpl. rewrite Hroot. rewrite Hdis. simpl.
      destruct (forget_family_mono fuelc) as (_ & Hm & _).
      rewrite (Hm fuel _ _ _ Hforget) by lia. simpl. apply Hall. lia.
    + intros a [->|Ha]%elem_of_cons; [|by apply Hin'].
      apply Hno'. rewrite Hctx2. by rewrite decide_True.
    + intros a Ha. apply Hno'. rewrite Hctx2.
      destruct (decide (a = c)) as [->|Hac]; [done|]. simpl.
      rewrite lookup_insert_ne by done. by rewrite Ha.
    + intros x Hx. by apply Hfp', Hfps2.
Qed.

(** C6: on a registry with all its links in place, whatever the states of
    its contexts and however many fingerprints each holds,
    [otrl_context_forget_all] returns for every fuel from some bound on,
    and whenever it returns it is with one and the same store; in that
    store the root is NULL, every context of the list has been released,
    and nothing has been allocated. *)
Theorem forget_all_empties us l :
  linked_registry us l →
  ∃ fuel0 us',
    (∀ fuel, fuel0 ≤ fuel → otrl_context_forget_all fuel us = Some us')
    ∧ (∀ fuel r, otrl_context_forget_all fuel us = Some r → r = us')
    ∧ context_root us' = None
    ∧ (∀ a, a ∈ l → contexts us' !! a = None)
    ∧ (∀ a, contexts us !! a = None → contexts us' !! a = None)
    ∧ (∀ x, fingerprints us !! x = None → fingerprints us' !! x = None).
Proof.
  intros Hl.
  destruct (forget_all_linked us l Hl)
    as (fuel0 & us' & Hrun & Hroot & Hin & Hctx & Hfps).
  exists fuel0, us'. split; [exact Hrun|]. split; [|done].
  intros fuel r Hr.
  apply (forget_all_mono fuel (fuel + fuel0)) in Hr; [|lia].
  rewrite Hrun in Hr by lia. by injection Hr as <-.
Qed.

Lemma linked_sample_mixed :
  linked_registry sample_mixed [1%positive; 2%positive].
Proof.
  split; [reflexivity|].
  exists (set_next (Some 2%positive) sample_connected).
  split; [reflexivity|]. split; [reflexivity|]. split.
  { exists [1%positive]. split; [reflexivity|]. exists sample_entry.
    repeat split; reflexivity. }
  split; [reflexivity|].
  exists (set_tous (Some (NextSlot 1)) (new_context 2 "bob" "me" "xmpp")).
  split; [reflexivity|]. split; [reflexivity|]. split.
  { exists []. reflexivity. }
  reflexivity.
Defined.

Lemma forget_all_empties_witness :
  ∃ fuel0 us',
    (∀ fuel, fuel0 ≤ fuel →
             otrl_context_forget_all fuel sample_mixed = Some us')
    ∧ context_root us' = None.
Proof.
  destruct (forget_all_empties sample_mixed [1%positive; 2%positive]
              linked_sample_mixed) as (fuel0 & us' & Hrun & _ & Hroot & _).
  exists fuel0, us'. split; [exact Hrun|exact Hroot].
Defined.

Example forget_all_sample_mixed :
  otrl_context_forget_all 5 sample_mixed
  = Some {| context_root := None; contexts := ∅; fingerprints := ∅;
            app_data_freed := [(7%positive, 42%Z)] |}.
Proof. vm_compute. reflexivity. Qed.

(** ** Well-formed stores *)

Lemma entries_view_ext us us' c :
  ∀ fl prev p,
    (∀ f fp, f ∈ fl → fingerprints us !! f = Some fp →
             ∃ fp', fingerprints us' !! f = Some fp'
                    ∧ fp_context fp' = fp_context fp
                    ∧ fp_tous fp' = fp_tous fp
                    ∧ fp_next fp' = fp_next fp) →
    entries us c prev p fl → entries us' c prev p fl.
Proof.
  induction fl as [|f fl IH]; intros prev p Hext; simpl; [done|].
  intros [-> (fp & Hfp & Hc & Ht & Hrest)]. split; [done|].
  destruct (Hext f fp (list_elem_of_here _ _) Hfp) as (fp' & Hfp' & Hc' & Ht' & Hn').
  exists fp'. split; [done|]. split; [congruence|]. split; [congruence|].
  rewrite Hn'. apply IH; [|done].
  intros g fpg Hg. apply Hext. by apply list_elem_of_further.
Qed.

Lemma linked_pointwise us us' :
  ∀ l s p,
    (∀ a ctx fl, a ∈ l → contexts us !! a = Some ctx →
       entries us a (FpRootOf a) (fp_next (fingerprint_root ctx)) fl →
       ∃ ctx' fl',
         contexts us' !! a = Some ctx'
         ∧ next ctx' = next ctx
         ∧ tous ctx' = tous ctx
         ∧ entries us' a (FpRootOf a) (fp_next (fingerprint_root ctx')) fl') →
    linked us s p l → linked us' s p l.
Proof.
  induction l as [|a l IH]; intros s p Hpt; simpl; [done|].
  intros [-> (ctx & Hctx & Ht & [fl Hfl] & Hrest)]. split; [done|].
  destruct (Hpt a ctx fl (list_elem_of_here _ _) Hctx Hfl)
    as (ctx' & fl' & Hctx' & Hn' & Ht' & Hfl').
  exists ctx'. split; [done|]. split; [congruence|]. split; [eauto|].
  rewrite Hn'. apply IH; [|done].
  intros b cb flb Hb. apply Hpt. by apply list_elem_of_further.
Qed.

Lemma registry_ext us us' reg :
  context_root us' = context_root us →
  (∀ a, a ∈ reg.*1 →
        ctx_next us' a = ctx_next us a ∧ key_at us' a = key_at us a) →
  registry us reg → registry us' reg.
Proof.
  intros Hroot Hext [Hc Hk]. split.
  - unfold context_list in *. rewrite Hroot.
    apply (chain_ext (ctx_next us)); [|done]. intros a Ha. by apply Hext.
  - rewrite Forall_forall in *. intros [b k] Hbk. simpl.
    destruct (Hext b) as [_ ->]; [|by apply (Hk (b, k))].
    apply list_elem_of_fmap. by exists (b, k).
Qed.

(** A context of a linked registry owns its entries. *)
Lemma linked_lookup us : ∀ l s p a,
  linked us s p l → a ∈ l →
  ∃ ctx fl, contexts us !! a = Some ctx
            ∧ entries us a (FpRootOf a) (fp_next (fingerprint_root ctx)) fl.
Proof.
  induction l as [|b l IH]; intros s p a Hl Hin.
  - by apply elem_of_nil in Hin.
  - destruct Hl as [-> (ctx & Hctx & Ht & [fl Hfl] & Hrest)].
    apply elem_of_cons in Hin as [->|Hin]; eauto.
Qed.

(** Assignments that keep the links keep the store well-formed. *)
Lemma well_formed_update us us' c f :
  keeps_links f → update_ctx c f us = Some us' →
  well_formed us → well_formed us'.
Proof.
  intros Hf Hup (reg & Hreg & Hs & Hl & Hdom).
  apply update_ctx_inv in Hup as (ctx & Hctx & ->).
  destruct (Hf ctx) as (Hn & Ht & Hr & Hk).
  exists reg. split; [|split; [done|split]].
  - apply (registry_ext us); [done| |done]. intros a _.
    unfold ctx_next, key_at. simpl.
    destruct (decide (a = c)) as [->|Hac].
    + rewrite lookup_insert_eq, Hctx. simpl. by rewrite Hn, Hk.
    + by rewrite lookup_insert_ne.
  - unfold linked_registry in *. apply (linked_pointwise us); [|done].
    intros a ca fl _ Hca Hfl. simpl.
    destruct (decide (a = c)) as [->|Hac].
    + rewrite lookup_insert_eq. rewrite Hctx in Hca. injection Hca as <-.
      exists (f ctx), fl. rewrite Hr. do 3 (split; [done|]).
      by apply (entries_ext us).
    + rewrite lookup_insert_ne by done. exists ca, fl.
      do 3 (split; [done|]). by apply (entries_ext us).
  - intros a [ca Hca]. apply Hdom. simpl in Hca.
    destruct (decide (a = c)) as [->|Hac]; [eauto|].
    rewrite lookup_insert_ne in Hca by done. eauto.
Qed.

Lemma well_formed_update_fp us us' f g :
  (∀ fp, fp_context (g fp) = fp_context fp
         ∧ fp_tous (g fp) = fp_tous fp
         ∧ fp_next (g fp) = fp_next fp) →
  update_fp (FpNode f) g us = Some us' →
  well_formed us → well_formed us'.
Proof.
  intros Hg Hup (reg & Hreg & Hs & Hl & Hdom).
  unfold update_fp in Hup. bind_inv Hup as fp Hfp. injection Hup as <-.
  exists reg. split; [done|]. split; [done|]. split; [|done].
  unfold linked_registry in *. apply (linked_pointwise us); [|done].
  intros a ca fl _ Hca Hfl. exists ca, fl. split; [done|].
  split; [done|]. split; [done|].
  apply (entries_view_ext us); [|done]. intros x fpx _ Hx. simpl.
  destruct (decide (x = f)) as [->|Hxf].
  - rewrite lookup_insert_eq. rewrite Hfp in Hx. injection Hx as <-.
    exists (g fp). destruct (Hg fp) as (? & ? & ?). done.
  - rewrite lookup_insert_ne by done. eauto.
Qed.

Lemma linked_insert us us' new N curp (l2 : list positive) :
  (∀ b, contexts us' !! b
        = if decide (b = new) then Some N
          else (λ c, (if decide (curp = NextSlot b)
                      then set_next (Some new) else id)
                       ((if decide (head l2 = Some b)
                         then set_tous (Some (NextSlot new)) else id) c))
               <$> contexts us !! b) →
  fingerprints us' = fingerprints us →
  next N = head l2 →
  tous N = Some curp →
  fp_next (fingerprint_root N) = None →
  ∀ l1 s q,
    curp = slot_after s l1 →
    linked us s q (l1 ++ l2) →
    new ∉ l1 ++ l2 →
    NoDup (l1 ++ l2) →
    (∀ b, b ∈ l1 ++ l2 → s ≠ NextSlot b) →
    linked us' s (match l1 with [] => Some new | _ => q end)
      (l1 ++ new :: l2).
Proof.
  intros Hdesc Hfps HN_next HN_tous HN_root.
  assert (∀ b cb fl,
            contexts us !! b = Some cb →
            entries us b (FpRootOf b) (fp_next (fingerprint_root cb)) fl →
            b ≠ new →
            ∃ cb', contexts us' !! b = Some cb'
                   ∧ fp_next (fingerprint_root cb')
                     = fp_next (fingerprint_root cb)
                   ∧ entries us' b (FpRootOf b)
                       (fp_next (fingerprint_root cb')) fl
                   ∧ next cb' = (if decide (curp = NextSlot b)
                                 then Some new else next cb)
                   ∧ tous cb' = (if decide (head l2 = Some b)
                                 then Some (NextSlot new) else tous cb))
    as Hold.
  { intros b cb fl Hcb Hfl Hb. rewrite Hdesc, decide_False, Hcb by done.
    simpl. eexists. split; [done|].
    split; [by goal_decide|]. split; [|split; by goal_decide].
    replace (fp_next (fingerprint_root _))
      with (fp_next (fingerprint_root cb)) by by goal_decide.
    apply (entries_ext us); [|done]. intros. by rewrite Hfps. }
  induction l1 as [|a l1 IH]; intros s q Hcurp Hl Hnew Hnd Hs.
  - change (slot_after s []) with s in Hcurp.
    simpl in *. subst curp. split; [done|]. exists N.
    split; [by rewrite Hdesc, decide_True|]. split; [done|].
    split; [exists []; by rewrite HN_root|]. rewrite HN_next.
    destruct l2 as [|c l2]; simpl in *; [done|].
    destruct Hl as [-> (cc & Hcc & Ht & [fl Hfl] & Hrest)].
    split; [done|].
    destruct (Hold c cc fl Hcc Hfl) as (cc' & Hcc' & Hr' & Hfl' & Hn' & Ht').
    { intros ->. apply Hnew, list_elem_of_here. }
    exists cc'. split; [done|].
    rewrite decide_False in Hn'
      by (apply Hs, list_elem_of_here).
    rewrite decide_True in Ht' by done.
    split; [done|]. split; [eauto|]. rewrite Hn'.
    apply NoDup_cons in Hnd as [Hc_l2 Hnd].
    apply (linked_pointwise us); [|done].
    intros b cb flb Hb Hcb Hflb.
    destruct (Hold b cb flb Hcb Hflb) as (cb' & Hcb' & _ & Hflb' & Hnb & Htb).
    { intros ->. apply Hnew. by apply list_elem_of_further. }
    rewrite decide_False in Hnb
      by (apply Hs; by apply list_elem_of_further).
    rewrite decide_False in Htb by (intros [= ->]; done).
    exists cb', flb. done.
  - change ((a :: l1) ++ l2) with (a :: (l1 ++ l2)) in *.
    change ((a :: l1) ++ new :: l2) with (a :: (l1 ++ new :: l2)).
    rewrite slot_after_cons in Hcurp.
    destruct Hl as [-> (ca & Hca & Ht & [fl Hfl] & Hrest)].
    apply NoDup_cons in Hnd as [Ha_l Hnd].
    split; [done|].
    destruct (Hold a ca fl Hca Hfl) as (ca' & Hca' & Hr' & Hfl' & Hn' & Ht').
    { intros ->. apply Hnew, list_elem_of_here. }
    exists ca'. split; [done|].
    assert (head l2 ≠ Some a) as Hhd.
    { intros Hh. apply Ha_l, elem_of_app. right.
      destruct l2; [done|]. injection Hh as ->. apply list_elem_of_here. }
    split; [by rewrite Ht', decide_False|].
    split; [eauto|].
    assert (linked us' (NextSlot a)
              (match l1 with [] => Some new | _ => next ca end)
              (l1 ++ new :: l2)) as Hrec.
    { apply IH; [done|done| |done|].
      - intros Hin. apply Hnew. by apply list_elem_of_further.
      - intros b Hb [= ->]. done. }
    destruct l1 as [|a' l1].
    + rewrite Hn'. rewrite decide_True; [done|]. by rewrite Hcurp.
    + rewrite Hn'. rewrite decide_False; [done|].
      rewrite Hcurp. unfold slot_after.
      destruct (last (a' :: l1)) as [z|] eqn:El;
        [|by apply last_None in El].
      intros [= ->]. apply Ha_l, elem_of_app. left.
      by apply last_Some_elem_of.
Qed.

Lemma created_context_tous us u a p curp cur cb data :
  tous (created_context us u a p curp cur cb data) = Some curp.
Proof.
  unfold created_context. destruct cb as [f|]; [|done]. by destruct (f _ _).
Qed.

Lemma created_context_root us u a p curp cur cb data :
  fp_next (fingerprint_root (created_context us u a p curp cur cb data))
  = None.
Proof.
  unfold created_context. destruct cb as [f|]; [|done]. by destruct (f _ _).
Qed.

Lemma well_formed_find fuel us user acct proto add addedp cb data r ad us' :
  well_formed us →
  otrl_context_find fuel us user acct proto add addedp cb data
  = Some (r, ad, us') →
  well_formed us'.
Proof.
  intros Hwf H. pose proof Hwf as (reg & Hreg & Hs & Hl & Hdom).
  destruct user as [u|], acct as [a|], proto as [p|];
    try (unfold otrl_context_find in H; by injection H as <- <- <-).
  apply (find_mono _ (fuel + S (length reg))) in H; [|lia].
  destruct (find_spec us reg (fuel + S (length reg)) u a p add addedp cb
              data Hreg Hs)
    as (r' & flag & us1 & reg' & Hfind & Hreg' & Hs' & Hcase); [lia|].
  rewrite Hfind in H. injection H as <- <- <-.
  destruct Hcase as [(_ & _ & _ & -> & _)|[(_ & _ & _ & -> & _)|Hcase]];
    [done..|].
  destruct Hcase as (_ & _ & _ & _ & Hfps & l1 & l2 & -> & -> & Hctx & Hroot).
  set (new := malloc_context us) in *.
  assert (new ∉ (l1 ++ l2).*1) as Hnew.
  { intros Hin. by apply (registry_not_fresh us (l1 ++ l2) new Hreg Hin). }
  exists (l1 ++ (new, (u, a, p)) :: l2).
  split; [done|]. split; [done|]. split.
  - unfold linked_registry in *. rewrite fmap_app in *. rewrite fmap_cons.
    simpl.
    replace (context_root us1) with
      (match l1.*1 with [] => Some new | _ => context_root us end).
    2:{ rewrite Hroot. destruct l1; [done|].
        rewrite decide_False; [done|]. by rewrite slot_after_root. }
    eapply (linked_insert us us1 new _ (slot_after RootSlot l1.*1));
      [exact Hctx|done|apply created_context_next|apply created_context_tous
      |apply created_context_root|done|done|done| |done].
    destruct Hreg as [Hc _]. unfold context_list in Hc.
    rewrite fmap_app in Hc. by apply chain_NoDup in Hc.
  - intros b [cb' Hb]. rewrite Hctx in Hb. rewrite fmap_app, fmap_cons.
    simpl. destruct (decide (b = new)) as [->|Hbn].
    + apply elem_of_app. right. apply list_elem_of_here.
    + destruct (contexts us !! b) as [cb0|] eqn:Eb; [|done].
      assert (b ∈ (l1 ++ l2).*1) as Hin by (apply Hdom; eauto).
      rewrite fmap_app in Hin. apply elem_of_app in Hin as [Hin|Hin].
      * apply elem_of_app. by left.
      * apply elem_of_app. right. by apply list_elem_of_further.
Qed.

Lemma entries_retarget us us' c prev prev' p fl :
  entries us c prev p fl →
  (∀ x, x ∈ fl →
        fingerprints us' !! x
        = (if decide (p = Some (FpNode x))
           then set_fp_tous (Some prev') else id) <$> fingerprints us !! x) →
  entries us' c prev' p fl.
Proof.
  intros Hent Hdesc. pose proof (entries_NoDup _ _ _ _ _ Hent) as Hnd.
  destruct fl as [|g fl]; [done|].
  destruct Hent as [-> (fpg & Hg & Hc & Ht & Hrest)].
  apply NoDup_cons in Hnd as [Hg_fl _].
  split; [done|]. exists (set_fp_tous (Some prev') fpg). split.
  { rewrite Hdesc by apply list_elem_of_here.
    rewrite decide_True by done. by rewrite Hg. }
  do 2 (split; [done|]). simpl. apply (entries_ext us); [|done].
  intros x Hx. rewrite Hdesc by by apply list_elem_of_further.
  rewrite decide_False; [by destruct (fingerprints us !! x)|].
  intros [= ->]. done.
Qed.

Lemma well_formed_find_fingerprint fuel us c bytes add addedp r ad us' :
  well_formed us →
  otrl_context_find_fingerprint fuel us c bytes add addedp
  = Some (r, ad, us') →
  well_formed us'.
Proof.
  intros Hwf H0. pose proof Hwf as (reg & Hreg & Hs & Hl & Hdom).
  pose proof H0 as H. unfold otrl_context_find_fingerprint in H.
  bind_inv H as ctx Hctx. bind_inv H as found Hscan.
  destruct found as [p|]; [by injection H as <- <- <-|].
  destruct (Z.eqb_spec add 0) as [|Hadd]; [by injection H as <- <- <-|].
  simpl in H. bind_inv H as buf Hbuf. clear H.
  assert (20 ≤ length bytes) as Hlen.
  { unfold memmove in Hbuf. by case_decide. }
  assert (c ∈ reg.*1) as Hc by (apply Hdom; eauto).
  destruct (linked_lookup _ _ _ _ _ Hl Hc) as (ctx' & fl & Hctx' & Hfl).
  rewrite Hctx in Hctx'. injection Hctx' as <-.
  destruct (find_fingerprint_create_effect fuel us c ctx bytes add addedp
              Hctx Hscan Hadd Hlen)
    as (us1 & Hfind & Hfps & Hctxs & Hroot & _).
  { intros n Hn. rewrite Hn in Hfl. destruct fl as [|g fl]; [done|].
    destruct Hfl as [[= ->] (fpg & Hg & _)]. eauto. }
  rewrite Hfind in H0. injection H0 as <- <- <-.
  pose proof (malloc_fingerprint_fresh us) as Hfresh.
  set (f := malloc_fingerprint us) in *.
  set (hd := fp_next (fingerprint_root ctx)) in *.
  exists reg. split; [|split; [done|split]].
  - apply (registry_ext us); [done| |done]. intros a _.
    unfold ctx_next, key_at. rewrite Hctxs.
    destruct (decide (a = c)) as [->|Hac].
    + rewrite lookup_insert_eq, Hctx. done.
    + by rewrite lookup_insert_ne.
  - unfold linked_registry in *. rewrite Hroot.
    apply (linked_pointwise us); [|done].
    intros a ca fla Ha Hca Hfla. rewrite Hctxs.
    destruct (decide (a = c)) as [->|Hac].
    + rewrite lookup_insert_eq. rewrite Hctx in Hca. injection Hca as <-.
      eexists _, (f :: fl). split; [done|]. split; [done|]. split; [done|].
      simpl. split; [done|]. exists (created_entry c bytes hd).
      split; [by rewrite Hfps, decide_True|]. do 2 (split; [done|]). simpl.
      apply (entries_retarget us _ _ (FpRootOf c)); [done|].
      intros x Hx. rewrite Hfps. rewrite decide_False; [done|].
      intros ->. destruct (entries_owner _ _ _ _ _ _ Hfl Hx) as (? & ? & _).
      congruence.
    + rewrite lookup_insert_ne by done. exists ca, fla.
      do 3 (split; [done|]). apply (entries_ext us); [|done].
      intros x Hx. rewrite Hfps.
      destruct (entries_owner _ _ _ _ _ _ Hfla Hx) as (fpx & Hfpx & Hox).
      rewrite decide_False by congruence.
      rewrite decide_False; [by rewrite Hfpx|].
      intros Hhd. fold hd in Hfl. rewrite Hhd in Hfl.
      destruct fl as [|g fl]; [done|].
      destruct Hfl as [[= <-] (fpg & Hg & Hog & _)]. congruence.
  - intros a [ca Hca]. apply Hdom. rewrite Hctxs in Hca.
    destruct (decide (a = c)) as [->|Hac]; [eauto|].
    rewrite lookup_insert_ne in Hca by done. eauto.
Qed.

Lemma well_formed_empty : well_formed empty_userstate.
Proof.
  exists []. split; [|split; [constructor|split; [done|]]].
  - split; [done|constructor].
  - intros a [c Hc]. done.
Qed.

Lemma well_formed_call c us us' :
  builds c → run_call c us = Some us' → well_formed us → well_formed us'.
Proof.
  intros Hb Hrun Hwf. destruct c; simpl in Hrun; try done.
  - apply fmap_Some in Hrun as ([[r ad] us1] & Hrun & ->).
    by eapply well_formed_find.
  - apply fmap_Some in Hrun as ([[r ad] us1] & Hrun & ->).
    by eapply well_formed_find_fingerprint.
  - destruct fprint as [[c|f]|]; [| |by injection Hrun as <-].
    + eapply well_formed_update; [|exact Hrun|done]. by intros ctx.
    + eapply well_formed_update_fp; [|exact Hrun|done]. by intros fp.
  - unfold otrl_context_set_preshared_secret in Hrun.
    bind_inv Hrun as us1 E1.
    eapply well_formed_update in E1; [| |done]; [|by intros ctx].
    destruct (secret_len =? 0)%N; [by injection Hrun as <-|].
    destruct malloc_ok; [|by injection Hrun as <-].
    bind_inv Hrun as src Hsrc. bind_inv Hrun as buf Hbuf.
    eapply well_formed_update; [|exact Hrun|done]. by intros ctx.
  - eapply well_formed_update; [|exact Hrun|done]. by intros ctx.
  - unfold otrl_context_force_disconnect in Hrun. bind_inv Hrun as us1 E1.
    eapply well_formed_update in E1; [| |done]; [|by intros ctx].
    eapply well_formed_update; [|exact Hrun|done]. by intros ctx.
Qed.

Lemma built_well_formed us : built us → well_formed us.
Proof.
  induction 1 as [|us c us' _ IH Hb Hrun|us c f us' _ IH Hf Hup].
  - apply well_formed_empty.
  - by eapply well_formed_call.
  - by eapply well_formed_update.
Qed.

(** Every store built up by the operations and the driver is emptied by
    [otrl_context_forget_all]. *)
Corollary forget_all_empties_built us :
  built us →
  ∃ fuel0 us',
    (∀ fuel, fuel0 ≤ fuel → otrl_context_forget_all fuel us = Some us')
    ∧ context_root us' = None
    ∧ contexts us' = ∅.
Proof.
  intros (reg & _ & _ & Hl & Hdom)%built_well_formed.
  destruct (forget_all_linked us reg.*1 Hl)
    as (fuel0 & us' & Hrun & Hroot & Hin & Hno & _).
  exists fuel0, us'. split; [done|]. split; [done|].
  apply map_eq. intros a. rewrite lookup_empty.
  destruct (contexts us !! a) as [c|] eqn:Ea; [|by apply Hno].
  apply Hin, Hdom. eauto.
Qed.

(** ** Taking one object out of a list *)

Lemma entry_before_cons prev g fl :
  entry_before prev (g :: fl) = entry_before (FpNode g) fl.
Proof.
  unfold entry_before. destruct fl as [|h fl]; [done|].
  rewrite last_cons_cons.
  by destruct (last (h :: fl)) eqn:E; [|apply last_None in E].
Qed.

Lemma entries_middle us c : ∀ fl1 prev p f fl2,
  entries us c prev p (fl1 ++ f :: fl2) →
  ∃ fp, fingerprints us !! f = Some fp
        ∧ fp_context fp = c
        ∧ fp_tous fp = Some (entry_before prev fl1)
        ∧ fp_next fp = FpNode <$> head fl2
        ∧ entries us c (FpNode f) (fp_next fp) fl2.
Proof.
  induction fl1 as [|a fl1 IH]; intros prev p f fl2 H.
  - destruct H as [-> (fp & Hfp & Hc & Ht & Hrest)]. exists fp.
    do 3 (split; [done|]). split; [|done].
    destruct fl2 as [|g fl2]; [done|]. by destruct Hrest as [-> _].
  - destruct H as [-> (fpa & Hfpa & Hc & Ht & Hrest)].
    rewrite entry_before_cons. by eapply IH.
Qed.

(** The entry [f] of a fingerprint chain unlinked and released: what is
    left of the chain. *)
Lemma entries_delete us us1 c f fp pf :
  fingerprints us !! f = Some fp →
  fp_tous fp = Some pf →
  (∀ x, x ≠ f →
        fingerprints us1 !! x
        = (λ e, (if decide (fp_next fp = Some (FpNode x))
                 then set_fp_tous (Some pf) else id)
                  ((if decide (pf = FpNode x)
                    then set_fp_next (fp_next fp) else id) e))
          <$> fingerprints us !! x) →
  ∀ fl1 prev p fl2,
    entries us c prev p (fl1 ++ f :: fl2) →
    NoDup (fl1 ++ f :: fl2) →
    (∀ x, x ∈ fl1 ++ f :: fl2 → prev ≠ FpNode x) →
    entries us1 c prev (match fl1 with [] => fp_next fp | _ => p end)
      (fl1 ++ fl2).
Proof.
  intros Hfp Hpf Hdesc.
  induction fl1 as [|a fl1 IH]; intros prev p fl2 Hent Hnd Hprev.
  - simpl in *. destruct Hent as [-> (fp' & Hfp' & Hc & Ht & Hrest)].
    rewrite Hfp in Hfp'. injection Hfp' as <-.
    rewrite Hpf in Ht. injection Ht as ->.
    apply NoDup_cons in Hnd as [Hf_fl2 Hnd].
    apply (entries_retarget us _ _ (FpNode f)); [done|].
    intros x Hx. rewrite Hdesc by (intros ->; done).
    rewrite (decide_False (P := prev = FpNode x)).
    2:{ apply Hprev. by apply list_elem_of_further. }
    done.
  - change ((a :: fl1) ++ f :: fl2) with (a :: (fl1 ++ f :: fl2)) in *.
    change ((a :: fl1) ++ fl2) with (a :: (fl1 ++ fl2)).
    pose proof (entries_middle _ _ (a :: fl1) _ _ _ _ Hent)
      as (fp' & Hfp' & _ & Ht' & Hn' & _).
    rewrite Hfp in Hfp'. injection Hfp' as <-.
    rewrite Hpf in Ht'. injection Ht' as Hpf'.
    rewrite entry_before_cons in Hpf'.
    destruct Hent as [-> (fpa & Hfpa & Hc & Ht & Hrest)].
    apply NoDup_cons in Hnd as [Ha_fl Hnd].
    assert (a ≠ f) as Haf.
    { intros ->. apply Ha_fl, elem_of_app. right. apply list_elem_of_here. }
    split; [done|]. eexists. split.
    { rewrite Hdesc by done. rewrite Hfpa. simpl. reflexivity. }
    assert (fp_next fp ≠ Some (FpNode a)) as Hna.
    { rewrite Hn'. destruct fl2 as [|g fl2]; [done|]. simpl. intros [= ->].
      apply Ha_fl, elem_of_app. right. apply list_elem_of_further,
        list_elem_of_here. }
    rewrite (decide_False (P := fp_next fp = Some (FpNode a))) by done.
    split; [by goal_decide|]. split; [by goal_decide|].
    assert (entries us1 c (FpNode a)
              (match fl1 with [] => fp_next fp | _ => fp_next fpa end)
              (fl1 ++ fl2)) as Hrec.
    { apply IH; [done|done|]. intros x Hx [= ->]. done. }
    destruct fl1 as [|b fl1].
    + rewrite decide_True by done. done.
    + rewrite decide_False; [done|]. rewrite Hpf'. unfold entry_before.
      destruct (last (b :: fl1)) as [z|] eqn:El; [|by apply last_None in El].
      intros [= ->]. apply Ha_fl, elem_of_app. left.
      by apply last_Some_elem_of.
Qed.

(** ** What the forgetting operations do, step by step *)

(** [otrl_context_forget_fingerprint] on an entry that may go: the entry
    is unlinked and released, and the context follows if it is left
    without entries, is unconnected and [and_maybe_context] is set. *)
Lemma forget_fingerprint_unlink us c ctx f fp pf amc :
  contexts us !! c = Some ctx →
  fingerprints us !! f = Some fp →
  fp_context fp = c →
  state ctx ≠ CONN_CONNECTED ∨ active_fingerprint ctx ≠ Some (FpNode f) →
  fp_tous fp = Some pf →
  pf = FpRootOf c
  ∨ (∃ g, pf = FpNode g ∧ g ≠ f ∧ is_Some (fingerprints us !! g)) →
  (∀ n, fp_next fp = Some n →
        ∃ g, n = FpNode g ∧ g ≠ f ∧ pf ≠ FpNode g
             ∧ is_Some (fingerprints us !! g)) →
  ∃ us1 ctx1,
    contexts us1
    = (if decide (pf = FpRootOf c)
       then <[c := ctx1]> (contexts us) else contexts us)
    ∧ contexts us1 !! c = Some ctx1
    ∧ ctx1 = (if decide (pf = FpRootOf c)
              then set_fingerprint_root
                     (set_fp_next (fp_next fp) (fingerprint_root ctx)) ctx
              else ctx)
    ∧ (∀ x, fingerprints us1 !! x
            = if decide (x = f) then None
              else (λ e, (if decide (fp_next fp = Some (FpNode x))
                          then set_fp_tous (Some pf) else id)
                           ((if decide (pf = FpNode x)
                             then set_fp_next (fp_next fp) else id) e))
                   <$> fingerprints us !! x)
    ∧ context_root us1 = context_root us
    ∧ app_data_freed us1 = app_data_freed us
    ∧ ∀ fuel,
        otrl_context_forget_fingerprint (S fuel) (FpNode f) amc us
        = if bool_decide (state ctx = CONN_UNCONNECTED)
             && bool_decide (fp_next (fingerprint_root ctx1) = None)
             && negb (amc =? 0)%Z
          then otrl_context_forget fuel c us1
          else Some us1.
Proof.
  intros Hctx Hfp Hc Hmay Hpf Hprev Hnext. subst c.
  assert (bool_decide (state ctx ≠ CONN_CONNECTED)
          || bool_decide (active_fingerprint ctx ≠ Some (FpNode f)) = true)
    as Hgo.
  { apply orb_true_iff. destruct Hmay; [left|right]; by apply bool_decide_eq_true_2. }
  (* the store after [*(fprint->tous) = fprint->next] *)
  destruct (update_fp pf (set_fp_next (fp_next fp)) us) as [us0|] eqn:E0;
    cycle 1.
  { exfalso. destruct Hprev as [->|(g & -> & _ & [fpg Hg])].
    - by rewrite (update_fp_root_Some _ _ ctx) in E0.
    - by rewrite (update_fp_node_Some _ _ fpg) in E0. }
  assert (fingerprints us0 !! f = Some fp) as Hfp0.
  { destruct Hprev as [->|(g & -> & Hgf & [fpg Hg])].
    - rewrite (update_fp_root_Some _ _ ctx) in E0 by done.
      by injection E0 as <-.
    - rewrite (update_fp_node_Some _ _ fpg) in E0 by done.
      injection E0 as <-. simpl. by rewrite lookup_insert_ne. }
  (* the store after [fprint->next->tous = fprint->tous] *)
  destruct (match fp_next fp with
            | Some n => update_fp n (set_fp_tous (fp_tous fp)) us0
            | None => Some us0
            end) as [us1|] eqn:E1; cycle 1.
  { exfalso. destruct (fp_next fp) as [n|] eqn:En; [|done].
    destruct (Hnext n eq_refl) as (g & -> & Hgf & Hgp & [fpg Hg]).
    unfold update_fp in E1.
    destruct Hprev as [->|(h & -> & Hhf & [fph Hh])].
    - rewrite (update_fp_root_Some _ _ ctx) in E0 by done.
      injection E0 as <-. simpl in E1. by rewrite Hg in E1.
    - rewrite (update_fp_node_Some _ _ fph) in E0 by done.
      injection E0 as <-. simpl in E1.
      rewrite lookup_insert_ne in E1 by congruence. by rewrite Hg in E1. }
  set (ctx1 := if decide (pf = FpRootOf (fp_context fp))
               then set_fingerprint_root
                      (set_fp_next (fp_next fp) (fingerprint_root ctx)) ctx
               else ctx).
  assert (contexts us1
          = (if decide (pf = FpRootOf (fp_context fp))
             then <[fp_context fp := ctx1]> (contexts us) else contexts us)
          ∧ (∀ x, fingerprints us1 !! x
                  = (λ e, (if decide (fp_next fp = Some (FpNode x))
                           then set_fp_tous (Some pf) else id)
                            ((if decide (pf = FpNode x)
                              then set_fp_next (fp_next fp) else id) e))
                    <$> fingerprints us !! x)
          ∧ context_root us1 = context_root us
          ∧ app_data_freed us1 = app_data_freed us) as (Hctxs & Hfps & Hr & Hfr).
  { assert (contexts us0
            = (if decide (pf = FpRootOf (fp_context fp))
               then <[fp_context fp := ctx1]> (contexts us) else contexts us)
            ∧ (∀ x, fingerprints us0 !! x
                    = (if decide (pf = FpNode x)
                       then set_fp_next (fp_next fp) else id)
                      <$> fingerprints us !! x)
            ∧ context_root us0 = context_root us
            ∧ app_data_freed us0 = app_data_freed us) as (Hctxs0 & Hfps0 & Hr0 & Hfr0).
    { destruct Hprev as [->|(g & -> & Hgf & [fpg Hg])].
      - rewrite (update_fp_root_Some _ _ ctx) in E0 by done.
        injection E0 as <-. simpl. unfold ctx1.
        rewrite !decide_True by done. split; [done|]. split; [|done].
        intros x. by destruct (fingerprints us !! x).
      - rewrite (update_fp_node_Some _ _ fpg) in E0 by done.
        injection E0 as <-. simpl.
        split; [done|]. split; [|done]. intros x.
        destruct (decide (FpNode g = FpNode x)) as [[= ->]|Hne].
        + rewrite lookup_insert_eq. by rewrite Hg.
        + rewrite lookup_insert_ne by congruence.
          by destruct (fingerprints us !! x). }
    destruct (fp_next fp) as [n|] eqn:En.
    - destruct (Hnext n eq_refl) as (g & -> & Hgf & Hgp & [fpg Hg]).
      unfold update_fp in E1. bind_inv E1 as fpg0 Hg0. injection E1 as <-.
      simpl. split; [done|]. split; [|done]. intros x.
      destruct (decide (Some (FpNode g) = Some (FpNode x))) as [[= ->]|Hne].
      + rewrite lookup_insert_eq. rewrite Hfps0, Hg in Hg0. simpl in Hg0.
        rewrite decide_False in Hg0 by done. injection Hg0 as <-.
        rewrite Hg. simpl. rewrite (decide_False (P := pf = FpNode x)) by done.
        by rewrite Hpf.
      + rewrite lookup_insert_ne by congruence. rewrite Hfps0.
        by destruct (fingerprints us !! x).
    - injection E1 as <-. split; [done|]. split; [|done]. intros x.
      rewrite Hfps0. by destruct (fingerprints us !! x). }
  assert (fingerprints us1 !! f = Some fp) as Hfp1.
  { rewrite Hfps, Hfp. simpl. rewrite decide_False.
    2:{ intros Hn. destruct (Hnext _ Hn) as (g & [= <-] & ? & _). done. }
    rewrite decide_False; [done|].
    intros ->. destruct Hprev as [[=]|(g & [= <-] & ? & _)]. done. }
  assert (contexts us1 !! fp_context fp = Some ctx1) as Hctx1.
  { rewrite Hctxs. unfold ctx1. case_decide; [|done].
    apply lookup_insert_eq. }
  exists (with_fingerprints (delete f (fingerprints us1)) us1), ctx1.
  split; [done|]. split; [done|]. split; [done|]. split.
  { intros x. simpl. rewrite lookup_delete.
    destruct (decide (f = x)) as [->|Hx].
    - by rewrite decide_True.
    - rewrite decide_False by done. apply Hfps. }
  split; [done|]. split; [done|].
  assert (∀ us', fingerprints us' !! f = Some fp →
                 load_fp us' (FpNode f) = Some fp) as Hl by done.
  intros fuel. simpl. rewrite (Hl us) by done. simpl.
  rewrite Hctx. simpl. rewrite Hgo.
  rewrite Hpf. simpl. rewrite E0. simpl. rewrite (Hl us0) by done.
  simpl. rewrite E1. simpl.
  unfold free_fp. rewrite Hfp1. simpl. rewrite Hctx1. simpl.
  replace (state ctx1) with (state ctx); [done|].
  unfold ctx1. by case_decide.
Qed.

(** [otrl_context_forget] on an unconnected context, anywhere in the
    list: its entries go, the destructor of the application data runs,
    the neighbours are linked to each other and the context is released. *)
Lemma forget_effect us c ctx fl sl :
  contexts us !! c = Some ctx →
  state ctx = CONN_UNCONNECTED →
  entries us c (FpRootOf c) (fp_next (fingerprint_root ctx)) fl →
  tous ctx = Some sl →
  sl = RootSlot
  ∨ (∃ b, sl = NextSlot b ∧ b ≠ c ∧ is_Some (contexts us !! b)) →
  (∀ n, next ctx = Some n →
        n ≠ c ∧ sl ≠ NextSlot n ∧ is_Some (contexts us !! n)) →
  ∃ us',
    (∀ fuel, length fl + 1 < fuel → otrl_context_forget fuel c us = Some us')
    ∧ (∀ a, contexts us' !! a
            = if decide (a = c) then None
              else (λ e, (if decide (next ctx = Some a)
                          then set_tous (Some sl) else id)
                           ((if decide (sl = NextSlot a)
                             then set_next (next ctx) else id) e))
                   <$> contexts us !! a)
    ∧ (∀ x, fingerprints us' !! x
            = if decide (x ∈ fl) then None else fingerprints us !! x)
    ∧ context_root us'
      = (if decide (sl = RootSlot) then next ctx else context_root us)
    ∧ app_data_freed us'
      = app_data_freed us
        ++ match app_data ctx, app_data_free ctx with
           | Some d, Some fr => [(fr, d)]
           | _, _ => []
           end.
Proof.
  intros Hctx Hst Hfl Htous Hsl Hnext.
  (* otrl_context_force_disconnect(context) *)
  destruct (force_disconnect_Some us c ctx Hctx)
    as (ctx1 & Hdis & Hst1 & Hn1 & Ht1 & Hr1 & Had1 & Hadf1).
  set (us1 := with_contexts (<[c := ctx1]> (contexts us)) us) in *.
  assert (contexts us1 !! c = Some ctx1) as Hc1 by apply lookup_insert_eq.
  (* the fingerprints go *)
  destruct (forget_fingerprints_spec c fl us1 ctx1 Hc1)
    as (us2 & Hloop & Hctx2 & Hfps2 & Hroot2 & Hfreed2).
  { by rewrite Hst1. }
  { rewrite Hr1. by apply (entries_ext us). }
  set (ctx2 := set_fingerprint_root
                 (set_fp_next None (fingerprint_root ctx1)) ctx1) in *.
  assert (contexts us2 !! c = Some ctx2) as Hc2.
  { rewrite Hctx2. apply lookup_insert_eq. }
  (* the identity strings go *)
  set (ctx3 := set_identity None None None ctx2).
  set (us3 := with_contexts (<[c := ctx3]> (contexts us2)) us2).
  (* the application data goes *)
  destruct (match app_data ctx3, app_data_free ctx3 with
            | Some d, Some fr =>
                update_ctx c (set_app_data None (Some fr))
                  (with_freed (app_data_freed us3 ++ [(fr, d)]) us3)
            | _, _ => Some us3
            end) as [us4|] eqn:E4; cycle 1.
  { destruct (app_data ctx3); [|done]. destruct (app_data_free ctx3); [|done].
    apply update_ctx_None in E4. simpl in E4.
    by rewrite lookup_insert_eq in E4. }
  assert (∃ ctx4, contexts us4 = <[c := ctx4]> (contexts us)
                  ∧ next ctx4 = next ctx ∧ tous ctx4 = tous ctx
                  ∧ context_root us4 = context_root us
                  ∧ fingerprints us4 = fingerprints us2
                  ∧ app_data_freed us4
                    = app_data_freed us
                      ++ match app_data ctx, app_data_free ctx with
                         | Some d, Some fr => [(fr, d)]
                         | _, _ => []
                         end)
    as (ctx4 & Hctx4 & Hn4 & Ht4 & Hroot4 & Hfps4 & Hfreed4).
  { assert (contexts us3 = <[c := ctx3]> (contexts us)) as Hctx3.
    { simpl. rewrite Hctx2. simpl. by rewrite !insert_insert_eq. }
    change (app_data ctx3) with (app_data ctx1) in E4.
    change (app_data_free ctx3) with (app_data_free ctx1) in E4.
    rewrite <- Had1, <- Hadf1.
    destruct (app_data ctx1) as [d|].
    - destruct (app_data_free ctx1) as [fr|].
      + apply update_ctx_inv in E4 as (cx & Hcx & ->). simpl in *.
        rewrite lookup_insert_eq in Hcx. injection Hcx as <-.
        eexists. split.
        { rewrite Hctx2. simpl. rewrite !insert_insert_eq. reflexivity. }
        simpl. split; [done|]. split; [done|]. split; [by rewrite Hroot2|].
        split; [done|]. by rewrite Hfreed2.
      + injection E4 as <-. exists ctx3. split; [done|]. simpl.
        split; [done|]. split; [done|]. split; [by rewrite Hroot2|].
        split; [done|]. rewrite Hfreed2. simpl. by rewrite app_nil_r.
    - injection E4 as <-. exists ctx3. split; [done|]. simpl.
      split; [done|]. split; [done|]. split; [by rewrite Hroot2|].
      split; [done|]. rewrite Hfreed2. simpl. by rewrite app_nil_r. }
  assert (contexts us4 !! c = Some ctx4) as Hc4.
  { rewrite Hctx4. apply lookup_insert_eq. }
  (* [*(context->tous) = context->next] *)
  destruct (store_slot sl (next ctx) us4) as [us5|] eqn:E5; cycle 1.
  { exfalso. destruct Hsl as [->|(b & -> & Hbc & [cb Hb])]; [done|].
    unfold store_slot in E5. apply update_ctx_None in E5.
    rewrite Hctx4 in E5. rewrite lookup_insert_ne in E5 by done. congruence. }
  assert ((∀ a, contexts us5 !! a
                = if decide (a = c) then Some ctx4
                  else (if decide (sl = NextSlot a)
                        then set_next (next ctx) else id)
                       <$> contexts us !! a)
          ∧ context_root us5
            = (if decide (sl = RootSlot) then next ctx else context_root us)
          ∧ fingerprints us5 = fingerprints us4
          ∧ app_data_freed us5 = app_data_freed us4)
    as (Hctx5 & Hroot5 & Hfps5 & Hfreed5).
  { destruct Hsl as [->|(b & -> & Hbc & [cb Hb])].
    - injection E5 as <-. simpl. split; [|done]. intros a.
      rewrite Hctx4. destruct (decide (a = c)) as [->|Hac].
      + by rewrite lookup_insert_eq.
      + rewrite lookup_insert_ne by done. by destruct (contexts us !! a).
    - unfold store_slot in E5. apply update_ctx_inv in E5 as (cb' & Hb' & ->).
      rewrite Hctx4 in Hb'. rewrite lookup_insert_ne in Hb' by done.
      rewrite Hb in Hb'. injection Hb' as <-. simpl.
      split; [|done]. intros a. rewrite Hctx4.
      destruct (decide (a = c)) as [->|Hac].
      + rewrite lookup_insert_ne by done. by rewrite lookup_insert_eq.
      + destruct (decide (NextSlot b = NextSlot a)) as [[= ->]|Hba].
        * rewrite lookup_insert_eq. by rewrite Hb.
        * rewrite lookup_insert_ne by congruence.
          rewrite lookup_insert_ne by done.
          by destruct (contexts us !! a). }
  assert (contexts us5 !! c = Some ctx4) as Hc5.
  { by rewrite Hctx5, decide_True. }
  (* [context->next->tous = context->tous] *)
  destruct (match next ctx4 with
            | Some n => update_ctx n (set_tous (tous ctx4)) us5
            | None => Some us5
            end) as [us6|] eqn:E6; cycle 1.
  { exfalso. rewrite Hn4 in E6. destruct (next ctx) as [n|] eqn:En; [|done].
    destruct (Hnext n eq_refl) as (Hnc & Hsn & [cn Hcn]).
    apply update_ctx_None in E6. rewrite Hctx5 in E6.
    rewrite decide_False in E6 by done. by rewrite Hcn in E6. }
  assert ((∀ a, contexts us6 !! a
                = if decide (a = c) then Some ctx4
                  else (λ e, (if decide (next ctx = Some a)
                              then set_tous (Some sl) else id)
                               ((if decide (sl = NextSlot a)
                                 then set_next (next ctx) else id) e))
                       <$> contexts us !! a)
          ∧ context_root us6 = context_root us5
          ∧ fingerprints us6 = fingerprints us5
          ∧ app_data_freed us6 = app_data_freed us5)
    as (Hctx6 & Hroot6 & Hfps6 & Hfreed6).
  { rewrite Hn4, Ht4, Htous in E6. destruct (next ctx) as [n|] eqn:En.
    - destruct (Hnext n eq_refl) as (Hnc & Hsn & [cn Hcn]).
      apply update_ctx_inv in E6 as (cn' & Hcn' & ->). simpl.
      split; [|done]. intros a.
      destruct (decide (a = c)) as [->|Hac].
      + rewrite lookup_insert_ne by done. done.
      + destruct (decide (Some n = Some a)) as [[= ->]|Hna].
        * rewrite lookup_insert_eq. rewrite Hctx5 in Hcn'.
          rewrite decide_False in Hcn' by done. rewrite Hcn in Hcn' |- *.
          simpl in *. by injection Hcn' as <-.
        * rewrite lookup_insert_ne by congruence. rewrite Hctx5.
          rewrite decide_False by done.
          by destruct (contexts us !! a).
    - injection E6 as <-. split; [|done]. intros a. rewrite Hctx5.
      destruct (decide (a = c)); [done|].
      by destruct (contexts us !! a). }
  assert (contexts us6 !! c = Some ctx4) as Hc6.
  { by rewrite Hctx6, decide_True. }
  exists (with_contexts (delete c (contexts us6)) us6).
  split.
  { intros [|fuel] Hfuel; [lia|]. simpl. rewrite Hctx. simpl.
    rewrite (bool_decide_eq_false_2 (state ctx ≠ CONN_UNCONNECTED))
      by (intros ?; done).
    rewrite Hdis. simpl. fold us1. rewrite Hloop by lia. simpl.
    rewrite (update_ctx_Some _ _ _ _ Hc2). simpl.
    rewrite lookup_insert_eq. simpl. fold ctx3. fold us3.
    change (app_data ctx1) with (app_data ctx3).
    change (app_data_free ctx1) with (app_data_free ctx3).
    change (app_data_freed us2) with (app_data_freed us3).
    rewrite E4. simpl. rewrite Hc4. simpl. rewrite Ht4, Htous. simpl.
    rewrite Hn4, E5. simpl. rewrite Hc5. simpl. rewrite E6. simpl.
    rewrite Hc6. simpl. done. }
  split.
  { intros a. simpl. rewrite lookup_delete.
    destruct (decide (c = a)) as [->|Hac].
    - by rewrite decide_True.
    - rewrite decide_False by done. rewrite Hctx6.
      by rewrite decide_False by done. }
  split.
  { intros x. simpl. by rewrite Hfps6, Hfps5, Hfps4, Hfps2. }
  split.
  { simpl. by rewrite Hroot6, Hroot5. }
  simpl. by rewrite Hfreed6, Hfreed5, Hfreed4.
Qed.

Lemma linked_middle us : ∀ l1 s p c l2,
  linked us s p (l1 ++ c :: l2) →
  ∃ ctx fl, contexts us !! c = Some ctx
            ∧ tous ctx = Some (slot_after s l1)
            ∧ next ctx = head l2
            ∧ entries us c (FpRootOf c) (fp_next (fingerprint_root ctx)) fl
            ∧ linked us (NextSlot c) (next ctx) l2.
Proof.
  induction l1 as [|a l1 IH]; intros s p c l2 H.
  - destruct H as [-> (ctx & Hctx & Ht & [fl Hfl] & Hrest)].
    exists ctx, fl. do 2 (split; [done|]). split; [|done].
    destruct l2 as [|n l2]; [done|]. by destruct Hrest as [-> _].
  - destruct H as [-> (ca & Hca & Ht & _ & Hrest)].
    rewrite slot_after_cons. by eapply IH.
Qed.

(** The context [c] of a registry unlinked and released: what is left of
    the list. *)
Lemma linked_delete us us' c ctx sl :
  contexts us !! c = Some ctx →
  tous ctx = Some sl →
  (∀ a, a ≠ c →
        contexts us' !! a
        = (λ e, (if decide (next ctx = Some a)
                 then set_tous (Some sl) else id)
                  ((if decide (sl = NextSlot a)
                    then set_next (next ctx) else id) e))
          <$> contexts us !! a) →
  (∀ x fp, fingerprints us !! x = Some fp → fp_context fp ≠ c →
           fingerprints us' !! x = Some fp) →
  ∀ l1 s p l2,
    linked us s p (l1 ++ c :: l2) →
    NoDup (l1 ++ c :: l2) →
    (∀ b, b ∈ l1 ++ c :: l2 → s ≠ NextSlot b) →
    linked us' s (match l1 with [] => next ctx | _ => p end) (l1 ++ l2).
Proof.
  intros Hctx Hsl Hdesc Hfps.
  assert (∀ b cb fl,
            contexts us !! b = Some cb →
            entries us b (FpRootOf b) (fp_next (fingerprint_root cb)) fl →
            b ≠ c →
            ∃ cb', contexts us' !! b = Some cb'
                   ∧ entries us' b (FpRootOf b)
                       (fp_next (fingerprint_root cb')) fl
                   ∧ next cb' = (if decide (sl = NextSlot b)
                                 then next ctx else next cb)
                   ∧ tous cb' = (if decide (next ctx = Some b)
                                 then Some sl else tous cb))
    as Hold.
  { intros b cb fl Hcb Hfl Hb. rewrite Hdesc, Hcb by done.
    simpl. eexists. split; [done|]. split; [|split; by goal_decide].
    replace (fp_next (fingerprint_root _))
      with (fp_next (fingerprint_root cb)) by by goal_decide.
    apply (entries_ext us); [|done]. intros x Hx.
    destruct (entries_owner _ _ _ _ _ _ Hfl Hx) as (fp & Hfp & Hc).
    rewrite Hfp. apply Hfps; [done|]. congruence. }
  induction l1 as [|a l1 IH]; intros s p l2 Hl Hnd Hs.
  - simpl in *. destruct Hl as [-> (ctx' & Hctx' & Ht & _ & Hrest)].
    rewrite Hctx in Hctx'. injection Hctx' as <-.
    rewrite Hsl in Ht. injection Ht as ->.
    apply NoDup_cons in Hnd as [Hc_l2 Hnd].
    destruct l2 as [|n l2]; [done|].
    destruct Hrest as [Hn (cn & Hcn & Htn & [fln Hfln] & Hrest)].
    assert (n ≠ c) as Hnc by (intros ->; apply Hc_l2, list_elem_of_here).
    destruct (Hold n cn fln Hcn Hfln Hnc) as (cn' & Hcn' & Hfln' & Hn' & Ht').
    split; [done|]. exists cn'. split; [done|].
    rewrite decide_True in Ht' by done. split; [done|]. split; [eauto|].
    rewrite Hn'. rewrite decide_False.
    2:{ apply Hs. apply list_elem_of_further, list_elem_of_here. }
    apply NoDup_cons in Hnd as [Hn_l2 Hnd].
    apply (linked_pointwise us); [|done].
    intros b cb flb Hb Hcb Hflb.
    destruct (Hold b cb flb Hcb Hflb) as (cb' & Hcb' & Hflb' & Hnb & Htb).
    { intros ->. apply Hc_l2. by apply list_elem_of_further. }
    exists cb', flb. split; [done|]. split.
    { rewrite Hnb. rewrite decide_False; [done|]. apply Hs.
      by do 2 apply list_elem_of_further. }
    split; [|done]. rewrite Htb. rewrite decide_False; [done|].
    rewrite Hn. intros [= ->]. done.
  - change ((a :: l1) ++ c :: l2) with (a :: (l1 ++ c :: l2)) in *.
    change ((a :: l1) ++ l2) with (a :: (l1 ++ l2)).
    pose proof (linked_middle _ (a :: l1) _ _ _ _ Hl)
      as (ctx' & _ & Hctx' & Ht' & Hn' & _).
    rewrite Hctx in Hctx'. injection Hctx' as <-.
    rewrite Hsl in Ht'. injection Ht' as Hsl'.
    rewrite slot_after_cons in Hsl'.
    destruct Hl as [-> (ca & Hca & Ht & [fla Hfla] & Hrest)].
    apply NoDup_cons in Hnd as [Ha_l Hnd].
    assert (a ≠ c) as Hac.
    { intros ->. apply Ha_l, elem_of_app. right. apply list_elem_of_here. }
    destruct (Hold a ca fla Hca Hfla Hac) as (ca' & Hca' & Hfla' & Hna & Hta).
    split; [done|]. exists ca'. split; [done|]. split.
    { rewrite Hta. rewrite decide_False; [done|]. rewrite Hn'.
      destruct l2 as [|n l2]; [done|]. simpl. intros [= ->].
      apply Ha_l, elem_of_app. right.
      apply list_elem_of_further, list_elem_of_here. }
    split; [eauto|].
    assert (linked us' (NextSlot a)
              (match l1 with [] => next ctx | _ => next ca end)
              (l1 ++ l2)) as Hrec.
    { apply IH; [done|done|]. intros b Hb [= ->]. done. }
    rewrite Hna. destruct l1 as [|b l1].
    + by rewrite decide_True.
    + rewrite decide_False; [done|]. rewrite Hsl'. unfold slot_after.
      destruct (last (b :: l1)) as [z|] eqn:El; [|by apply last_None in El].
      intros [= ->]. apply Ha_l, elem_of_app. left.
      by apply last_Some_elem_of.
Qed.

(** ** Coherent stores *)

Lemma fingerprints_of_det us c fl fl' :
  fingerprints_of us c fl → fingerprints_of us c fl' → fl = fl'.
Proof.
  intros (ctx & Hctx & Hfl) (ctx' & Hctx' & Hfl').
  rewrite Hctx in Hctx'. injection Hctx' as <-.
  apply entries_chain in Hfl, Hfl'.
  pose proof (chain_det _ _ _ _ Hfl Hfl') as Heq.
  revert Heq. apply list_fmap_eq_inj. by intros x y [= ->].
Qed.

Lemma registry_det us reg reg' :
  registry us reg → registry us reg' → reg = reg'.
Proof.
  intros [Hc Hk] [Hc' Hk']. unfold context_list in *.
  pose proof (chain_det _ _ _ _ Hc Hc') as Heq. clear Hc Hc'.
  revert reg' Hk' Heq. induction reg as [|[b k] reg IH];
    intros [|[b' k'] reg'] Hk' Heq; try done.
  apply Forall_cons in Hk as [Hb Hk]. apply Forall_cons in Hk' as [Hb' Hk'].
  simpl in *. injection Heq as <- Heq. f_equal; [|by apply IH].
  congruence.
Qed.

Lemma well_formed_fingerprints_of us c :
  well_formed us → is_Some (contexts us !! c) → ∃ fl, fingerprints_of us c fl.
Proof.
  intros (reg & _ & _ & Hl & Hdom) Hc. apply Hdom in Hc.
  destruct (linked_lookup _ _ _ _ _ Hl Hc) as (ctx & fl & Hctx & Hfl).
  exists fl, ctx. done.
Qed.

Lemma registry_split us reg c :
  registry us reg → c ∈ reg.*1 →
  ∃ l1 k l2, reg = l1 ++ (c, k) :: l2 ∧ (c ∉ l1.*1) ∧ (c ∉ l2.*1).
Proof.
  intros [Hc _] Hin. apply chain_NoDup in Hc.
  apply list_elem_of_fmap in Hin as ([c' k] & -> & Hin).
  apply list_elem_of_split in Hin as (l1 & l2 & ->).
  exists l1, k, l2. split; [done|].
  rewrite fmap_app, fmap_cons in Hc. simpl in *.
  apply NoDup_app in Hc as (_ & H1 & H2).
  apply NoDup_cons in H2 as [H2 _]. split; [|done].
  intros Hin. apply (H1 _ Hin). apply list_elem_of_here.
Qed.

(** What [otrl_context_forget] does to an unconnected context of a
    coherent store. *)
Lemma forget_spec_at us l1 c k l2 ctx :
  coherent us →
  registry us (l1 ++ (c, k) :: l2) →
  contexts us !! c = Some ctx →
  state ctx = CONN_UNCONNECTED →
  ∃ fl us',
    fingerprints_of us c fl
    ∧ (∀ fuel, length fl + 1 < fuel → otrl_context_forget fuel c us = Some us')
    ∧ coherent us'
    ∧ registry us' (l1 ++ l2)
    ∧ (∀ a fla, a ≠ c → fingerprints_of us a fla → fingerprints_of us' a fla)
    ∧ (∀ a, contexts us' !! a
            = if decide (a = c) then None
              else (λ e, (if decide (head l2.*1 = Some a)
                          then set_tous (Some (slot_after RootSlot l1.*1))
                          else id)
                           ((if decide (slot_after RootSlot l1.*1 = NextSlot a)
                             then set_next (head l2.*1) else id) e))
                   <$> contexts us !! a)
    ∧ (∀ x, fingerprints us' !! x
            = if decide (x ∈ fl) then None else fingerprints us !! x)
    ∧ app_data_freed us'
      = app_data_freed us
        ++ match app_data ctx, app_data_free ctx with
           | Some d, Some fr => [(fr, d)]
           | _, _ => []
           end.
Proof.
  intros (Hwf & Hsent & Hown & Hdist) Hreg Hctx Hst.
  destruct Hwf as (reg0 & Hreg0 & Hs & Hl & Hdom).
  rewrite (registry_det _ _ _ Hreg0 Hreg) in *. clear reg0 Hreg0.
  assert ((c ∉ l1.*1) ∧ (c ∉ l2.*1)) as [Hc1 Hc2].
  { destruct Hreg as [Hc _]. apply chain_NoDup in Hc.
    rewrite fmap_app, fmap_cons in Hc. simpl in Hc.
    apply NoDup_app in Hc as (_ & H1 & H2).
    apply NoDup_cons in H2 as [H2 _]. split; [|done].
    intros Hin. apply (H1 _ Hin). apply list_elem_of_here. }
  pose proof Hreg as [Hchain Hkeys]. unfold context_list in Hchain.
  pose proof (chain_NoDup _ _ _ Hchain) as Hnd.
  rewrite fmap_app, fmap_cons in Hl, Hnd, Hdom. simpl in *.
  unfold linked_registry in Hl.
  destruct (linked_middle _ _ _ _ _ _ Hl)
    as (ctx' & fl & Hctx' & Htous & Hnext & Hfl & Hrest).
  rewrite Hctx in Hctx'. injection Hctx' as <-.
  set (sl := slot_after RootSlot l1.*1) in *.
  assert (∀ b, b ∈ l1.*1 ++ c :: l2.*1 → is_Some (contexts us !! b)) as Halloc.
  { intros b Hb. destruct (linked_lookup _ _ _ _ _ Hl Hb) as (cb & _ & Hcb & _).
    eauto. }
  destruct (forget_effect us c ctx fl sl Hctx Hst Hfl Htous)
    as (us' & Hrun & Hctxs & Hfps & Hroot & Hfreed).
  { unfold sl, slot_after. destruct (last l1.*1) as [b|] eqn:El; [|by left].
    right. exists b. split; [done|].
    apply last_Some_elem_of in El. split; [by intros ->|].
    apply Halloc, elem_of_app. by left. }
  { intros n Hn. rewrite Hnext in Hn.
    destruct (l2.*1) as [|n' l2'] eqn:El2; [done|]. injection Hn as ->.
    split; [intros ->; apply Hc2, list_elem_of_here|]. split.
    - unfold sl, slot_after. destruct (last l1.*1) as [b|] eqn:El; [|done].
      intros [= ->]. apply last_Some_elem_of in El.
      apply NoDup_app in Hnd as (_ & Hnd & _). apply (Hnd _ El).
      apply list_elem_of_further, list_elem_of_here.
    - apply Halloc, elem_of_app. right.
      apply list_elem_of_further, list_elem_of_here. }
  rewrite Hnext in Hctxs.
  assert (∀ a ca, a ≠ c → contexts us !! a = Some ca →
            ∃ ca', contexts us' !! a = Some ca'
                   ∧ ctx_key ca' = ctx_key ca
                   ∧ fingerprint_root ca' = fingerprint_root ca) as Hkeep.
  { intros a ca Ha Hca. rewrite Hctxs, decide_False, Hca by done. simpl.
    eexists. split; [done|]. split; by goal_decide. }
  assert (∀ x fp, fingerprints us !! x = Some fp → fp_context fp ≠ c →
                  fingerprints us' !! x = Some fp) as Hother.
  { intros x fp Hx Hxc. rewrite Hfps. rewrite decide_False; [done|].
    intros Hin. destruct (entries_owner _ _ _ _ _ _ Hfl Hin) as (fp' & Hx' & ?).
    congruence. }
  assert (linked us' RootSlot (context_root us') (l1.*1 ++ l2.*1)) as Hl'.
  { replace (context_root us')
      with (match l1.*1 with [] => next ctx | _ => context_root us end).
    2:{ rewrite Hroot. unfold sl. destruct (l1.*1) as [|b l] eqn:E; [done|].
        rewrite decide_False; [done|]. by rewrite slot_after_root. }
    apply (linked_delete us us' c ctx sl); try done.
    intros a Ha. rewrite Hctxs, decide_False by done. by rewrite Hnext. }
  exists fl, us'. split; [by exists ctx|].
  split; [done|].
  assert (registry us' (l1 ++ l2)) as Hreg'.
  { split.
    - unfold context_list. rewrite fmap_app. by eapply linked_chain.
    - apply Forall_app in Hkeys as [Hk1 Hk2].
      apply Forall_cons in Hk2 as [_ Hk2].
      assert (∀ l : list (addr * ident), c ∉ l.*1 →
                Forall (λ bk, key_at us bk.1 = Some bk.2) l →
                Forall (λ bk, key_at us' bk.1 = Some bk.2) l) as Hmove.
      { intros l Hcl Hl0. rewrite Forall_forall in *. intros [b kb] Hb.
        pose proof (Hl0 _ Hb) as Hkb. simpl in *. unfold key_at in *.
        destruct (contexts us !! b) as [cb|] eqn:Ecb; [|done].
        destruct (Hkeep b cb) as (cb' & -> & Hk' & _); [|done|].
        { intros ->. apply Hcl. apply list_elem_of_fmap. by exists (c, kb). }
        simpl in *. congruence. }
      apply Forall_app. split; by apply Hmove. }
  assert (∀ a fla, a ≠ c → fingerprints_of us a fla →
                   fingerprints_of us' a fla) as Hchains.
  { intros a fla Hac (ca & Hca & Hfla).
    destruct (Hkeep _ _ Hac Hca) as (ca' & Hca' & _ & Hr').
    exists ca'. split; [done|]. rewrite Hr'.
    apply (entries_ext us); [|done]. intros y Hy.
    destruct (entries_owner _ _ _ _ _ _ Hfla Hy) as (fpy & Hfpy & Hcy).
    rewrite Hfpy. apply Hother; [done|]. congruence. }
  split; [|done].
  split; [|split; [|split]].
  - exists (l1 ++ l2). split; [done|]. split.
    { rewrite fmap_app, fmap_cons in Hs. rewrite fmap_app.
      apply StronglySorted_app in Hs as (H12 & Hs1 & Hs2).
      apply StronglySorted_cons in Hs2 as [_ Hs2].
      apply StronglySorted_app. split; [|done].
      intros x1 x2 Hx1 Hx2. apply H12; [done|].
      by apply list_elem_of_further. }
    split; [unfold linked_registry; by rewrite fmap_app|].
    intros a [ca Hca]. rewrite Hctxs in Hca.
    destruct (decide (a = c)) as [->|Hac]; [done|].
    destruct (contexts us !! a) as [ca0|] eqn:Ea; [|done].
    assert (a ∈ l1.*1 ++ c :: l2.*1) as Hin by (apply Hdom; eauto).
    rewrite fmap_app. apply elem_of_app in Hin as [Hin|Hin].
    + apply elem_of_app. by left.
    + apply elem_of_cons in Hin as [->|Hin]; [done|].
      apply elem_of_app. by right.
  - intros a ca Hca. rewrite Hctxs in Hca.
    destruct (decide (a = c)) as [->|Hac]; [done|].
    destruct (contexts us !! a) as [ca0|] eqn:Ea; [|done].
    simpl in Hca. injection Hca as <-. rewrite <- (Hsent a ca0 Ea).
    by goal_decide.
  - intros x fp Hx. rewrite Hfps in Hx.
    destruct (decide (x ∈ fl)) as [|Hxfl]; [done|].
    destruct (Hown x fp Hx) as [Hb (flx & (cx & Hcx & Hflx) & Hin)].
    split; [done|]. exists flx. split; [|done].
    assert (fp_context fp ≠ c) as Hxc.
    { intros Heq. rewrite Heq in *. rewrite Hctx in Hcx.
      injection Hcx as <-. apply Hxfl.
      by rewrite (fingerprints_of_det us c fl flx) by by exists ctx. }
    destruct (Hkeep _ _ Hxc Hcx) as (cx' & Hcx' & _ & Hr').
    exists cx'. split; [done|]. rewrite Hr'.
    apply (entries_ext us); [|done]. intros y Hy.
    destruct (entries_owner _ _ _ _ _ _ Hflx Hy) as (fpy & Hfpy & Hcy).
    rewrite Hfpy. apply Hother; [done|]. congruence.
  - intros f g fp fg Hf Hg. rewrite Hfps in Hf, Hg.
    destruct (decide (f ∈ fl)); [done|]. destruct (decide (g ∈ fl)); [done|].
    by apply Hdist.
Qed.

Lemma forget_spec us reg c ctx :
  coherent us →
  registry us reg →
  contexts us !! c = Some ctx →
  state ctx = CONN_UNCONNECTED →
  ∃ l1 k l2 fl us',
    reg = l1 ++ (c, k) :: l2
    ∧ fingerprints_of us c fl
    ∧ (∀ fuel, length fl + 1 < fuel → otrl_context_forget fuel c us = Some us')
    ∧ coherent us'
    ∧ registry us' (l1 ++ l2)
    ∧ (∀ a fla, a ≠ c → fingerprints_of us a fla → fingerprints_of us' a fla)
    ∧ (∀ a, contexts us' !! a
            = if decide (a = c) then None
              else (λ e, (if decide (head l2.*1 = Some a)
                          then set_tous (Some (slot_after RootSlot l1.*1))
                          else id)
                           ((if decide (slot_after RootSlot l1.*1 = NextSlot a)
                             then set_next (head l2.*1) else id) e))
                   <$> contexts us !! a)
    ∧ (∀ x, fingerprints us' !! x
            = if decide (x ∈ fl) then None else fingerprints us !! x)
    ∧ app_data_freed us'
      = app_data_freed us
        ++ match app_data ctx, app_data_free ctx with
           | Some d, Some fr => [(fr, d)]
           | _, _ => []
           end.
Proof.
  intros Hco Hreg Hctx Hst.
  assert (c ∈ reg.*1) as Hc.
  { destruct Hco as ((reg0 & Hreg0 & _ & _ & Hdom) & _).
    rewrite <- (registry_det _ _ _ Hreg0 Hreg). apply Hdom. eauto. }
  destruct (registry_split _ _ _ Hreg Hc) as (l1 & k & l2 & -> & _).
  destruct (forget_spec_at us l1 c k l2 ctx Hco Hreg Hctx Hst)
    as (fl & us' & H).
  by exists l1, k, l2, fl, us'.
Qed.

(** What [otrl_context_forget_fingerprint] does in a coherent store to an
    entry that is not the active one of a private conversation: the entry
    leaves its chain and is released; the context follows where the code
    says so. *)
Lemma forget_fingerprint_spec us f fp c ctx amc :
  coherent us →
  fingerprints us !! f = Some fp →
  fp_context fp = c →
  contexts us !! c = Some ctx →
  state ctx ≠ CONN_CONNECTED ∨ active_fingerprint ctx ≠ Some (FpNode f) →
  ∃ fl1 fl2 us1,
    fingerprints_of us c (fl1 ++ f :: fl2)
    ∧ coherent us1
    ∧ fingerprints_of us1 c (fl1 ++ fl2)
    ∧ (∀ a fla, a ≠ c → fingerprints_of us a fla → fingerprints_of us1 a fla)
    ∧ (∀ a, contexts us1 !! a
            = (if decide (a = c ∧ fl1 = [])
               then set_fingerprint_root
                      (set_fp_next (FpNode <$> head fl2)
                         (fingerprint_root ctx))
               else id) <$> contexts us !! a)
    ∧ (∀ x, fingerprints us1 !! x
            = if decide (x = f) then None
              else (λ e, (if decide (head fl2 = Some x)
                          then set_fp_tous
                                 (Some (entry_before (FpRootOf c) fl1))
                          else id)
                           ((if decide (last fl1 = Some x)
                             then set_fp_next (FpNode <$> head fl2)
                             else id) e))
                   <$> fingerprints us !! x)
    ∧ context_root us1 = context_root us
    ∧ app_data_freed us1 = app_data_freed us
    ∧ ∀ fuel,
        otrl_context_forget_fingerprint (S fuel) (FpNode f) amc us
        = if bool_decide (state ctx = CONN_UNCONNECTED)
             && bool_decide (fl1 ++ fl2 = [])
             && negb (amc =? 0)%Z
          then otrl_context_forget fuel c us1
          else Some us1.
Proof.
  intros (Hwf & Hsent & Hown & Hdist) Hfp Hc Hctx Hmay.
  destruct (Hown f fp Hfp) as [_ (fl & (ctx' & Hctx' & Hfl) & Hin)].
  rewrite Hc in Hctx', Hfl. rewrite Hctx in Hctx'. injection Hctx' as <-.
  apply list_elem_of_split in Hin as (fl1 & fl2 & ->).
  pose proof (entries_NoDup _ _ _ _ _ Hfl) as Hnd.
  destruct (entries_middle _ _ _ _ _ _ _ Hfl)
    as (fp' & Hfp' & _ & Htous & Hnext & Hrest).
  rewrite Hfp in Hfp'. injection Hfp' as <-.
  set (pf := entry_before (FpRootOf c) fl1) in *.
  assert (∀ x, x ∈ fl1 ++ f :: fl2 →
               ∃ fpx, fingerprints us !! x = Some fpx ∧ fp_context fpx = c)
    as Halloc.
  { intros x Hx. eapply entries_owner; [exact Hfl|exact Hx]. }
  assert (∀ x, pf = FpNode x ↔ last fl1 = Some x) as Hpf.
  { intros x. unfold pf, entry_before.
    destruct (last fl1); split; congruence. }
  assert (∀ x, fp_next fp = Some (FpNode x) ↔ head fl2 = Some x) as Hhd.
  { intros x. rewrite Hnext.
    destruct (head fl2); simpl; split; congruence. }
  assert (∀ x, last fl1 = Some x → x ∈ fl1 ++ f :: fl2 ∧ x ≠ f
                                    ∧ head fl2 ≠ Some x) as Hlast.
  { intros x Hx. apply last_Some_elem_of in Hx.
    apply NoDup_app in Hnd as (_ & Hnd & _).
    split; [apply elem_of_app; by left|]. split.
    - intros ->. apply (Hnd _ Hx), list_elem_of_here.
    - destruct fl2 as [|g fl2]; [done|]. simpl. intros [= ->].
      apply (Hnd _ Hx), list_elem_of_further, list_elem_of_here. }
  assert (∀ x, head fl2 = Some x → x ∈ fl1 ++ f :: fl2 ∧ x ≠ f) as Hhead.
  { intros x Hx. destruct fl2 as [|g fl2]; [done|]. injection Hx as ->.
    split.
    - apply elem_of_app. right. apply list_elem_of_further, list_elem_of_here.
    - apply NoDup_app in Hnd as (_ & _ & Hnd).
      apply NoDup_cons in Hnd as [Hnd _]. intros ->.
      apply Hnd, list_elem_of_here. }
  destruct (forget_fingerprint_unlink us c ctx f fp pf amc Hctx Hfp Hc
              Hmay Htous)
    as (us1 & ctx1 & Hctxs & Hctx1 & Hctx1_eq & Hfps & Hroot & Hfreed & Hrun).
  { unfold pf, entry_before. destruct (last fl1) as [g|] eqn:El; [|by left].
    right. exists g. destruct (Hlast g eq_refl) as (Hg & Hgf & _).
    split; [done|]. split; [done|].
    destruct (Halloc g Hg) as (fpg & -> & _). eauto. }
  { intros n Hn. rewrite Hnext in Hn.
    destruct (head fl2) as [g|] eqn:Eh; [|done]. injection Hn as <-.
    destruct (Hhead g eq_refl) as (Hg & Hgf). exists g.
    split; [done|]. split; [done|]. split.
    - rewrite Hpf. intros El. by destruct (Hlast g El) as (_ & _ & ?).
    - destruct (Halloc g Hg) as (fpg & -> & _). eauto. }
  assert (pf = FpRootOf c ↔ fl1 = []) as Hroot_pf.
  { unfold pf, entry_before. destruct (last fl1) eqn:El.
    - split; [done|]. intros ->. done.
    - apply last_None in El. done. }
  assert (∀ x fpx, fingerprints us !! x = Some fpx → x ≠ f →
            ∃ fpx', fingerprints us1 !! x = Some fpx'
                    ∧ fingerprint fpx' = fingerprint fpx
                    ∧ fp_context fpx' = fp_context fpx
                    ∧ trust fpx' = trust fpx
                    ∧ (fp_context fpx ≠ c → fpx' = fpx)) as Hkeep.
  { intros x fpx Hx Hxf. rewrite Hfps, decide_False, Hx by done. simpl.
    eexists. split; [done|]. split; [by goal_decide|].
    split; [by goal_decide|]. split; [by goal_decide|]. intros Hxc.
    rewrite decide_False.
    2:{ rewrite Hhd. intros Hh. destruct (Hhead x Hh) as [Hin _].
        destruct (Halloc x Hin) as (? & ? & ?). congruence. }
    rewrite decide_False; [done|].
    rewrite Hpf. intros El. destruct (Hlast x El) as [Hin _].
    destruct (Halloc x Hin) as (? & ? & ?). congruence. }
  assert (entries us1 c (FpRootOf c) (fp_next (fingerprint_root ctx1))
            (fl1 ++ fl2)) as Hfl1.
  { replace (fp_next (fingerprint_root ctx1))
      with (match fl1 with
            | [] => fp_next fp
            | _ => fp_next (fingerprint_root ctx)
            end).
    2:{ rewrite Hctx1_eq. destruct fl1 as [|a fl1].
        - rewrite decide_True by by apply Hroot_pf. done.
        - rewrite decide_False; [done|]. rewrite Hroot_pf. done. }
    apply (entries_delete us us1 c f fp pf); try done.
    intros x Hx. rewrite Hfps. by rewrite decide_False. }
  assert (∀ a, a ≠ c → contexts us1 !! a = contexts us !! a) as Hsame.
  { intros a Ha. rewrite Hctxs. case_decide; [|done].
    by rewrite lookup_insert_ne. }
  assert (next ctx1 = next ctx ∧ tous ctx1 = tous ctx
          ∧ ctx_key ctx1 = ctx_key ctx
          ∧ fp_context (fingerprint_root ctx1)
            = fp_context (fingerprint_root ctx)) as (Hn1 & Ht1 & Hk1 & Hs1).
  { rewrite Hctx1_eq. by case_decide. }
  assert (∀ a fla, a ≠ c → fingerprints_of us a fla →
                   fingerprints_of us1 a fla) as Hchains.
  { intros a fla Hac (ca & Hca & Hfla). exists ca. rewrite Hsame by done.
    split; [done|]. apply (entries_ext us); [|done]. intros x Hx.
    destruct (entries_owner _ _ _ _ _ _ Hfla Hx) as (fpx & Hfpx & Hcx).
    destruct (Hkeep x fpx Hfpx) as (fpx' & Hx' & _ & _ & _ & Heq).
    { intros ->. congruence. }
    rewrite Hx', Hfpx. f_equal. apply Heq. congruence. }
  exists fl1, fl2, us1. split; [by exists ctx|]. split.
  { destruct Hwf as (reg & Hreg & Hs & Hl & Hdom).
    split; [|split; [|split]].
    - exists reg. split; [|split; [done|split]].
      + apply (registry_ext us); [done| |done]. intros a _.
        unfold ctx_next, key_at. destruct (decide (a = c)) as [->|Hac].
        * rewrite Hctx1, Hctx. simpl. by rewrite Hn1, Hk1.
        * by rewrite Hsame.
      + unfold linked_registry in *. rewrite Hroot.
        apply (linked_pointwise us); [|done].
        intros a ca fla _ Hca Hfla. destruct (decide (a = c)) as [->|Hac].
        * rewrite Hctx in Hca. injection Hca as <-.
          exists ctx1, (fl1 ++ fl2). done.
        * exists ca, fla. rewrite Hsame by done.
          do 3 (split; [done|]). apply (entries_ext us); [|done].
          intros x Hx.
          destruct (entries_owner _ _ _ _ _ _ Hfla Hx) as (fpx & Hfpx & Hcx).
          destruct (Hkeep x fpx Hfpx) as (fpx' & Hx' & _ & _ & _ & Heq).
          { intros ->. congruence. }
          rewrite Hx', Hfpx. f_equal. apply Heq. congruence.
      + intros a [ca Hca]. apply Hdom.
        destruct (decide (a = c)) as [->|Hac]; [eauto|].
        rewrite Hsame in Hca by done. eauto.
    - intros a ca Hca. destruct (decide (a = c)) as [->|Hac].
      + rewrite Hctx1 in Hca. injection Hca as <-. rewrite Hs1.
        by apply Hsent.
      + rewrite Hsame in Hca by done. by apply Hsent.
    - intros x fpx' Hx'. rewrite Hfps in Hx'.
      destruct (decide (x = f)) as [|Hxf]; [done|].
      destruct (fingerprints us !! x) as [fpx|] eqn:Hx; [|done].
      destruct (Hkeep x fpx Hx Hxf) as (fpx0 & Hx0 & Hb0 & Hc0 & _).
      rewrite Hfps, decide_False, Hx in Hx0 by done.
      rewrite Hx0 in Hx'. injection Hx' as <-.
      destruct (Hown x fpx Hx) as [Hb (flx & (cx & Hcx & Hflx) & Hin)].
      rewrite Hb0, Hc0. split; [done|].
      destruct (decide (fp_context fpx = c)) as [Hxc|Hxc].
      * rewrite Hxc in *. rewrite Hctx in Hcx. injection Hcx as <-.
        assert (flx = fl1 ++ f :: fl2) as ->.
        { apply (fingerprints_of_det us c); by exists ctx. }
        exists (fl1 ++ fl2). split; [by exists ctx1|].
        apply elem_of_app in Hin as [Hin|Hin]; apply elem_of_app;
          [by left|right].
        apply elem_of_cons in Hin as [->|Hin]; done.
      * exists flx. split; [|done]. exists cx. rewrite Hsame by done.
        split; [done|]. apply (entries_ext us); [|done]. intros y Hy.
        destruct (entries_owner _ _ _ _ _ _ Hflx Hy) as (fpy & Hfpy & Hcy).
        destruct (Hkeep y fpy Hfpy) as (fpy' & Hy' & _ & _ & _ & Heq).
        { intros ->. congruence. }
        rewrite Hy', Hfpy. f_equal. apply Heq. congruence.
    - intros x y fpx' fpy' Hx' Hy' Hc' Hb'.
      rewrite Hfps in Hx', Hy'.
      destruct (decide (x = f)) as [|Hxf]; [done|].
      destruct (decide (y = f)) as [|Hyf]; [done|].
      destruct (fingerprints us !! x) as [fpx|] eqn:Hx; [|done].
      destruct (fingerprints us !! y) as [fpy|] eqn:Hy; [|done].
      destruct (Hkeep x fpx Hx Hxf) as (fpx0 & Hx0 & Hbx & Hcx & _).
      destruct (Hkeep y fpy Hy Hyf) as (fpy0 & Hy0 & Hby & Hcy & _).
      rewrite Hfps, decide_False, Hx in Hx0 by done.
      rewrite Hfps, decide_False, Hy in Hy0 by done.
      rewrite Hx0 in Hx'. rewrite Hy0 in Hy'.
      injection Hx' as <-. injection Hy' as <-.
      apply (Hdist x y fpx fpy); congruence. }
  split; [by exists ctx1|]. split; [exact Hchains|]. split.
  { intros a. rewrite Hctxs. destruct (decide (pf = FpRootOf c)) as [Hp|Hp].
    - destruct (decide (a = c)) as [->|Hac].
      + rewrite lookup_insert_eq, Hctx. simpl.
        rewrite decide_True by (split; [done|by apply Hroot_pf]).
        rewrite Hctx1_eq. by rewrite Hnext.
      + rewrite lookup_insert_ne by done. rewrite decide_False by tauto.
        by destruct (contexts us !! a).
    - rewrite decide_False by (rewrite <- Hroot_pf; tauto).
      by destruct (contexts us !! a). }
  split.
  { intros x. rewrite Hfps. destruct (decide (x = f)); [done|].
    destruct (fingerprints us !! x) as [fpx|]; [|done]. simpl. f_equal.
    destruct (decide (head fl2 = Some x)) as [Hh|Hh].
    - rewrite (decide_True (P := fp_next fp = Some (FpNode x)))
        by by apply Hhd.
      destruct (decide (last fl1 = Some x)) as [Hla|Hla].
      + rewrite decide_True by by apply Hpf. by rewrite Hnext.
      + by rewrite decide_False by by rewrite Hpf.
    - rewrite (decide_False (P := fp_next fp = Some (FpNode x)))
        by by rewrite Hhd.
      destruct (decide (last fl1 = Some x)) as [Hla|Hla].
      + rewrite decide_True by by apply Hpf. by rewrite Hnext.
      + by rewrite decide_False by by rewrite Hpf. }
  split; [done|]. split; [done|].
  intros fuel. rewrite Hrun.
  replace (bool_decide (fp_next (fingerprint_root ctx1) = None))
    with (bool_decide (fl1 ++ fl2 = [])); [done|].
  apply bool_decide_ext. split.
  - intros Heq. rewrite Heq in Hfl1. done.
  - intros Heq. destruct (fl1 ++ fl2) as [|g l]; [done|].
    destruct Hfl1 as [Hg _]. congruence.
Qed.

(** ** The operations keep a store coherent *)

Lemma fingerprints_of_update us us' c f a fl :
  keeps_links f → update_ctx c f us = Some us' →
  fingerprints_of us a fl → fingerprints_of us' a fl.
Proof.
  intros Hf Hup (ca & Hca & Hfl).
  apply update_ctx_inv in Hup as (ctx & Hctx & ->).
  destruct (decide (a = c)) as [->|Hac].
  - exists (f ctx). simpl. rewrite lookup_insert_eq. split; [done|].
    rewrite Hctx in Hca. injection Hca as <-.
    destruct (Hf ctx) as (_ & _ & -> & _). by apply (entries_ext us).
  - exists ca. simpl. rewrite lookup_insert_ne by done. split; [done|].
    by apply (entries_ext us).
Qed.

Lemma coherent_update us us' c f :
  driver_assignment f → update_ctx c f us = Some us' →
  coherent us → coherent us'.
Proof.
  intros [Hf Hsf] Hup (Hwf & Hsent & Hown & Hdist).
  split; [by eapply well_formed_update|].
  pose proof (fingerprints_of_update us us' c f) as Hmove.
  apply update_ctx_inv in Hup as Hup'. destruct Hup' as (ctx & Hctx & ->).
  split; [|split].
  - intros a ca Hca. simpl in Hca. destruct (decide (a = c)) as [->|Hac].
    + rewrite lookup_insert_eq in Hca. injection Hca as <-.
      rewrite Hsf. by apply Hsent.
    + rewrite lookup_insert_ne in Hca by done. by apply Hsent.
  - intros x fp Hx. destruct (Hown x fp Hx) as [Hb (fl & Hfl & Hin)].
    split; [done|]. exists fl. split; [|done]. by eapply Hmove.
  - done.
Qed.

Lemma coherent_update_fp us us' f g :
  keeps_entry g → update_fp (FpNode f) g us = Some us' →
  coherent us → coherent us'.
Proof.
  intros Hg Hup (Hwf & Hsent & Hown & Hdist).
  split.
  { eapply well_formed_update_fp; [|exact Hup|done].
    intros fp. destruct (Hg fp) as (? & ? & ? & _).
    repeat split; assumption. }
  unfold update_fp in Hup. bind_inv Hup as fp Hfp. injection Hup as <-.
  assert (∀ x fpx', <[f := g fp]> (fingerprints us) !! x = Some fpx' →
            ∃ fpx, fingerprints us !! x = Some fpx
                   ∧ fp_context fpx' = fp_context fpx
                   ∧ fp_tous fpx' = fp_tous fpx
                   ∧ fp_next fpx' = fp_next fpx
                   ∧ fingerprint fpx' = fingerprint fpx) as Hback.
  { intros x fpx' Hx. destruct (decide (x = f)) as [->|Hxf].
    - rewrite lookup_insert_eq in Hx. injection Hx as <-. exists fp.
      split; [done|]. apply Hg.
    - rewrite lookup_insert_ne in Hx by done. exists fpx'. done. }
  assert (∀ a fl, fingerprints_of us a fl →
            fingerprints_of
              (with_fingerprints (<[f := g fp]> (fingerprints us)) us) a fl)
    as Hmove.
  { intros a fl (ca & Hca & Hfl). exists ca. split; [done|].
    apply (entries_view_ext us); [|done]. intros x fpx _ Hx. simpl.
    destruct (decide (x = f)) as [->|Hxf].
    - rewrite lookup_insert_eq. rewrite Hfp in Hx. injection Hx as <-.
      exists (g fp). destruct (Hg fp) as (? & ? & ? & _).
      repeat split; assumption.
    - rewrite lookup_insert_ne by done. eauto. }
  split; [done|]. split.
  - intros x fpx' Hx. simpl in Hx.
    destruct (Hback x fpx' Hx) as (fpx & Hx0 & Hc & _ & _ & Hb).
    destruct (Hown x fpx Hx0) as [Hb0 (fl & Hfl & Hin)].
    rewrite Hb, Hc. split; [done|]. exists fl. split; [|done].
    by apply Hmove.
  - intros x y fpx' fpy' Hx Hy Hc Hb. simpl in Hx, Hy.
    destruct (Hback x fpx' Hx) as (fpx & Hx0 & Hcx & _ & _ & Hbx).
    destruct (Hback y fpy' Hy) as (fpy & Hy0 & Hcy & _ & _ & Hby).
    apply (Hdist x y fpx fpy); congruence.
Qed.

Lemma created_context_sentinel us u a p curp cur cb data :
  fp_context (fingerprint_root (created_context us u a p curp cur cb data))
  = malloc_context us.
Proof.
  unfold created_context. destruct cb as [f|]; [|done]. by destruct (f _ _).
Qed.

Lemma coherent_find fuel us user acct proto add addedp cb data r ad us' :
  coherent us →
  otrl_context_find fuel us user acct proto add addedp cb data
  = Some (r, ad, us') →
  coherent us'.
Proof.
  intros Hco H. pose proof Hco as (Hwf & Hsent & Hown & Hdist).
  split; [by eapply well_formed_find|].
  destruct Hwf as (reg & Hreg & Hs & Hl & Hdom).
  destruct user as [u|], acct as [a|], proto as [p|];
    try (unfold otrl_context_find in H; by injection H as <- <- <-).
  apply (find_mono _ (fuel + S (length reg))) in H; [|lia].
  destruct (find_spec us reg (fuel + S (length reg)) u a p add addedp cb
              data Hreg Hs)
    as (r' & flag & us1 & reg' & Hfind & Hreg' & Hs' & Hcase); [lia|].
  rewrite Hfind in H. injection H as <- <- <-.
  destruct Hcase as [(_ & _ & _ & -> & _)|[(_ & _ & _ & -> & _)|Hcase]];
    [done..|].
  destruct Hcase as (_ & _ & _ & _ & Hfps & l1 & l2 & -> & -> & Hctx & Hroot).
  pose proof (malloc_context_fresh us) as Hfresh.
  set (new := malloc_context us) in *.
  assert (∀ b cb0, contexts us !! b = Some cb0 →
            ∃ cb', contexts us1 !! b = Some cb'
                   ∧ fingerprint_root cb' = fingerprint_root cb0) as Hold.
  { intros b cb0 Hb. rewrite Hctx. rewrite decide_False by congruence.
    rewrite Hb. simpl. eexists. split; [done|]. by goal_decide. }
  split; [|split].
  - intros b cb' Hb. rewrite Hctx in Hb.
    destruct (decide (b = new)) as [->|Hbn].
    + injection Hb as <-. apply created_context_sentinel.
    + destruct (contexts us !! b) as [cb0|] eqn:Eb; [|done].
      destruct (Hold b cb0 Eb) as (cb1 & Hb1 & Hr1).
      rewrite Hctx, decide_False, Eb in Hb1 by done.
      rewrite Hb1 in Hb. injection Hb as <-. rewrite Hr1. by apply Hsent.
  - intros x fp Hx. rewrite Hfps in Hx.
    destruct (Hown x fp Hx) as [Hb (fl & (cx & Hcx & Hfl) & Hin)].
    split; [done|]. exists fl. split; [|done].
    destruct (Hold _ _ Hcx) as (cx' & Hcx' & Hr').
    exists cx'. split; [done|]. rewrite Hr'.
    apply (entries_ext us); [|done]. intros y _. by rewrite Hfps.
  - intros x y fpx fpy Hx Hy. rewrite Hfps in Hx, Hy. by apply Hdist.
Qed.

(** The scan of [otrl_context_find_fingerprint] ends without a result
    only if no entry of the chain starts with the 20 bytes. *)
Lemma find_fingerprint_scan_none us bytes fuel :
  ∀ fl q,
    chain (fp_next_at us) q fl →
    find_fingerprint_scan fuel us q bytes = Some None →
    ∀ p fp b, p ∈ fl → load_fp us p = Some fp → fingerprint fp = Some b →
              take 20 b ≠ take 20 bytes.
Proof.
  induction fuel as [|fuel IH]; intros fl q Hc Hscan; [done|].
  destruct fl as [|p0 fl].
  { intros p fp b Hp. by apply elem_of_nil in Hp. }
  destruct Hc as [-> (r & Hr & Hc)]. simpl in Hscan.
  unfold fp_next_at in Hr.
  destruct (load_fp us p0) as [fp0|] eqn:Hfp0; [|done]. simpl in *.
  injection Hr as <-.
  destruct (fingerprint fp0) as [buf|] eqn:Hbuf; [|done]. simpl in Hscan.
  unfold memcmp in Hscan. case_decide; [|done]. simpl in Hscan.
  destruct (Z.eqb_spec (bytes_cmp (take 20 buf) (take 20 bytes)) 0)
    as [|Hne]; [done|].
  intros p fp b [->|Hp]%elem_of_cons Hfp Hb.
  - rewrite Hfp0 in Hfp. injection Hfp as <-. rewrite Hbuf in Hb.
    injection Hb as <-. intros Heq. apply Hne. rewrite Heq.
    apply bytes_cmp_refl.
  - by eapply IH.
Qed.

Lemma coherent_find_fingerprint fuel us c bytes add addedp r ad us' :
  coherent us →
  otrl_context_find_fingerprint fuel us c bytes add addedp
  = Some (r, ad, us') →
  coherent us'.
Proof.
  intros Hco H0. pose proof Hco as (Hwf & Hsent & Hown & Hdist).
  split; [by eapply well_formed_find_fingerprint|].
  pose proof H0 as H. unfold otrl_context_find_fingerprint in H.
  bind_inv H as ctx Hctx. bind_inv H as found Hscan.
  destruct found as [p|]; [by injection H as <- <- <-|].
  destruct (Z.eqb_spec add 0) as [|Hadd]; [by injection H as <- <- <-|].
  simpl in H. bind_inv H as buf Hbuf. clear H.
  assert (20 ≤ length bytes) as Hlen.
  { unfold memmove in Hbuf. by case_decide. }
  destruct (well_formed_fingerprints_of us c Hwf) as (fl & ctx' & Hctx' & Hfl);
    [eauto|].
  rewrite Hctx in Hctx'. injection Hctx' as <-.
  destruct (find_fingerprint_create_effect fuel us c ctx bytes add addedp
              Hctx Hscan Hadd Hlen)
    as (us1 & Hfind & Hfps & Hctxs & Hroot & _).
  { intros n Hn. rewrite Hn in Hfl. destruct fl as [|g fl]; [done|].
    destruct Hfl as [[= ->] (fpg & Hg & _)]. eauto. }
  rewrite Hfind in H0. injection H0 as <- <- <-.
  pose proof (malloc_fingerprint_fresh us) as Hfresh.
  set (f := malloc_fingerprint us) in *.
  set (hd := fp_next (fingerprint_root ctx)) in *.
  set (ctx1 := set_fingerprint_root
                 (set_fp_next (Some (FpNode f)) (fingerprint_root ctx)) ctx)
    in *.
  assert (∀ x fpx, fingerprints us !! x = Some fpx →
            ∃ fpx', fingerprints us1 !! x = Some fpx'
                    ∧ fingerprint fpx' = fingerprint fpx
                    ∧ fp_context fpx' = fp_context fpx
                    ∧ (fp_context fpx ≠ c → fpx' = fpx)) as Hkeep.
  { intros x fpx Hx. rewrite Hfps. rewrite decide_False by congruence.
    rewrite Hx. simpl. eexists. split; [done|].
    split; [by goal_decide|]. split; [by goal_decide|]. intros Hxc.
    rewrite decide_False; [done|]. intros Hhd. rewrite Hhd in Hfl.
    destruct fl as [|g fl]; [done|].
    destruct Hfl as [[= <-] (fpg & Hg & Hcg & _)]. congruence. }
  assert (fingerprints_of us1 c (f :: fl)) as Hfl1.
  { exists ctx1. split; [rewrite Hctxs; apply lookup_insert_eq|].
    simpl. split; [done|]. exists (created_entry c bytes hd).
    split; [by rewrite Hfps, decide_True|]. do 2 (split; [done|]). simpl.
    apply (entries_retarget us _ _ (FpRootOf c)); [done|].
    intros x Hx. rewrite Hfps. rewrite decide_False; [done|].
    intros ->. destruct (entries_owner _ _ _ _ _ _ Hfl Hx) as (? & ? & _).
    congruence. }
  assert (∀ a fla, a ≠ c → fingerprints_of us a fla →
                   fingerprints_of us1 a fla) as Hother.
  { intros a fla Hac (ca & Hca & Hfla). exists ca. rewrite Hctxs.
    rewrite lookup_insert_ne by done. split; [done|].
    apply (entries_ext us); [|done]. intros x Hx.
    destruct (entries_owner _ _ _ _ _ _ Hfla Hx) as (fpx & Hfpx & Hox).
    destruct (Hkeep x fpx Hfpx) as (fpx' & Hx' & _ & _ & Heq).
    rewrite Hx', Hfpx. f_equal. apply Heq. congruence. }
  assert (length (take 20 bytes) = 20) as Htake.
  { rewrite length_take. lia. }
  split; [|split].
  - intros a ca Hca. rewrite Hctxs in Hca.
    destruct (decide (a = c)) as [->|Hac].
    + rewrite lookup_insert_eq in Hca. injection Hca as <-. simpl.
      by apply Hsent.
    + rewrite lookup_insert_ne in Hca by done. by apply Hsent.
  - intros x fpx' Hx'. destruct (decide (x = f)) as [->|Hxf].
    + rewrite Hfps, decide_True in Hx' by done. injection Hx' as <-. simpl.
      split; [eauto|]. exists (f :: fl). split; [done|].
      apply list_elem_of_here.
    + rewrite Hfps, decide_False in Hx' by done.
      destruct (fingerprints us !! x) as [fpx|] eqn:Hx; [|done].
      destruct (Hkeep x fpx Hx) as (fpx0 & Hx0 & Hb0 & Hc0 & _).
      rewrite Hfps, decide_False, Hx in Hx0 by done.
      rewrite Hx0 in Hx'. injection Hx' as <-. rewrite Hb0, Hc0.
      destruct (Hown x fpx Hx) as [Hb (flx & Hflx & Hin)].
      split; [done|].
      destruct (decide (fp_context fpx = c)) as [Hxc|Hxc].
      * rewrite Hxc in *. exists (f :: fl). split; [done|].
        rewrite (fingerprints_of_det us c fl flx); [|by exists ctx|done].
        by apply list_elem_of_further.
      * exists flx. split; [|done]. by apply Hother.
  - assert (∀ x fpx, x ≠ f → fingerprints us !! x = Some fpx →
              fp_context fpx = c →
              fingerprint fpx ≠ Some (take 20 bytes)) as Hnew.
    { intros x fpx Hxf Hx Hxc Hb.
      destruct (Hown x fpx Hx) as [(b & Hb' & Hbl) (flx & Hflx & Hin)].
      rewrite Hxc in Hflx.
      rewrite <- (fingerprints_of_det us c fl flx) in Hin;
        [|by exists ctx|done].
      apply entries_chain in Hfl.
      eapply (find_fingerprint_scan_none us bytes fuel _ _ Hfl Hscan
                (FpNode x) fpx b); [|done|done|].
      - apply list_elem_of_fmap. by exists x.
      - rewrite Hb in Hb'. injection Hb' as <-. rewrite take_ge; [done|].
        rewrite length_take. lia. }
    intros x y fpx' fpy' Hx' Hy' Hc' Hb'.
    destruct (decide (x = f)) as [->|Hxf], (decide (y = f)) as [->|Hyf];
      [done| | |].
    + exfalso. rewrite Hfps, decide_True in Hx' by done. injection Hx' as <-.
      rewrite Hfps, decide_False in Hy' by done.
      destruct (fingerprints us !! y) as [fpy|] eqn:Hy; [|done].
      destruct (Hkeep y fpy Hy) as (fpy0 & Hy0 & Hby & Hcy & _).
      rewrite Hfps, decide_False, Hy in Hy0 by done.
      rewrite Hy0 in Hy'. injection Hy' as <-. simpl in *.
      apply (Hnew y fpy Hyf Hy); congruence.
    + exfalso. rewrite Hfps, decide_True in Hy' by done. injection Hy' as <-.
      rewrite Hfps, decide_False in Hx' by done.
      destruct (fingerprints us !! x) as [fpx|] eqn:Hx; [|done].
      destruct (Hkeep x fpx Hx) as (fpx0 & Hx0 & Hbx & Hcx & _).
      rewrite Hfps, decide_False, Hx in Hx0 by done.
      rewrite Hx0 in Hx'. injection Hx' as <-. simpl in *.
      apply (Hnew x fpx Hxf Hx); congruence.
    + rewrite Hfps, decide_False in Hx' by done.
      rewrite Hfps, decide_False in Hy' by done.
      destruct (fingerprints us !! x) as [fpx|] eqn:Hx; [|done].
      destruct (fingerprints us !! y) as [fpy|] eqn:Hy; [|done].
      destruct (Hkeep x fpx Hx) as (fpx0 & Hx0 & Hbx & Hcx & _).
      destruct (Hkeep y fpy Hy) as (fpy0 & Hy0 & Hby & Hcy & _).
      rewrite Hfps, decide_False, Hx in Hx0 by done.
      rewrite Hfps, decide_False, Hy in Hy0 by done.
      rewrite Hx0 in Hx'. rewrite Hy0 in Hy'.
      injection Hx' as <-. injection Hy' as <-.
      apply (Hdist x y fpx fpy); congruence.
Qed.

Lemma coherent_registry us : coherent us → ∃ reg, registry us reg.
Proof. intros ((reg & Hreg & _) & _). eauto. Qed.

Lemma coherent_forget fuel c us us' :
  coherent us → otrl_context_forget fuel c us = Some us' → coherent us'.
Proof.
  intros Hco H. destruct fuel as [|fuel]; [done|].
  destruct (contexts us !! c) as [ctx|] eqn:Hctx;
    [|simpl in H; by rewrite Hctx in H].
  destruct (decide (state ctx = CONN_UNCONNECTED)) as [Hst|Hst].
  - destruct (coherent_registry us Hco) as [reg Hreg].
    destruct (forget_spec us reg c ctx Hco Hreg Hctx Hst)
      as (l1 & k & l2 & fl & us1 & _ & _ & Hrun & Hco1 & _).
    destruct (forget_family_mono (S fuel)) as (_ & Hm & _).
    apply (Hm (S fuel + (length fl + 2))) in H; [|lia].
    rewrite Hrun in H by lia. by injection H as <-.
  - simpl in H. rewrite Hctx in H. simpl in H.
    rewrite bool_decide_eq_true_2 in H by done. by injection H as <-.
Qed.

Lemma coherent_forget_fingerprint fuel p amc us us' :
  coherent us →
  otrl_context_forget_fingerprint fuel p amc us = Some us' →
  coherent us'.
Proof.
  intros Hco H. pose proof Hco as (Hwf & Hsent & Hown & Hdist).
  destruct fuel as [|fuel]; [done|]. destruct p as [c0|f].
  - simpl in H. unfold load_fp in H.
    destruct (contexts us !! c0) as [ctx0|] eqn:Hctx0; [|done]. simpl in H.
    rewrite (Hsent c0 ctx0 Hctx0) in H. rewrite Hctx0 in H. simpl in H.
    rewrite decide_True in H by done.
    destruct (bool_decide (state ctx0 = CONN_UNCONNECTED) && negb (amc =? 0)%Z).
    + by eapply coherent_forget.
    + by injection H as <-.
  - destruct (fingerprints us !! f) as [fp|] eqn:Hfp; cycle 1.
    { simpl in H. unfold load_fp in H. by rewrite Hfp in H. }
    destruct (Hown f fp Hfp) as [_ (fl & (ctx & Hctx & _) & _)].
    destruct (decide (state ctx = CONN_CONNECTED
                      ∧ active_fingerprint ctx = Some (FpNode f)))
      as [[Hst Hact]|Hmay].
    + simpl in H. unfold load_fp in H. rewrite Hfp in H. simpl in H.
      rewrite Hctx in H. simpl in H.
      rewrite bool_decide_eq_false_2 in H by (intros ?; done).
      rewrite bool_decide_eq_false_2 in H by (intros ?; done).
      simpl in H. by injection H as <-.
    + destruct (forget_fingerprint_spec us f fp _ ctx amc Hco Hfp eq_refl Hctx)
        as (fl1 & fl2 & us1 & _ & Hco1 & _ & _ & _ & _ & _ & _ & Hrun).
      { destruct (decide (state ctx = CONN_CONNECTED)); [|by left].
        right. intros ?. by apply Hmay. }
      rewrite Hrun in H.
      destruct (bool_decide (state ctx = CONN_UNCONNECTED)
                && bool_decide (fl1 ++ fl2 = []) && negb (amc =? 0)%Z).
      * by eapply coherent_forget.
      * by injection H as <-.
Qed.

Lemma coherent_force_setup c us us' :
  coherent us → otrl_context_force_setup c us = Some us' → coherent us'.
Proof.
  intros Hco H. unfold otrl_context_force_setup in H.
  eapply coherent_update; [|exact H|done]. split; by intros ctx.
Qed.

Lemma coherent_force_disconnect c us us' :
  coherent us → otrl_context_force_disconnect c us = Some us' → coherent us'.
Proof.
  intros Hco H. unfold otrl_context_force_disconnect in H.
  bind_inv H as us1 E1. apply coherent_force_setup in E1; [|done].
  eapply coherent_update; [|exact H|done]. split; by intros ctx.
Qed.

Lemma coherent_forget_all fuel :
  ∀ us us', coherent us → otrl_context_forget_all fuel us = Some us' →
            coherent us'.
Proof.
  induction fuel as [|fuel IH]; intros us us' Hco H; [done|]. simpl in H.
  destruct (context_root us) as [c|]; [|by injection H as <-].
  bind_inv H as us1 E1. bind_inv H as us2 E2.
  apply coherent_force_disconnect in E1; [|done].
  apply coherent_forget in E2; [|done]. by eapply IH.
Qed.

Lemma coherent_empty : coherent empty_userstate.
Proof. split; [apply well_formed_empty|]. done. Qed.

Lemma coherent_call c us us' :
  run_call c us = Some us' → coherent us → coherent us'.
Proof.
  intros Hrun Hco. destruct c; simpl in Hrun.
  - apply fmap_Some in Hrun as ([[r ad] us1] & Hrun & ->).
    by eapply coherent_find.
  - apply fmap_Some in Hrun as ([[r ad] us1] & Hrun & ->).
    by eapply coherent_find_fingerprint.
  - destruct fprint as [[c|f]|]; [| |by injection Hrun as <-].
    + eapply coherent_update; [|exact Hrun|done]. split; by intros ctx.
    + eapply coherent_update_fp; [|exact Hrun|done]. by intros fp.
  - unfold otrl_context_set_preshared_secret in Hrun.
    bind_inv Hrun as us1 E1.
    eapply coherent_update in E1; [| |done]; [|split; by intros ctx].
    destruct (secret_len =? 0)%N; [by injection Hrun as <-|].
    destruct malloc_ok; [|by injection Hrun as <-].
    bind_inv Hrun as src Hsrc. bind_inv Hrun as buf Hbuf.
    eapply coherent_update; [|exact Hrun|done]. split; by intros ctx.
  - by eapply coherent_force_setup.
  - by eapply coherent_force_disconnect.
  - by eapply coherent_forget_fingerprint.
  - by eapply coherent_forget.
  - by eapply coherent_forget_all.
Qed.

Lemma reachable_coherent us : reachable us → coherent us.
Proof.
  induction 1 as [|us c us' _ IH Hrun|us c f us' _ IH Hf Hup].
  - apply coherent_empty.
  - by eapply coherent_call.
  - by eapply coherent_update.
Qed.

(** ** Forgetting everything *)

Lemma force_disconnect_keeps us c ctx :
  contexts us !! c = Some ctx →
  ∃ ctx1,
    otrl_context_force_disconnect c us
    = Some (with_contexts (<[c := ctx1]> (contexts us)) us)
    ∧ state ctx1 = CONN_UNCONNECTED
    ∧ ctx_key ctx1 = ctx_key ctx
    ∧ next ctx1 = next ctx
    ∧ destructor_call ctx1 = destructor_call ctx.
Proof.
  intros Hctx. unfold otrl_context_force_disconnect, otrl_context_force_setup.
  rewrite (update_ctx_Some _ _ _ _ Hctx). simpl.
  erewrite update_ctx_Some; [|simpl; apply lookup_insert_eq]. simpl.
  rewrite insert_insert_eq. eexists. split; [reflexivity|]. done.
Qed.

Lemma coherent_no_contexts us :
  coherent us → registry us [] →
  context_root us = None ∧ contexts us = ∅ ∧ fingerprints us = ∅.
Proof.
  intros (Hwf & _ & Hown & _) Hreg.
  destruct Hwf as (reg & Hreg' & _ & _ & Hdom).
  rewrite (registry_det _ _ _ Hreg' Hreg) in Hdom.
  assert (contexts us = ∅) as Hctxs.
  { apply map_eq. intros a. rewrite lookup_empty.
    destruct (contexts us !! a) eqn:Ea; [|done].
    assert (a ∈ ([] : list addr)) as Hin by (apply Hdom; eauto).
    by apply elem_of_nil in Hin. }
  split; [by destruct Hreg as [Hc _]|]. split; [done|].
  apply map_eq. intros x. rewrite lookup_empty.
  destruct (fingerprints us !! x) as [fp|] eqn:Ex; [|done].
  destruct (Hown x fp Ex) as [_ (fl & (ctx & Hctx & _) & _)].
  by rewrite Hctxs in Hctx.
Qed.

Lemma destructor_calls_ext us us' l :
  (∀ a, a ∈ l →
        destructor_call <$> contexts us' !! a
        = destructor_call <$> contexts us !! a) →
  destructor_calls us' l = destructor_calls us l.
Proof.
  unfold destructor_calls. induction l as [|a l IH]; intros H; [done|].
  rewrite !bind_cons.
  rewrite IH by (intros b Hb; by apply H, list_elem_of_further).
  f_equal. specialize (H a (list_elem_of_here _ _)).
  destruct (contexts us' !! a), (contexts us !! a); simpl in *; congruence.
Qed.

(** [otrl_context_forget_all] on a coherent store. *)
Lemma forget_all_spec :
  ∀ reg us,
    coherent us → registry us reg →
    ∃ fuel0,
      ∀ fuel, fuel0 ≤ fuel →
        otrl_context_forget_all fuel us
        = Some {| context_root := None; contexts := ∅; fingerprints := ∅;
                  app_data_freed
                  := app_data_freed us ++ destructor_calls us reg.*1 |}.
Proof.
  induction reg as [|[c k] reg IH]; intros us Hco Hreg.
  - destruct (coherent_no_contexts us Hco Hreg) as (Hroot & Hctxs & Hfps).
    exists 1. intros [|fuel] Hf; [lia|]. simpl. rewrite Hroot.
    f_equal. destruct us as [r cs fs fr]. simpl in *. subst.
    by rewrite app_nil_r.
  - pose proof Hreg as [Hchain Hkeys]. unfold context_list in Hchain.
    simpl in Hchain. destruct Hchain as [Hroot _].
    apply Forall_cons in Hkeys as [Hk _]. simpl in Hk.
    apply key_at_Some in Hk as (ctx & Hctx & _).
    destruct (force_disconnect_keeps us c ctx Hctx)
      as (ctx1 & Hdis & Hst1 & Hk1 & Hn1 & Hd1).
    set (us1 := with_contexts (<[c := ctx1]> (contexts us)) us) in *.
    assert (coherent us1) as Hco1 by by eapply coherent_force_disconnect.
    assert (registry us1 ((c, k) :: reg)) as Hreg1.
    { apply (registry_ext us); [done| |done]. intros a _.
      unfold ctx_next, key_at. simpl. destruct (decide (a = c)) as [->|Hac].
      - rewrite lookup_insert_eq, Hctx. simpl. by rewrite Hn1, Hk1.
      - by rewrite lookup_insert_ne. }
    assert (contexts us1 !! c = Some ctx1) as Hctx1 by apply lookup_insert_eq.
    destruct (forget_spec us1 _ c ctx1 Hco1 Hreg1 Hctx1 Hst1)
      as (l1 & k' & l2 & fl & us2 & Hsplit & _ & Hrun & Hco2 & Hreg2 & _
          & Hctxs2 & _ & Hfreed2).
    destruct l1 as [|[c' kc] l1]; cycle 1.
    { exfalso. injection Hsplit as <- <- Hsplit.
      destruct Hreg1 as [Hchain1 _]. apply chain_NoDup in Hchain1.
      rewrite Hsplit in Hchain1. simpl in Hchain1.
      apply NoDup_cons in Hchain1 as [Hnin _]. apply Hnin.
      rewrite fmap_app, fmap_cons. apply elem_of_app. right.
      apply list_elem_of_here. }
    simpl in *. injection Hsplit as <- <-.
    destruct (IH us2 Hco2 Hreg2) as [fuel0 Hall].
    exists (S (fuel0 + length fl + 2)). intros [|fuel] Hf; [lia|].
    simpl. rewrite Hroot, Hdis. simpl. fold us1.
    rewrite Hrun by lia. simpl. rewrite Hall by lia. f_equal. f_equal.
    rewrite Hfreed2. simpl. rewrite <- app_assoc. f_equal.
    fold (destructor_call ctx1). rewrite Hd1, Hctx. simpl.
    f_equal. apply (destructor_calls_ext us us2). intros a Ha.
    assert (a ≠ c) as Hac.
    { intros ->. destruct Hreg as [Hchain _]. apply chain_NoDup in Hchain.
      simpl in Hchain. by apply NoDup_cons in Hchain as [? _]. }
    rewrite Hctxs2, decide_False by done. simpl.
    rewrite lookup_insert_ne by done.
    destruct (contexts us !! a) as [ca|]; [|done]. simpl. f_equal.
    by goal_decide.
Qed.

(** ** Lookups in a coherent store *)


Lemma coherent_sorted us reg :
  coherent us → registry us reg → StronglySorted ident_lt reg.*2.
Proof.
  intros ((reg' & Hreg' & Hs & _) & _) Hreg.
  by rewrite <- (registry_det _ _ _ Hreg' Hreg).
Qed.

Lemma store_eq us us' :
  context_root us = context_root us' →
  contexts us = contexts us' →
  fingerprints us = fingerprints us' →
  app_data_freed us = app_data_freed us' →
  us = us'.
Proof. destruct us, us'. simpl. by intros -> -> -> ->. Qed.

Lemma registry_root us reg : registry us reg → context_root us = head reg.*1.
Proof. intros [Hc _]. by apply chain_head in Hc. Qed.

Lemma coherent_real_entries us c fl :
  coherent us → fingerprints_of us c fl →
  Forall (real_entry us) (FpNode <$> fl).
Proof.
  intros (_ & _ & Hown & _) (ctx & Hctx & Hfl).
  apply Forall_fmap, Forall_forall. intros g Hg. simpl.
  destruct (entries_owner _ _ _ _ _ _ Hfl Hg) as (fg & Hfg & _).
  destruct (Hown g fg Hfg) as [(b & Hb & Hlen) _]. by exists g, fg, b.
Qed.

(** [otrl_context_find_fingerprint] as a lookup by context and bytes in a
    coherent store. *)
Lemma find_fingerprint_lookup us c fl bytes fuel addedp :
  coherent us →
  fingerprints_of us c fl →
  length bytes = 20 →
  length fl < fuel →
  (∃ g fg, g ∈ fl ∧ fingerprints us !! g = Some fg
           ∧ fp_context fg = c
           ∧ fingerprint fg = Some bytes
           ∧ ∀ add,
               otrl_context_find_fingerprint fuel us c bytes add addedp
               = Some (Some (FpNode g),
                       match addedp with Some _ => Some 0%Z | None => None end,
                       us))
  ∨ ((∀ g fg, fingerprints us !! g = Some fg → fp_context fg = c →
              fingerprint fg ≠ Some bytes)
     ∧ otrl_context_find_fingerprint fuel us c bytes 0 addedp
       = Some (None, match addedp with Some _ => Some 0%Z | None => None end,
               us)).
Proof.
  intros Hco Hfl Hlen Hf.
  pose proof (coherent_real_entries us c fl Hco Hfl) as Hreal.
  pose proof Hco as (_ & _ & Hown & _).
  pose proof Hfl as (ctx & Hctx & Hent).
  pose proof (entries_chain _ _ _ _ _ Hent) as Hchain.
  destruct (find_fingerprint_scan_spec us bytes Hlen (FpNode <$> fl) fuel _
              Hchain Hreal) as [(p & Hscan & Hin & Hm)|[Hscan Hnone]].
  { by rewrite length_fmap. }
  - left. apply list_elem_of_fmap in Hin as (g & -> & Hin).
    destruct Hm as (fg & Hfg & Hb). exists g, fg. do 2 (split; [done|]).
    split.
    { destruct (entries_owner _ _ _ _ _ _ Hent Hin) as (fg' & Hfg' & Hc).
      unfold load_fp in Hfg. congruence. }
    split; [done|]. intros add. unfold otrl_context_find_fingerprint. rewrite Hctx. simpl.
    by rewrite Hscan.
  - right. split.
    + intros g fg Hfg Hc Hb.
      destruct (Hown g fg Hfg) as [_ (flg & Hflg & Hin)]. rewrite Hc in Hflg.
      rewrite <- (fingerprints_of_det _ _ _ _ Hfl Hflg) in Hin.
      apply (Hnone (FpNode g)).
      * apply list_elem_of_fmap. by exists g.
      * by exists fg.
    + unfold otrl_context_find_fingerprint. rewrite Hctx. simpl.
      by rewrite Hscan.
Qed.

(** What a call of [otrl_context_find_fingerprint] changes in a coherent
    store. *)
Lemma find_fingerprint_effect us c bytes fuel add addedp r ad us' :
  coherent us →
  otrl_context_find_fingerprint fuel us c bytes add addedp
  = Some (r, ad, us') →
  (add = 0%Z → us' = us)
  ∧ (∀ reg, registry us reg → registry us' reg)
  ∧ app_data_freed us' = app_data_freed us
  ∧ (∀ a ca, contexts us !! a = Some ca →
             ∃ ca', contexts us' !! a = Some ca'
                    ∧ ca' = set_fingerprint_root
                              (set_fp_next (fp_next (fingerprint_root ca'))
                                 (fingerprint_root ca)) ca)
  ∧ (∀ a, contexts us !! a = None → contexts us' !! a = None)
  ∧ (∀ x e, fingerprints us !! x = Some e →
            ∃ e', fingerprints us' !! x = Some e'
                  ∧ same_entry_but_links e e')
  ∧ (∀ a fla, a ≠ c → fingerprints_of us a fla → fingerprints_of us' a fla)
  ∧ ∃ fl,
      fingerprints_of us c fl
      ∧ ((us' = us ∧ ad = match addedp with Some _ => Some 0%Z | None => None end)
         ∨ ∃ new, r = Some (FpNode new)
                  ∧ ad = match addedp with Some _ => Some 1%Z | None => None end
                  ∧ fingerprints us !! new = None
                  ∧ fingerprints_of us' c (new :: fl)).
Proof.
  intros Hr H0.
  pose proof Hr as (Hwf & Hsent & Hown & Hdist).
  pose proof H0 as H. unfold otrl_context_find_fingerprint in H.
  bind_inv H as ctx Hctx. bind_inv H as found Hscan.
  destruct (well_formed_fingerprints_of us c Hwf) as (fl & Hfl); [eauto|].
  assert (us' = us
          ∧ ad = match addedp with Some _ => Some 0%Z | None => None end →
          (add = 0%Z → us' = us)
          ∧ (∀ reg, registry us reg → registry us' reg)
          ∧ app_data_freed us' = app_data_freed us
          ∧ (∀ a ca, contexts us !! a = Some ca →
                     ∃ ca', contexts us' !! a = Some ca'
                            ∧ ca' = set_fingerprint_root
                                      (set_fp_next
                                         (fp_next (fingerprint_root ca'))
                                         (fingerprint_root ca)) ca)
          ∧ (∀ a, contexts us !! a = None → contexts us' !! a = None)
          ∧ (∀ x e, fingerprints us !! x = Some e →
                    ∃ e', fingerprints us' !! x = Some e'
                          ∧ same_entry_but_links e e')
          ∧ (∀ a fla, a ≠ c → fingerprints_of us a fla →
                      fingerprints_of us' a fla)
          ∧ ∃ fl,
              fingerprints_of us c fl
              ∧ ((us' = us
                  ∧ ad = match addedp with
                         | Some _ => Some 0%Z
                         | None => None
                         end)
                 ∨ ∃ new, r = Some (FpNode new)
                          ∧ ad = match addedp with
                                 | Some _ => Some 1%Z
                                 | None => None
                                 end
                          ∧ fingerprints us !! new = None
                          ∧ fingerprints_of us' c (new :: fl))) as Hsame.
  { intros [-> ->]. do 3 (split; [done|]). split.
    { intros a ca Ha. exists ca. split; [done|].
      by rewrite set_fp_next_id, set_fingerprint_root_id. }
    split; [done|]. split.
    { intros x e He. exists e. split; [done|]. by destruct e. }
    split; [done|]. exists fl. split; [done|]. by left. }
  destruct found as [p|]; [injection H as <- <- <-; by apply Hsame|].
  destruct (Z.eqb_spec add 0) as [|Hadd];
    [injection H as <- <- <-; by apply Hsame|].
  clear Hsame. simpl in H. bind_inv H as buf Hbuf. clear H.
  assert (20 ≤ length bytes) as Hlen.
  { unfold memmove in Hbuf. by case_decide. }
  pose proof Hfl as (ctx' & Hctx' & Hent).
  rewrite Hctx in Hctx'. injection Hctx' as <-.
  destruct (find_fingerprint_create_effect fuel us c ctx bytes add addedp
              Hctx Hscan Hadd Hlen)
    as (us1 & Hfind & Hfps & Hctxs & Hroot & Hfreed).
  { intros n Hn. rewrite Hn in Hent. destruct fl as [|g fl]; [done|].
    destruct Hent as [[= ->] (fpg & Hg & _)]. eauto. }
  rewrite Hfind in H0. injection H0 as <- <- <-.
  pose proof (malloc_fingerprint_fresh us) as Hfresh.
  set (new := malloc_fingerprint us) in *.
  set (hd := fp_next (fingerprint_root ctx)) in *.
  assert (∀ x fpx, fingerprints us !! x = Some fpx →
            ∃ fpx', fingerprints us1 !! x = Some fpx'
                    ∧ same_entry_but_links fpx fpx'
                    ∧ (fp_context fpx ≠ c → fpx' = fpx)) as Hkeep.
  { intros x fpx Hx. rewrite Hfps. rewrite decide_False by congruence.
    rewrite Hx. simpl. eexists. split; [done|]. split.
    { unfold same_entry_but_links. destruct fpx. by goal_decide. }
    intros Hxc. rewrite decide_False; [done|]. intros Hhd. rewrite Hhd in Hent.
    destruct fl as [|g fl]; [done|].
    destruct Hent as [[= <-] (fpg & Hg & Hcg & _)]. congruence. }
  split; [done|]. split.
  { intros reg Hreg. apply (registry_ext us); [done| |done]. intros a _.
    unfold ctx_next, key_at. rewrite Hctxs.
    destruct (decide (a = c)) as [->|Hac].
    - by rewrite lookup_insert_eq, Hctx.
    - by rewrite lookup_insert_ne. }
  split; [done|]. split.
  { intros a ca Ha. rewrite Hctxs. destruct (decide (a = c)) as [->|Hac].
    - rewrite lookup_insert_eq. rewrite Hctx in Ha. injection Ha as <-.
      eexists. split; [done|]. done.
    - rewrite lookup_insert_ne by done. exists ca. split; [done|].
      by rewrite set_fp_next_id, set_fingerprint_root_id. }
  split.
  { intros a Ha. rewrite Hctxs. rewrite lookup_insert_ne; [done|].
    congruence. }
  split.
  { intros x e He. destruct (Hkeep x e He) as (e' & He' & Hs & _). eauto. }
  split.
  { intros a fla Hac (ca & Hca & Hfla). exists ca. rewrite Hctxs.
    rewrite lookup_insert_ne by done. split; [done|].
    apply (entries_ext us); [|done]. intros x Hx.
    destruct (entries_owner _ _ _ _ _ _ Hfla Hx) as (fpx & Hfpx & Hox).
    destruct (Hkeep x fpx Hfpx) as (fpx' & Hx' & _ & Heq).
    rewrite Hx', Hfpx. f_equal. apply Heq. congruence. }
  exists fl. split; [done|]. right. exists new. do 3 (split; [done|]).
  eexists. split; [rewrite Hctxs; apply lookup_insert_eq|].
  simpl. split; [done|]. exists (created_entry c bytes hd).
  split; [by rewrite Hfps, decide_True|]. do 2 (split; [done|]). simpl.
  apply (entries_retarget us _ _ (FpRootOf c)); [done|].
  intros x Hx. rewrite Hfps. rewrite decide_False; [done|].
  intros ->. destruct (entries_owner _ _ _ _ _ _ Hent Hx) as (? & ? & _).
  congruence.
Qed.



(** ** The active fingerprint *)

Lemma same_but_links_fields c c' :
  same_but_links c c' →
  state c' = state c
  ∧ active_fingerprint c' = active_fingerprint c
  ∧ fingerprint_root c' = fingerprint_root c.
Proof. unfold same_but_links. intros ->. done. Qed.

Lemma same_but_links_refl c : same_but_links c c.
Proof. unfold same_but_links. by destruct c. Qed.

Lemma reachable_with_care_reachable us :
  reachable_with_care us → reachable us.
Proof.
  induction 1 as [|us c us' _ IH Hrun|us c f us' _ IH [Hf _] Hup].
  - apply reachable_start.
  - by eapply reachable_call.
  - by eapply reachable_driver.
Qed.

(** A step keeps [active_ok] if every context that is in a private
    conversation after it was so before, with the same active
    fingerprint, and that fingerprint is still on the chain. *)
Lemma active_ok_transfer us us' :
  active_ok us →
  (∀ c ctx',
     contexts us' !! c = Some ctx' → state ctx' = CONN_CONNECTED →
     ∃ ctx,
       contexts us !! c = Some ctx
       ∧ state ctx = CONN_CONNECTED
       ∧ active_fingerprint ctx = active_fingerprint ctx'
       ∧ ∀ f fl, active_fingerprint ctx = Some (FpNode f) →
                 fingerprints_of us c fl → f ∈ fl →
                 ∃ fl', fingerprints_of us' c fl' ∧ f ∈ fl') →
  active_ok us'.
Proof.
  intros Hok Hstep c ctx' p Hctx' Hst Hact.
  destruct (Hstep c ctx' Hctx' Hst) as (ctx & Hctx & Hst0 & Hact0 & Hfl).
  rewrite <- Hact0 in Hact.
  destruct (Hok c ctx p Hctx Hst0 Hact) as (f & fl & -> & Hfl0 & Hin).
  destruct (Hfl f fl Hact Hfl0 Hin) as (fl' & Hfl' & Hin').
  by exists f, fl'.
Qed.

Lemma active_ok_update us us' c f :
  keeps_links f →
  (∀ ctx, state (f ctx) = CONN_CONNECTED →
          state ctx = CONN_CONNECTED
          ∧ active_fingerprint (f ctx) = active_fingerprint ctx) →
  update_ctx c f us = Some us' →
  active_ok us → active_ok us'.
Proof.
  intros Hf Hst Hup Hok. apply (active_ok_transfer us); [done|].
  pose proof (fingerprints_of_update us us' c f) as Hmove.
  apply update_ctx_inv in Hup as Hup'. destruct Hup' as (ctx & Hctx & ->).
  intros a ca' Ha Hsa. simpl in Ha. destruct (decide (a = c)) as [->|Hac].
  - rewrite lookup_insert_eq in Ha. injection Ha as <-.
    destruct (Hst ctx Hsa) as [Hs Ha]. exists ctx.
    split; [done|]. split; [done|]. split; [done|].
    intros g fl _ Hfl Hin. exists fl. split; [|done]. by eapply Hmove.
  - rewrite lookup_insert_ne in Ha by done. exists ca'.
    do 3 (split; [done|]).
    intros g fl _ Hfl Hin. exists fl. split; [|done]. by eapply Hmove.
Qed.

Lemma fingerprints_of_update_fp us us' f g a fl :
  keeps_entry g → update_fp (FpNode f) g us = Some us' →
  fingerprints_of us a fl → fingerprints_of us' a fl.
Proof.
  intros Hg Hup (ca & Hca & Hfl).
  unfold update_fp in Hup. bind_inv Hup as fp Hfp. injection Hup as <-.
  exists ca. split; [done|].
  apply (entries_view_ext us); [|done]. intros x fpx _ Hx. simpl.
  destruct (decide (x = f)) as [->|Hxf].
  - rewrite lookup_insert_eq. rewrite Hfp in Hx. injection Hx as <-.
    exists (g fp). destruct (Hg fp) as (? & ? & ? & _).
    repeat split; assumption.
  - rewrite lookup_insert_ne by done. eauto.
Qed.

Lemma active_ok_update_fp us us' f g :
  keeps_entry g → update_fp (FpNode f) g us = Some us' →
  active_ok us → active_ok us'.
Proof.
  intros Hg Hup Hok. apply (active_ok_transfer us); [done|].
  intros a ca' Ha Hsa. exists ca'. split.
  { unfold update_fp in Hup. bind_inv Hup as fp Hfp.
    by injection Hup as <-. }
  do 2 (split; [done|]). intros x fl _ Hfl Hin. exists fl.
  split; [|done]. by eapply fingerprints_of_update_fp.
Qed.

Lemma active_ok_find fuel us user acct proto add addedp cb data r ad us' :
  coherent us → active_ok us →
  otrl_context_find fuel us user acct proto add addedp cb data
  = Some (r, ad, us') →
  active_ok us'.
Proof.
  intros Hco Hok H. pose proof Hco as (Hwf & _).
  destruct Hwf as (reg & Hreg & Hs & Hl & Hdom).
  destruct user as [u|], acct as [a|], proto as [p|];
    try (unfold otrl_context_find in H; by injection H as <- <- <-).
  apply (find_mono _ (fuel + S (length reg))) in H; [|lia].
  destruct (find_spec us reg (fuel + S (length reg)) u a p add addedp cb
              data Hreg Hs)
    as (r' & flag & us1 & reg' & Hfind & Hreg' & Hs' & Hcase); [lia|].
  rewrite Hfind in H. injection H as <- <- <-.
  destruct Hcase as [(_ & _ & _ & -> & _)|[(_ & _ & _ & -> & _)|Hcase]];
    [done..|].
  destruct Hcase as (_ & _ & _ & _ & Hfps & l1 & l2 & -> & -> & Hctx & Hroot).
  pose proof (malloc_context_fresh us) as Hfresh.
  set (new := malloc_context us) in *.
  apply (active_ok_transfer us); [done|].
  intros b cb' Hb Hsb. rewrite Hctx in Hb.
  destruct (decide (b = new)) as [->|Hbn].
  { injection Hb as <-. exfalso. unfold created_context in Hsb.
    destruct cb as [f|]; [|done]. by destruct (f _ _). }
  destruct (contexts us !! b) as [cb0|] eqn:Eb; [|done]. simpl in Hb.
  injection Hb as <-. exists cb0. split; [done|].
  split; [revert Hsb; by goal_decide|]. split; [by goal_decide|].
  intros g fl _ (cx & Hcx & Hfl) Hin. exists fl. split; [|done].
  rewrite Eb in Hcx. injection Hcx as <-. eexists. split.
  { rewrite Hctx, decide_False, Eb by done. simpl. reflexivity. }
  replace (fp_next (fingerprint_root _))
    with (fp_next (fingerprint_root cb0)) by by goal_decide.
  apply (entries_ext us); [|done]. intros y _. by rewrite Hfps.
Qed.

Lemma set_root_next_fields ca ca' :
  ca' = set_fingerprint_root
          (set_fp_next (fp_next (fingerprint_root ca')) (fingerprint_root ca))
          ca →
  state ca' = state ca ∧ active_fingerprint ca' = active_fingerprint ca.
Proof. intros ->. done. Qed.

Lemma active_ok_find_fingerprint fuel us c bytes add addedp r ad us' :
  coherent us → active_ok us →
  otrl_context_find_fingerprint fuel us c bytes add addedp
  = Some (r, ad, us') →
  active_ok us'.
Proof.
  intros Hco Hok H.
  destruct (find_fingerprint_effect us c bytes fuel add addedp r ad us' Hco H)
    as (_ & _ & _ & Hctxs & Hnone & _ & Hchains & fl & Hfl & Hcase).
  apply (active_ok_transfer us); [done|].
  intros a ca' Ha Hsa.
  destruct (contexts us !! a) as [ca|] eqn:Ea;
    [|by rewrite (Hnone a Ea) in Ha].
  destruct (Hctxs a ca Ea) as (ca'' & Ha' & Heq).
  rewrite Ha in Ha'. injection Ha' as <-.
  destruct (set_root_next_fields _ _ Heq) as [Hs' Ha'].
  exists ca. split; [done|]. split; [congruence|]. split; [done|].
  intros g fla _ Hfla Hin. destruct (decide (a = c)) as [->|Hac].
  - rewrite <- (fingerprints_of_det _ _ _ _ Hfl Hfla) in Hin.
    destruct Hcase as [[-> _]|(new & _ & _ & _ & Hfl')].
    + by exists fl.
    + exists (new :: fl). split; [done|]. by apply list_elem_of_further.
  - exists fla. split; [|done]. by apply Hchains.
Qed.

Lemma active_ok_forget fuel c us us' :
  coherent us → active_ok us →
  otrl_context_forget fuel c us = Some us' → active_ok us'.
Proof.
  intros Hco Hok H. destruct fuel as [|fuel]; [done|].
  destruct (contexts us !! c) as [ctx|] eqn:Hctx;
    [|simpl in H; by rewrite Hctx in H].
  destruct (decide (state ctx = CONN_UNCONNECTED)) as [Hst|Hst]; cycle 1.
  { simpl in H. rewrite Hctx in H. simpl in H.
    rewrite bool_decide_eq_true_2 in H by done. by injection H as <-. }
  destruct (coherent_registry us Hco) as [reg Hreg].
  destruct (forget_spec us reg c ctx Hco Hreg Hctx Hst)
    as (l1 & k & l2 & fl & us1 & _ & _ & Hrun & _ & _ & Hchains & Hctxs & _).
  destruct (forget_family_mono (S fuel)) as (_ & Hm & _).
  apply (Hm (S fuel + (length fl + 2))) in H; [|lia].
  rewrite Hrun in H by lia. injection H as <-.
  apply (active_ok_transfer us); [done|].
  intros a ca' Ha Hsa. rewrite Hctxs in Ha.
  destruct (decide (a = c)) as [|Hac]; [done|].
  destruct (contexts us !! a) as [ca|] eqn:Ea; [|done]. simpl in Ha.
  injection Ha as <-. exists ca. split; [done|].
  split; [revert Hsa; by goal_decide|]. split; [by goal_decide|].
  intros g fla _ Hfla Hin. exists fla. split; [|done]. by apply Hchains.
Qed.

Lemma active_ok_forget_fingerprint fuel p amc us us' :
  coherent us → active_ok us →
  otrl_context_forget_fingerprint fuel p amc us = Some us' →
  active_ok us'.
Proof.
  intros Hco Hok H. pose proof Hco as (Hwf & Hsent & Hown & Hdist).
  destruct fuel as [|fuel]; [done|]. destruct p as [c0|f].
  - simpl in H. unfold load_fp in H.
    destruct (contexts us !! c0) as [ctx0|] eqn:Hctx0; [|done]. simpl in H.
    rewrite (Hsent c0 ctx0 Hctx0) in H. rewrite Hctx0 in H. simpl in H.
    rewrite decide_True in H by done.
    destruct (bool_decide (state ctx0 = CONN_UNCONNECTED) && negb (amc =? 0)%Z).
    + by eapply active_ok_forget.
    + by injection H as <-.
  - destruct (fingerprints us !! f) as [fp|] eqn:Hfp; cycle 1.
    { simpl in H. unfold load_fp in H. by rewrite Hfp in H. }
    destruct (Hown f fp Hfp) as [_ (fl & (ctx & Hctx & _) & _)].
    destruct (decide (state ctx = CONN_CONNECTED
                      ∧ active_fingerprint ctx = Some (FpNode f)))
      as [[Hst Hact]|Hmay].
    + simpl in H. unfold load_fp in H. rewrite Hfp in H. simpl in H.
      rewrite Hctx in H. simpl in H.
      rewrite bool_decide_eq_false_2 in H by (intros ?; done).
      rewrite bool_decide_eq_false_2 in H by (intros ?; done).
      simpl in H. by injection H as <-.
    + destruct (forget_fingerprint_spec us f fp _ ctx amc Hco Hfp eq_refl Hctx)
        as (fl1 & fl2 & us1 & Hfl & Hco1 & Hfl1 & Hchains & Hctxs & _ & _ & _
            & Hrun).
      { destruct (decide (state ctx = CONN_CONNECTED)); [|by left].
        right. intros ?. by apply Hmay. }
      assert (active_ok us1) as Hok1.
      { apply (active_ok_transfer us); [done|].
        intros a ca' Ha Hsa. rewrite Hctxs in Ha.
        destruct (contexts us !! a) as [ca|] eqn:Ea; [|done]. simpl in Ha.
        injection Ha as <-. exists ca. split; [done|].
        split; [revert Hsa; by goal_decide|]. split; [by goal_decide|].
        intros g fla Hact Hfla Hin.
        destruct (decide (a = fp_context fp)) as [->|Hac].
        - rewrite <- (fingerprints_of_det _ _ _ _ Hfl Hfla) in Hin.
          exists (fl1 ++ fl2). split; [done|].
          rewrite Hctx in Ea. injection Ea as <-.
          assert (g ≠ f) as Hgf.
          { intros ->. apply Hmay. split; [|done].
            revert Hsa. by goal_decide. }
          apply elem_of_app in Hin as [Hin|[->|Hin]%elem_of_cons];
            apply elem_of_app; [by left|done|by right].
        - exists fla. split; [|done]. by apply Hchains. }
      rewrite Hrun in H.
      destruct (bool_decide (state ctx = CONN_UNCONNECTED)
                && bool_decide (fl1 ++ fl2 = []) && negb (amc =? 0)%Z).
      * by eapply active_ok_forget.
      * by injection H as <-.
Qed.

Lemma active_ok_force_setup c us us' :
  active_ok us → otrl_context_force_setup c us = Some us' → active_ok us'.
Proof.
  intros Hok H. unfold otrl_context_force_setup in H.
  eapply active_ok_update; [| |exact H|done]; by intros ctx.
Qed.

Lemma active_ok_force_disconnect c us us' :
  active_ok us → otrl_context_force_disconnect c us = Some us' →
  active_ok us'.
Proof.
  intros Hok H. unfold otrl_context_force_disconnect in H.
  bind_inv H as us1 E1. apply active_ok_force_setup in E1; [|done].
  eapply active_ok_update; [| |exact H|done]; by intros ctx.
Qed.

Lemma active_ok_forget_all fuel :
  ∀ us us', coherent us → active_ok us →
            otrl_context_forget_all fuel us = Some us' → active_ok us'.
Proof.
  induction fuel as [|fuel IH]; intros us us' Hco Hok H; [done|]. simpl in H.
  destruct (context_root us) as [c|]; [|by injection H as <-].
  bind_inv H as us1 E1. bind_inv H as us2 E2.
  pose proof (coherent_force_disconnect _ _ _ Hco E1) as Hco1.
  apply active_ok_force_disconnect in E1; [|done].
  pose proof (coherent_forget _ _ _ _ Hco1 E2) as Hco2.
  apply active_ok_forget in E2; [|done..]. by eapply IH.
Qed.

Lemma active_ok_call c us us' :
  coherent us → active_ok us → run_call c us = Some us' → active_ok us'.
Proof.
  intros Hco Hok Hrun. destruct c; simpl in Hrun.
  - apply fmap_Some in Hrun as ([[r ad] us1] & Hrun & ->).
    by eapply active_ok_find.
  - apply fmap_Some in Hrun as ([[r ad] us1] & Hrun & ->).
    by eapply active_ok_find_fingerprint.
  - destruct fprint as [[c|f]|]; [| |by injection Hrun as <-].
    + eapply active_ok_update; [| |exact Hrun|done]; by intros ctx.
    + eapply active_ok_update_fp; [|exact Hrun|done]. by intros fp.
  - unfold otrl_context_set_preshared_secret in Hrun.
    bind_inv Hrun as us1 E1.
    eapply active_ok_update in E1; [| | |done]; [|by intros ctx..].
    destruct (secret_len =? 0)%N; [by injection Hrun as <-|].
    destruct malloc_ok; [|by injection Hrun as <-].
    bind_inv Hrun as src Hsrc. bind_inv Hrun as buf Hbuf.
    eapply active_ok_update; [| |exact Hrun|done]; by intros ctx.
  - by eapply active_ok_force_setup.
  - by eapply active_ok_force_disconnect.
  - by eapply active_ok_forget_fingerprint.
  - by eapply active_ok_forget.
  - by eapply active_ok_forget_all.
Qed.

Lemma with_care_active_ok us : reachable_with_care us → active_ok us.
Proof.
  induction 1 as [|us c us' Hr IH Hrun|us c f us' Hr IH [[Hf Hsf] Hcare] Hup].
  - intros c ctx p Hctx. done.
  - eapply active_ok_call; [|done|done].
    by apply reachable_coherent, reachable_with_care_reachable.
  - pose proof (λ a fl, fingerprints_of_update us us' c f a fl Hf Hup)
      as Hmove.
    apply update_ctx_inv in Hup as Hup'. destruct Hup' as (ctx & Hctx & ->).
    intros a ca' p Ha Hsa Hact. simpl in Ha.
    destruct (decide (a = c)) as [->|Hac].
    + rewrite lookup_insert_eq in Ha. injection Ha as <-.
      destruct (Hcare ctx p Hctx Hsa Hact) as (g & fl & -> & Hfl & Hin).
      exists g, fl. split; [done|]. split; [|done]. by apply Hmove.
    + rewrite lookup_insert_ne in Ha by done.
      destruct (IH a ca' p Ha Hsa Hact) as (g & fl & -> & Hfl & Hin).
      exists g, fl. split; [done|]. split; [|done]. by apply Hmove.
Qed.

(** ** The sample stores *)

Lemma reachable_run_calls cs :
  ∀ us us', reachable us → run_calls cs us = Some us' → reachable us'.
Proof.
  unfold run_calls. induction cs as [|c cs IH] using rev_ind;
    intros us us' Hr H.
  - simpl in H. by injection H as <-.
  - rewrite foldl_app in H. simpl in H. bind_inv H as us1 H1.
    eapply reachable_call; [|exact H]. by eapply IH.
Qed.

Lemma reachable_sample_registry : reachable sample_registry.
Proof.
  apply (reachable_run_calls sample_calls empty_userstate);
    [apply reachable_start|]. vm_compute. reflexivity.
Qed.

Lemma reachable_sample_private : reachable sample_private.
Proof.
  eapply (reachable_driver sample_registry 2
            (set_state CONN_CONNECTED (Some (FpNode 3)))).
  - apply reachable_sample_registry.
  - split; by intros c.
  - vm_compute. reflexivity.
Qed.

Lemma with_care_run_calls cs :
  ∀ us us', reachable_with_care us → run_calls cs us = Some us' →
            reachable_with_care us'.
Proof.
  unfold run_calls. induction cs as [|c cs IH] using rev_ind;
    intros us us' Hr H.
  - simpl in H. by injection H as <-.
  - rewrite foldl_app in H. simpl in H. bind_inv H as us1 H1.
    eapply with_care_call; [|exact H]. by eapply IH.
Qed.

(** Solves a goal about a sample store by evaluation. *)
Ltac by_evaluation :=
  repeat (hnf; match goal with
               | |- _ ∧ _ => split
               | |- ∃ _, _ => eexists
               end);
  vm_compute; first [ reflexivity | done ].

Example sample_registry_shape :
  context_root sample_registry = Some 2%positive
  ∧ key_at sample_registry 2 = Some ("alice", "me", "xmpp")
  ∧ key_at sample_registry 1 = Some ("bob", "me", "xmpp")
  ∧ dom (fingerprints sample_registry) = {[ 1%positive; 2%positive; 3%positive ]}.
Proof. vm_compute. done. Qed.


Lemma registry_sample_registry :
  registry sample_registry
    [(2%positive, ("alice", "me", "xmpp")); (1%positive, ("bob", "me", "xmpp"))].
Proof. split; [by_evaluation|repeat constructor]. Qed.

Lemma registry_sample_private :
  registry sample_private
    [(2%positive, ("alice", "me", "xmpp")); (1%positive, ("bob", "me", "xmpp"))].
Proof.
  split.
  - split; [vm_compute; reflexivity|]. eexists.
    split; [vm_compute; reflexivity|].
    split; [vm_compute; reflexivity|]. eexists.
    split; vm_compute; reflexivity.
  - repeat constructor.
Qed.

Lemma fingerprints_of_sample_alice :
  fingerprints_of sample_registry 2 [3%positive].
Proof. by_evaluation. Qed.

Lemma fingerprints_of_sample_bob :
  fingerprints_of sample_registry 1 [2%positive; 1%positive].
Proof.
  eexists. split; [vm_compute; reflexivity|].
  split; [vm_compute; reflexivity|]. eexists.
  split; [vm_compute; reflexivity|]. split; [vm_compute; reflexivity|].
  split; [vm_compute; reflexivity|].
  split; [vm_compute; reflexivity|]. eexists.
  split; [vm_compute; reflexivity|]. split; [vm_compute; reflexivity|].
  split; [vm_compute; reflexivity|]. vm_compute. reflexivity.
Qed.

Lemma fingerprints_of_private_bob :
  fingerprints_of sample_private 1 [2%positive; 1%positive].
Proof. by_evaluation. Qed.

Lemma with_care_sample_private : reachable_with_care sample_private.
Proof.
  eapply (with_care_driver sample_registry 2
            (set_state CONN_CONNECTED (Some (FpNode 3)))).
  - apply (with_care_run_calls sample_calls empty_userstate);
      [apply with_care_start|]. vm_compute. reflexivity.
  - split; [split; by intros c|].
    intros ctx p _ _ [= <-]. exists 3%positive, [3%positive].
    split; [done|]. split; [apply fingerprints_of_sample_alice|].
    apply list_elem_of_here.
  - vm_compute. reflexivity.
Qed.

(** ** Reachable stores *)

(** X1: in every store reached from the empty one by calls of the
    operations of context.c, whatever their arguments, and by assignments
    of the driver, the contexts hanging off the root are sorted by
    identity, all [next] and [tous] links of contexts and entries are in
    place, the allocated contexts are exactly the ones of that list, every
    sentinel points back to its context, and the allocated entries are
    exactly the ones on the fingerprint chains of these contexts. *)
Theorem reachable_store_shape us :
  reachable us →
  ∃ reg,
    registry us reg
    ∧ StronglySorted ident_lt reg.*2
    ∧ linked_registry us reg.*1
    ∧ (∀ a, is_Some (contexts us !! a) ↔ a ∈ reg.*1)
    ∧ (∀ a ctx, contexts us !! a = Some ctx →
                fp_context (fingerprint_root ctx) = a)
    ∧ (∀ f, is_Some (fingerprints us !! f)
            ↔ ∃ a fl, a ∈ reg.*1 ∧ fingerprints_of us a fl ∧ f ∈ fl).
Proof.
  intros Hr. apply reachable_coherent in Hr as (Hwf & Hsent & Hown & _).
  destruct Hwf as (reg & Hreg & Hs & Hl & Hdom).
  exists reg. do 3 (split; [done|]). split; [|split; [done|]].
  - intros a. split; [apply Hdom|]. intros Ha.
    destruct (linked_lookup _ _ _ _ _ Hl Ha) as (ctx & _ & Hctx & _). eauto.
  - intros f. split.
    + intros [fp Hfp].
      destruct (Hown f fp Hfp) as [_ (fl & Hfl & Hin)].
      exists (fp_context fp), fl. split; [|done].
      destruct Hfl as (ctx & Hctx & _). apply Hdom. eauto.
    + intros (a & fl & _ & (ctx & _ & Hfl) & Hin).
      destruct (entries_owner _ _ _ _ _ _ Hfl Hin) as (fp & Hfp & _). eauto.
Qed.

Lemma reachable_store_shape_witness :
  ∃ reg, registry sample_private reg ∧ StronglySorted ident_lt reg.*2.
Proof.
  destruct (reachable_store_shape sample_private reachable_sample_private)
    as (reg & Hreg & Hs & _).
  exists reg. split; [exact Hreg|exact Hs].
Defined.

(** X2: in every reachable store, each entry of a fingerprint chain
    points back to the context of the chain and holds 20 bytes, and no two
    entries of the chain hold the same bytes. *)
Theorem fingerprint_chain_distinct us c fl :
  reachable us →
  fingerprints_of us c fl →
  NoDup fl
  ∧ (∀ f, f ∈ fl →
          ∃ fp b, fingerprints us !! f = Some fp
                  ∧ fp_context fp = c
                  ∧ fingerprint fp = Some b ∧ length b = 20)
  ∧ (∀ f g fp fg,
       f ∈ fl → g ∈ fl →
       fingerprints us !! f = Some fp → fingerprints us !! g = Some fg →
       fingerprint fp = fingerprint fg → f = g).
Proof.
  intros Hr (ctx & Hctx & Hfl).
  apply reachable_coherent in Hr as (_ & _ & Hown & Hdist).
  split; [by eapply entries_NoDup|]. split.
  - intros f Hf.
    destruct (entries_owner _ _ _ _ _ _ Hfl Hf) as (fp & Hfp & Hc).
    destruct (Hown f fp Hfp) as [(b & Hb & Hlen) _]. by exists fp, b.
  - intros f g fp fg Hf Hg Hfp Hfg Hb.
    destruct (entries_owner _ _ _ _ _ _ Hfl Hf) as (fp' & Hfp' & Hc).
    destruct (entries_owner _ _ _ _ _ _ Hfl Hg) as (fg' & Hfg' & Hc').
    apply (Hdist f g fp fg); congruence.
Qed.

Lemma fingerprint_chain_distinct_witness :
  NoDup [2%positive; 1%positive]
  ∧ ∀ f, f ∈ [2%positive; 1%positive] →
         ∃ fp b, fingerprints sample_registry !! f = Some fp
                 ∧ fp_context fp = 1%positive
                 ∧ fingerprint fp = Some b ∧ length b = 20.
Proof.
  destruct (fingerprint_chain_distinct sample_registry 1
              [2%positive; 1%positive] reachable_sample_registry
              fingerprints_of_sample_bob) as (Hnd & Hb & _).
  split; [exact Hnd|exact Hb].
Defined.



(** ** Lookup and creation in reachable stores *)

(** X4: on a sorted registry, [otrl_context_find] without
    [add_if_missing] is a pure lookup: it leaves the store as it is, sets
    [*addedp] to 0, and returns the context that carries the triple if
    there is one in the registry, and NULL if there is none. *)
Theorem find_without_add us reg fuel u a p addedp cb data :
  registry us reg →
  StronglySorted ident_lt reg.*2 →
  length reg < fuel →
  ∃ r,
    otrl_context_find fuel us (Some u) (Some a) (Some p) 0 addedp cb data
    = Some (r, match addedp with Some _ => Some 0%Z | None => None end, us)
    ∧ (∀ b, r = Some b ↔ (b, (u, a, p)) ∈ reg)
    ∧ (r = None ↔ (u, a, p) ∉ reg.*2).
Proof.
  intros Hreg Hs Hf.
  destruct (find_spec us reg fuel u a p 0 addedp cb data Hreg Hs Hf)
    as (r & flag & us' & reg' & Hfind & _ & _ & Hcase).
  destruct Hcase as [(b & Hin & -> & -> & -> & ->)
                    |[(Hnin & _ & -> & -> & -> & ->)|(_ & ? & _)]];
    [| |done].
  - exists (Some b). split; [done|]. split.
    + intros b'. split; [by intros [= <-]|]. intros Hin'.
      f_equal. by eapply sorted_keys_unique.
    + split; [done|]. intros Hnin. exfalso. apply Hnin.
      apply list_elem_of_fmap. by exists (b, (u, a, p)).
  - exists None. split; [done|]. split; [|done].
    intros b. split; [done|]. intros Hin. exfalso. apply Hnin.
    apply list_elem_of_fmap. by exists (b, (u, a, p)).
Qed.

Lemma find_without_add_witness :
  ∃ r,
    otrl_context_find 3 sample_private (Some "bob") (Some "me") (Some "xmpp")
      0 (Some 9%Z) None None
    = Some (r, Some 0%Z, sample_private)
    ∧ (∀ b, r = Some b
            ↔ (b, ("bob", "me", "xmpp"))
              ∈ [(2%positive, ("alice", "me", "xmpp"));
                 (1%positive, ("bob", "me", "xmpp"))]).
Proof.
  destruct (find_without_add sample_private _ 3 "bob" "me" "xmpp" (Some 9%Z)
              None None registry_sample_private)
    as (r & Hfind & Hr & _).
  - repeat constructor.
  - simpl. lia.
  - exists r. split; [exact Hfind|exact Hr].
Defined.



(** X6: what a call of [otrl_context_find_fingerprint] that returns, in a
    reachable store, leaves alone: the registry, the record of destructor
    calls, every context but for the sentinel's [next], every entry but
    for its links, and the fingerprint chain of every other context.
    Without [add_if_missing] the whole store is as before.  The chain of
    the context itself is as before or has grown, at its head, by one
    entry that was not allocated before and is the one returned. *)
Theorem find_fingerprint_frame us c bytes fuel add addedp r ad us' :
  reachable us →
  otrl_context_find_fingerprint fuel us c bytes add addedp
  = Some (r, ad, us') →
  (add = 0%Z → us' = us)
  ∧ (∀ reg, registry us reg → registry us' reg)
  ∧ app_data_freed us' = app_data_freed us
  ∧ (∀ a ca, contexts us !! a = Some ca →
             ∃ ca', contexts us' !! a = Some ca'
                    ∧ ca' = set_fingerprint_root
                              (set_fp_next (fp_next (fingerprint_root ca'))
                                 (fingerprint_root ca)) ca)
  ∧ (∀ a, contexts us !! a = None → contexts us' !! a = None)
  ∧ (∀ x e, fingerprints us !! x = Some e →
            ∃ e', fingerprints us' !! x = Some e'
                  ∧ same_entry_but_links e e')
  ∧ (∀ a fla, a ≠ c → fingerprints_of us a fla → fingerprints_of us' a fla)
  ∧ ∃ fl,
      fingerprints_of us c fl
      ∧ ((us' = us ∧ ad = match addedp with Some _ => Some 0%Z | None => None end)
         ∨ ∃ new, r = Some (FpNode new)
                  ∧ ad = match addedp with Some _ => Some 1%Z | None => None end
                  ∧ fingerprints us !! new = None
                  ∧ fingerprints_of us' c (new :: fl)).
Proof.
  intros Hr H0. apply reachable_coherent in Hr.
  by eapply find_fingerprint_effect.
Qed.

Lemma find_fingerprint_frame_witness :
  ∃ new us',
    otrl_context_find_fingerprint 2 sample_private 2 (replicate 20 x05) 1 None
    = Some (Some (FpNode new), None, us')
    ∧ app_data_freed us' = app_data_freed sample_private
    ∧ ∀ reg, registry sample_private reg → registry us' reg.
Proof.
  assert (∃ new us',
            otrl_context_find_fingerprint 2 sample_private 2
              (replicate 20 x05) 1 None
            = Some (Some (FpNode new), None, us'))
    as (new & us' & E) by by_evaluation.
  destruct (find_fingerprint_frame sample_private 2 (replicate 20 x05) 2 1
              None (Some (FpNode new)) None us' reachable_sample_private E)
    as (_ & Hreg & Hfreed & _).
  exists new, us'. split; [exact E|]. split; [exact Hfreed|exact Hreg].
Defined.

(** ** Trust labels and secrets *)





(** ** Releasing entries *)

(** X9: in a reachable store, [otrl_context_forget_fingerprint] on an
    entry, unless it is the active one of a context in a private
    conversation, takes the entry out of the chain of its context, whose
    other entries keep their order, and releases it.  Every other entry is
    as it was but for its links; every context is as it was but for the
    sentinel's [next]; the chains of the other contexts, the registry and
    the record of destructor calls are as before.  The context is then
    handed to [otrl_context_forget] exactly if it is unconnected, has no
    entry left and [and_maybe_context] is set. *)
Theorem forget_fingerprint_unlinks us f fp ctx amc :
  reachable us →
  fingerprints us !! f = Some fp →
  contexts us !! fp_context fp = Some ctx →
  state ctx ≠ CONN_CONNECTED ∨ active_fingerprint ctx ≠ Some (FpNode f) →
  ∃ fl1 fl2 us1,
    fingerprints_of us (fp_context fp) (fl1 ++ f :: fl2)
    ∧ fingerprints_of us1 (fp_context fp) (fl1 ++ fl2)
    ∧ fingerprints us1 !! f = None
    ∧ (∀ x e, x ≠ f → fingerprints us !! x = Some e →
              ∃ e', fingerprints us1 !! x = Some e'
                    ∧ same_entry_but_links e e')
    ∧ (∀ x, fingerprints us !! x = None → fingerprints us1 !! x = None)
    ∧ (∀ a ca, contexts us !! a = Some ca →
               ∃ ca', contexts us1 !! a = Some ca'
                      ∧ ca' = set_fingerprint_root
                                (set_fp_next (fp_next (fingerprint_root ca'))
                                   (fingerprint_root ca)) ca)
    ∧ (∀ a, contexts us !! a = None → contexts us1 !! a = None)
    ∧ (∀ a fla, a ≠ fp_context fp → fingerprints_of us a fla →
                fingerprints_of us1 a fla)
    ∧ (∀ reg, registry us reg → registry us1 reg)
    ∧ app_data_freed us1 = app_data_freed us
    ∧ ∀ fuel,
        otrl_context_forget_fingerprint (S fuel) (FpNode f) amc us
        = if bool_decide (state ctx = CONN_UNCONNECTED)
             && bool_decide (fl1 ++ fl2 = [])
             && negb (amc =? 0)%Z
          then otrl_context_forget fuel (fp_context fp) us1
          else Some us1.
Proof.
  intros Hr Hfp Hctx Hmay. apply reachable_coherent in Hr.
  destruct (forget_fingerprint_spec us f fp _ ctx amc Hr Hfp eq_refl Hctx Hmay)
    as (fl1 & fl2 & us1 & Hfl & Hco1 & Hfl1 & Hchains & Hctxs & Hfps & Hroot
        & Hfreed & Hrun).
  exists fl1, fl2, us1. split; [done|]. split; [done|].
  split; [by rewrite Hfps, decide_True|]. split.
  { intros x e Hx He. rewrite Hfps, decide_False, He by done. simpl.
    eexists. split; [done|]. unfold same_entry_but_links. destruct e.
    by goal_decide. }
  split.
  { intros x Hx. rewrite Hfps, Hx. by destruct (decide (x = f)). }
  assert (∀ a ca, contexts us !! a = Some ca →
            ∃ ca', contexts us1 !! a = Some ca'
                   ∧ ca' = set_fingerprint_root
                             (set_fp_next (fp_next (fingerprint_root ca'))
                                (fingerprint_root ca)) ca) as Hkeep.
  { intros a ca Ha. rewrite Hctxs, Ha. simpl. eexists. split; [done|].
    destruct (decide (a = fp_context fp ∧ fl1 = [])) as [[-> _]|Hd].
    - rewrite Hctx in Ha. by injection Ha as <-.
    - unfold id. by rewrite set_fp_next_id, set_fingerprint_root_id. }
  split; [done|]. split.
  { intros a Ha. by rewrite Hctxs, Ha. }
  split; [exact Hchains|].
  split; [|done].
  intros reg Hreg. apply (registry_ext us); [done| |done]. intros a _.
  unfold ctx_next, key_at. rewrite Hctxs.
  destruct (contexts us !! a) as [ca|]; [|done]. simpl.
  by goal_decide.
Qed.

Lemma forget_fingerprint_unlinks_witness :
  ∃ us1,
    otrl_context_forget_fingerprint 1 (FpNode 2) 1 sample_private = Some us1
    ∧ fingerprints us1 !! 2%positive = None
    ∧ fingerprints_of us1 1 [1%positive].
Proof.
  assert (∃ fp ctx, fingerprints sample_private !! 2%positive = Some fp
                    ∧ fp_context fp = 1%positive
                    ∧ contexts sample_private !! fp_context fp = Some ctx
                    ∧ state ctx ≠ CONN_CONNECTED)
    as (fp & ctx & Hfp & Hc & Hctx & Hst) by by_evaluation.
  destruct (forget_fingerprint_unlinks sample_private 2 fp ctx 1
              reachable_sample_private Hfp Hctx (or_introl Hst))
    as (fl1 & fl2 & us1 & Hfl & Hfl1 & Hgone & _ & _ & _ & _ & _ & _ & _
        & Hrun).
  rewrite Hc in Hfl, Hfl1.
  pose proof (fingerprints_of_det _ _ _ _ Hfl fingerprints_of_private_bob)
    as Heq.
  destruct fl1 as [|x fl1]; cycle 1.
  { exfalso. injection Heq as -> Heq. destruct fl1 as [|y fl1].
    - injection Heq as Heq _. discriminate.
    - injection Heq as _ Heq. by destruct fl1. }
  injection Heq as ->. exists us1. split; [|split; [exact Hgone|exact Hfl1]].
  rewrite Hrun.
  rewrite (bool_decide_eq_false_2 ([] ++ [1%positive] = [])) by done.
  by rewrite andb_false_r.
Defined.

(** X10: how [and_maybe_context] lets [otrl_context_forget_fingerprint]
    take the context along, in a reachable store.  On the sentinel of a
    context the call is [otrl_context_forget] on the context if the context
    is unconnected and [and_maybe_context] is set, and does nothing
    otherwise.  On the only entry of an unconnected context, with
    [and_maybe_context] set, the call returns, and with the store that
    [otrl_context_forget] on the context leaves. *)
Theorem forget_fingerprint_and_context us c ctx :
  reachable us →
  contexts us !! c = Some ctx →
  (∀ amc fuel,
     otrl_context_forget_fingerprint (S fuel) (FpRootOf c) amc us
     = if bool_decide (state ctx = CONN_UNCONNECTED) && negb (amc =? 0)%Z
       then otrl_context_forget fuel c us
       else Some us)
  ∧ (∀ f amc,
       fingerprints_of us c [f] →
       state ctx = CONN_UNCONNECTED →
       amc ≠ 0%Z →
       ∃ us',
         (∀ fuel, 2 < fuel →
            otrl_context_forget_fingerprint fuel (FpNode f) amc us = Some us')
         ∧ (∀ fuel, 2 < fuel → otrl_context_forget fuel c us = Some us')).
Proof.
  intros Hr Hctx. apply reachable_coherent in Hr.
  pose proof Hr as (Hwf & Hsent & Hown & Hdist). split.
  { intros amc fuel. simpl. unfold load_fp. rewrite Hctx. simpl.
    rewrite (Hsent c ctx Hctx), Hctx. simpl. by rewrite decide_True. }
  intros f amc Hfl Hst Hamc.
  pose proof Hfl as (ctx' & Hctx' & Hent).
  rewrite Hctx in Hctx'. injection Hctx' as <-.
  destruct Hent as [Hhd (fp & Hfp & Hc & Ht & Hnx)]. simpl in Hnx.
  destruct (forget_fingerprint_spec us f fp c ctx amc Hr Hfp Hc Hctx)
    as (fl1 & fl2 & us1 & Hfl' & Hco1 & Hfl1 & _ & Hctxs1 & Hfps1 & Hroot1
        & Hfreed1 & Hrun1).
  { left. by rewrite Hst. }
  pose proof (fingerprints_of_det _ _ _ _ Hfl Hfl') as Heq.
  destruct fl1 as [|x fl1]; cycle 1.
  { destruct fl1; simpl in Heq; congruence. }
  simpl in Heq. injection Heq as <-. simpl in Hfl1, Hctxs1, Hfps1.
  destruct (coherent_registry us Hr) as [reg Hreg].
  assert (c ∈ reg.*1) as Hin.
  { destruct Hwf as (reg0 & Hreg0 & _ & _ & Hdom).
    rewrite <- (registry_det _ _ _ Hreg0 Hreg). apply Hdom. eauto. }
  destruct (registry_split _ _ _ Hreg Hin) as (l1 & k & l2 & -> & _).
  set (ctx1 := set_fingerprint_root
                 (set_fp_next None (fingerprint_root ctx)) ctx).
  assert (∀ a, contexts us1 !! a
               = if decide (a = c) then Some ctx1 else contexts us !! a)
    as Hctxs1'.
  { intros a. rewrite Hctxs1. destruct (decide (a = c)) as [->|Hac].
    - rewrite decide_True by done. by rewrite Hctx.
    - rewrite decide_False by tauto. by destruct (contexts us !! a). }
  assert (registry us1 (l1 ++ (c, k) :: l2)) as Hreg1.
  { apply (registry_ext us); [done| |done]. intros a _.
    unfold ctx_next, key_at. rewrite Hctxs1'.
    destruct (decide (a = c)) as [->|]; [|done]. by rewrite Hctx. }
  assert (contexts us1 !! c = Some ctx1) as Hctx1.
  { by rewrite Hctxs1', decide_True. }
  destruct (forget_spec_at us1 l1 c k l2 ctx1 Hco1 Hreg1 Hctx1 Hst)
    as (fl2 & us2 & Hfl2 & Hrun2 & _ & Hreg2 & _ & Hctxs2 & Hfps2 & Hfreed2).
  rewrite <- (fingerprints_of_det _ _ _ _ Hfl1 Hfl2) in *. clear Hfl2.
  destruct (forget_spec_at us l1 c k l2 ctx Hr Hreg Hctx Hst)
    as (fl3 & us3 & Hfl3 & Hrun3 & _ & Hreg3 & _ & Hctxs3 & Hfps3 & Hfreed3).
  rewrite <- (fingerprints_of_det _ _ _ _ Hfl Hfl3) in *. clear Hfl3.
  assert (us2 = us3) as <-.
  { apply store_eq.
    - by rewrite (registry_root _ _ Hreg2), (registry_root _ _ Hreg3).
    - apply map_eq. intros a. rewrite Hctxs2, Hctxs3, Hctxs1'.
      destruct (decide (a = c)); done.
    - apply map_eq. intros x. rewrite Hfps2, Hfps3, Hfps1. simpl.
      destruct (decide (x = f)) as [->|Hxf].
      + by rewrite decide_True by apply list_elem_of_here.
      + rewrite decide_False.
        2:{ by intros ->%list_elem_of_singleton. }
        by destruct (fingerprints us !! x).
    - by rewrite Hfreed2, Hfreed3, Hfreed1. }
  exists us2. split; [|intros fuel Hf; apply Hrun3; simpl; lia].
  intros [|fuel] Hf; [lia|]. rewrite Hrun1.
  rewrite (bool_decide_eq_true_2 _ Hst).
  rewrite (bool_decide_eq_true_2 ([] ++ [] = [])) by done.
  apply Z.eqb_neq in Hamc. rewrite Hamc. simpl. apply Hrun2. simpl. lia.
Qed.

Lemma forget_fingerprint_and_context_witness :
  ∃ us',
    otrl_context_forget_fingerprint 3 (FpNode 3) 1 sample_registry = Some us'
    ∧ otrl_context_forget 3 2 sample_registry = Some us'.
Proof.
  assert (∃ ctx, contexts sample_registry !! 2%positive = Some ctx
                 ∧ state ctx = CONN_UNCONNECTED)
    as (ctx & Hctx & Hst) by by_evaluation.
  destruct (forget_fingerprint_and_context sample_registry 2 ctx
              reachable_sample_registry Hctx) as [_ H].
  destruct (H 3%positive 1%Z fingerprints_of_sample_alice Hst)
    as (us' & Hfp & Hforget); [done|].
  exists us'. split; [apply Hfp; lia|apply Hforget; lia].
Defined.

(** X11: in a reachable store, once [otrl_context_forget_fingerprint]
    (without [and_maybe_context]) has released an entry, a lookup of its
    bytes in its context finds nothing, and a lookup of the bytes of any
    other entry of the context returns that entry. *)
Theorem forget_fingerprint_then_find us f fp ctx b fuel us1 :
  reachable us →
  fingerprints us !! f = Some fp →
  contexts us !! fp_context fp = Some ctx →
  fingerprint fp = Some b →
  state ctx ≠ CONN_CONNECTED ∨ active_fingerprint ctx ≠ Some (FpNode f) →
  otrl_context_forget_fingerprint fuel (FpNode f) 0 us = Some us1 →
  ∃ fl,
    fingerprints_of us1 (fp_context fp) fl
    ∧ ∀ fuel' addedp,
        length fl < fuel' →
        otrl_context_find_fingerprint fuel' us1 (fp_context fp) b 0 addedp
        = Some (None, match addedp with Some _ => Some 0%Z | None => None end,
                us1)
        ∧ ∀ g fg bg add,
            g ≠ f → fingerprints us !! g = Some fg →
            fp_context fg = fp_context fp → fingerprint fg = Some bg →
            otrl_context_find_fingerprint fuel' us1 (fp_context fp) bg add
              addedp
            = Some (Some (FpNode g),
                    match addedp with Some _ => Some 0%Z | None => None end,
                    us1).
Proof.
  intros Hr Hfp Hctx Hb Hmay Hrun. apply reachable_coherent in Hr.
  pose proof Hr as (_ & _ & Hown & Hdist).
  destruct (forget_fingerprint_spec us f fp _ ctx 0 Hr Hfp eq_refl Hctx Hmay)
    as (fl1 & fl2 & us1' & Hfl & Hco1 & Hfl1 & _ & _ & Hfps1 & _ & _ & Hrun1).
  destruct fuel as [|fuel]; [done|]. rewrite Hrun1 in Hrun.
  rewrite andb_false_r in Hrun. injection Hrun as ->.
  pose proof Hco1 as (_ & _ & _ & Hdist1).
  assert (∀ g fg, g ≠ f → fingerprints us !! g = Some fg →
            ∃ fg', fingerprints us1 !! g = Some fg'
                   ∧ fingerprint fg' = fingerprint fg
                   ∧ fp_context fg' = fp_context fg) as Hkeep.
  { intros g fg Hg Hfg. rewrite Hfps1, decide_False, Hfg by done. simpl.
    eexists. split; [done|]. split; by goal_decide. }
  assert (∀ g fg', fingerprints us1 !! g = Some fg' →
            g ≠ f ∧ ∃ fg, fingerprints us !! g = Some fg
                          ∧ fingerprint fg' = fingerprint fg
                          ∧ fp_context fg' = fp_context fg) as Hback.
  { intros g fg' Hg. rewrite Hfps1 in Hg.
    destruct (decide (g = f)) as [|Hgf]; [done|]. split; [done|].
    destruct (fingerprints us !! g) as [fg|]; [|done]. simpl in Hg.
    injection Hg as <-. exists fg. split; [done|]. split; by goal_decide. }
  exists (fl1 ++ fl2). split; [done|]. intros fuel' addedp Hf'. split.
  - destruct (Hown f fp Hfp) as [(b' & Hb' & Hlen) _].
    rewrite Hb in Hb'. injection Hb' as <-.
    destruct (find_fingerprint_lookup us1 _ _ b fuel' addedp Hco1 Hfl1 Hlen
                Hf') as [(g & fg' & _ & Hg & Hcg & Hbg & _)|[_ Hfind]]; [|done].
    exfalso. destruct (Hback g fg' Hg) as (Hgf & fg & Hfg & Hb' & Hc').
    apply Hgf. apply (Hdist g f fg fp); congruence.
  - intros g fg bg add Hgf Hfg Hc Hbg.
    destruct (Hown g fg Hfg) as [(b' & Hb' & Hlen) _].
    rewrite Hbg in Hb'. injection Hb' as <-.
    destruct (Hkeep g fg Hgf Hfg) as (fg' & Hfg' & Hb' & Hc').
    destruct (find_fingerprint_lookup us1 _ _ bg fuel' addedp Hco1 Hfl1 Hlen
                Hf') as [(g' & fg'' & _ & Hg' & Hcg' & Hbg' & Hfind)|[Hnone _]].
    + rewrite Hfind.
      by rewrite (Hdist1 g' g fg'' fg') by congruence.
    + exfalso. apply (Hnone g fg'); congruence.
Qed.

Lemma forget_fingerprint_then_find_witness :
  ∃ us1 fl,
    otrl_context_forget_fingerprint 1 (FpNode 2) 0 sample_private = Some us1
    ∧ fingerprints_of us1 1 fl
    ∧ ∀ fuel, length fl < fuel →
        otrl_context_find_fingerprint fuel us1 1 (replicate 20 x02) 0 None
        = Some (None, None, us1).
Proof.
  assert (∃ fp ctx us1,
            fingerprints sample_private !! 2%positive = Some fp
            ∧ fp_context fp = 1%positive
            ∧ fingerprint fp = Some (replicate 20 x02)
            ∧ contexts sample_private !! fp_context fp = Some ctx
            ∧ state ctx ≠ CONN_CONNECTED
            ∧ otrl_context_forget_fingerprint 1 (FpNode 2) 0 sample_private
              = Some us1)
    as (fp & ctx & us1 & Hfp & Hc & Hb & Hctx & Hst & Hrun) by by_evaluation.
  destruct (forget_fingerprint_then_find sample_private 2 fp ctx
              (replicate 20 x02) 1 us1 reachable_sample_private Hfp Hctx Hb
              (or_introl Hst) Hrun) as (fl & Hfl & Hfind).
  rewrite Hc in Hfl, Hfind. exists us1, fl.
  split; [exact Hrun|]. split; [exact Hfl|].
  intros fuel Hf. apply (Hfind fuel None Hf).
Defined.

(** ** Releasing contexts *)

(** X12: in a reachable store, [otrl_context_forget] on an unconnected
    context returns, given fuel beyond the number of its entries plus one.
    The context leaves the registry, which keeps its order, and is
    released together with all entries of its chain; its destructor is
    called if it has data and destructor.  Every other context is as it
    was but for its links and keeps its fingerprint chain, and every other
    entry is untouched. *)
Theorem forget_removes_context us reg c ctx :
  reachable us →
  registry us reg →
  contexts us !! c = Some ctx →
  state ctx = CONN_UNCONNECTED →
  ∃ l1 k l2 fl us',
    reg = l1 ++ (c, k) :: l2
    ∧ fingerprints_of us c fl
    ∧ (∀ fuel, length fl + 1 < fuel → otrl_context_forget fuel c us = Some us')
    ∧ registry us' (l1 ++ l2)
    ∧ StronglySorted ident_lt (l1 ++ l2).*2
    ∧ contexts us' !! c = None
    ∧ (∀ a ca, a ≠ c → contexts us !! a = Some ca →
               ∃ ca', contexts us' !! a = Some ca' ∧ same_but_links ca ca')
    ∧ (∀ a, contexts us !! a = None → contexts us' !! a = None)
    ∧ (∀ a fla, a ≠ c → fingerprints_of us a fla → fingerprints_of us' a fla)
    ∧ (∀ x, fingerprints us' !! x
            = if decide (x ∈ fl) then None else fingerprints us !! x)
    ∧ app_data_freed us' = app_data_freed us ++ destructor_call ctx.
Proof.
  intros Hr Hreg Hctx Hst. apply reachable_coherent in Hr.
  destruct (forget_spec us reg c ctx Hr Hreg Hctx Hst)
    as (l1 & k & l2 & fl & us' & -> & Hfl & Hrun & Hco' & Hreg' & Hchains
        & Hctxs & Hfps & Hfreed).
  exists l1, k, l2, fl, us'. do 4 (split; [done|]).
  split; [by apply (coherent_sorted us')|].
  split; [by rewrite Hctxs, decide_True|]. split.
  { intros a ca Hac Ha. rewrite Hctxs, decide_False, Ha by done. simpl.
    eexists. split; [done|]. unfold same_but_links. destruct ca.
    by goal_decide. }
  split.
  { intros a Ha. rewrite Hctxs, Ha. by case_decide. }
  split; [exact Hchains|]. done.
Qed.

Lemma forget_removes_context_witness :
  ∃ us',
    (∀ fuel, 3 < fuel → otrl_context_forget fuel 1 sample_private = Some us')
    ∧ registry us' [(2%positive, ("alice", "me", "xmpp"))]
    ∧ app_data_freed us' = [(7%positive, 42%Z)].
Proof.
  assert (∃ ctx, contexts sample_private !! 1%positive = Some ctx
                 ∧ state ctx = CONN_UNCONNECTED
                 ∧ destructor_call ctx = [(7%positive, 42%Z)])
    as (ctx & Hctx & Hst & Hd) by by_evaluation.
  destruct (forget_removes_context sample_private _ 1 ctx
              reachable_sample_private registry_sample_private Hctx Hst)
    as (l1 & k & l2 & fl & us' & Hsplit & Hfl & Hrun & Hreg & _ & _ & _ & _
        & _ & _ & Hfreed).
  rewrite (fingerprints_of_det _ _ _ _ Hfl fingerprints_of_private_bob)
    in Hrun.
  destruct l1 as [|x [|y l1]]; [discriminate Hsplit| |].
  - injection Hsplit as <- <- <-. exists us'.
    split; [exact Hrun|]. split; [exact Hreg|].
    rewrite Hfreed, Hd. vm_compute. reflexivity.
  - exfalso. clear -Hsplit. injection Hsplit as _ _ Hsplit.
    destruct l1; discriminate Hsplit.
Defined.

(** X13: after [otrl_context_forget] has released an unconnected context
    of a reachable store, a lookup under its triple finds nothing, and a
    lookup under the triple of any other context of the registry returns
    that context, as before. *)
Theorem forget_then_find us reg c ctx fuel us' :
  reachable us →
  registry us reg →
  contexts us !! c = Some ctx →
  state ctx = CONN_UNCONNECTED →
  otrl_context_forget fuel c us = Some us' →
  ∀ b k fuel' addedp cb data,
    (b, k) ∈ reg →
    length reg < fuel' →
    otrl_context_find fuel' us' (Some k.1.1) (Some k.1.2) (Some k.2) 0 addedp
      cb data
    = Some (if decide (b = c) then None else Some b,
            match addedp with Some _ => Some 0%Z | None => None end, us').
Proof.
  intros Hr Hreg Hctx Hst Hrun b [[u a] p] fuel' addedp cb data Hin Hf'.
  apply reachable_coherent in Hr. cbn [fst snd].
  pose proof (coherent_sorted us reg Hr Hreg) as Hs.
  destruct (forget_spec us reg c ctx Hr Hreg Hctx Hst)
    as (l1 & k & l2 & fl & us1 & -> & _ & Hrun1 & Hco1 & Hreg1 & _).
  destruct (forget_family_mono fuel) as (_ & Hm & _).
  apply (Hm (fuel + (length fl + 2))) in Hrun; [|lia].
  rewrite Hrun1 in Hrun by lia. injection Hrun as ->.
  pose proof (coherent_sorted us' _ Hco1 Hreg1) as Hs1.
  assert (length (l1 ++ l2) < fuel') as Hf1.
  { rewrite length_app in *. simpl in Hf'. lia. }
  pose proof Hreg as [Hchain _]. apply chain_NoDup in Hchain.
  rewrite fmap_app, fmap_cons in Hchain. simpl in Hchain.
  case_decide as Hbc; [subst b|].
  - assert ((u, a, p) = k) as <-.
    { apply StronglySorted_lt_NoDup in Hs.
      apply elem_of_app in Hin as [Hin|[Hin|Hin]%elem_of_cons];
        [|congruence|]; exfalso.
      - apply NoDup_app in Hchain as (_ & Hd & _). apply (Hd c).
        + apply list_elem_of_fmap. by exists (c, (u, a, p)).
        + apply list_elem_of_here.
      - apply NoDup_app in Hchain as (_ & _ & Hd).
        apply NoDup_cons in Hd as [Hd _]. apply Hd.
        apply list_elem_of_fmap. by exists (c, (u, a, p)). }
    destruct (find_spec us' _ fuel' u a p 0 addedp cb data Hreg1 Hs1 Hf1)
      as (r & flag & us2 & reg2 & Hfind & _ & _ & Hcase).
    destruct Hcase as [(b & Hb & _)|[(_ & _ & -> & -> & _ & ->)|(_ & ? & _)]];
      [|done..].
    exfalso. rewrite fmap_app, fmap_cons in Hs. simpl in Hs.
    apply StronglySorted_lt_NoDup in Hs.
    apply NoDup_app in Hs as (_ & Hd1 & Hd2).
    apply NoDup_cons in Hd2 as [Hd2 _].
    apply elem_of_app in Hb as [Hb|Hb].
    + apply (Hd1 (u, a, p)); [|apply list_elem_of_here].
      apply list_elem_of_fmap. by exists (b, (u, a, p)).
    + apply Hd2. apply list_elem_of_fmap. by exists (b, (u, a, p)).
  - eapply find_existing; [exact Hreg1|done|done|].
    apply elem_of_app in Hin as [Hin|[Hin|Hin]%elem_of_cons];
      [apply elem_of_app; by left|congruence|apply elem_of_app; by right].
Qed.

Lemma forget_then_find_witness :
  ∃ us',
    otrl_context_forget 4 1 sample_private = Some us'
    ∧ otrl_context_find 3 us' (Some "bob") (Some "me") (Some "xmpp") 0 None
        None None
      = Some (None, None, us')
    ∧ otrl_context_find 3 us' (Some "alice") (Some "me") (Some "xmpp") 0 None
        None None
      = Some (Some 2%positive, None, us').
Proof.
  assert (∃ ctx us', contexts sample_private !! 1%positive = Some ctx
                     ∧ state ctx = CONN_UNCONNECTED
                     ∧ otrl_context_forget 4 1 sample_private = Some us')
    as (ctx & us' & Hctx & Hst & Hrun) by by_evaluation.
  pose proof (forget_then_find sample_private _ 1 ctx 4 us'
                reachable_sample_private registry_sample_private Hctx Hst
                Hrun) as H.
  exists us'. split; [exact Hrun|]. split.
  - apply (H 1%positive ("bob", "me", "xmpp") 3 None None None).
    + apply list_elem_of_further, list_elem_of_here.
    + simpl. lia.
  - apply (H 2%positive ("alice", "me", "xmpp") 3 None None None).
    + apply list_elem_of_here.
    + simpl. lia.
Defined.

(** X14: in a reachable store, [otrl_context_force_disconnect] followed by
    [otrl_context_forget] releases a context whatever its state was: the
    context leaves the registry, which keeps its order, all entries of its
    chain are released, and its destructor is called if it has data and
    destructor. *)
Theorem disconnect_then_forget us reg c ctx :
  reachable us →
  registry us reg →
  contexts us !! c = Some ctx →
  ∃ l1 k l2 fl us1 us',
    reg = l1 ++ (c, k) :: l2
    ∧ fingerprints_of us c fl
    ∧ otrl_context_force_disconnect c us = Some us1
    ∧ (∀ fuel, length fl + 1 < fuel →
               otrl_context_forget fuel c us1 = Some us')
    ∧ registry us' (l1 ++ l2)
    ∧ contexts us' !! c = None
    ∧ (∀ x, fingerprints us' !! x
            = if decide (x ∈ fl) then None else fingerprints us !! x)
    ∧ app_data_freed us' = app_data_freed us ++ destructor_call ctx.
Proof.
  intros Hr Hreg Hctx. apply reachable_coherent in Hr.
  destruct (force_disconnect_keeps us c ctx Hctx)
    as (ctx1 & Hdis & Hst1 & Hk1 & Hn1 & Hd1).
  set (us1 := with_contexts (<[c := ctx1]> (contexts us)) us) in *.
  assert (coherent us1) as Hco1 by by eapply coherent_force_disconnect.
  assert (registry us1 reg) as Hreg1.
  { apply (registry_ext us); [done| |done]. intros a _.
    unfold ctx_next, key_at. simpl. destruct (decide (a = c)) as [->|Hac].
    - rewrite lookup_insert_eq, Hctx. simpl. by rewrite Hn1, Hk1.
    - by rewrite lookup_insert_ne. }
  assert (contexts us1 !! c = Some ctx1) as Hctx1 by apply lookup_insert_eq.
  destruct (forget_spec us1 reg c ctx1 Hco1 Hreg1 Hctx1 Hst1)
    as (l1 & k & l2 & fl & us' & -> & Hfl1 & Hrun & _ & Hreg' & _ & Hctxs
        & Hfps & Hfreed).
  exists l1, k, l2, fl, us1, us'. split; [done|]. split.
  { destruct (well_formed_fingerprints_of us c) as [fl0 Hfl0];
      [apply Hr|eauto|].
    assert (fingerprints_of us1 c fl0) as Hfl0'.
    { unfold otrl_context_force_disconnect in Hdis.
      bind_inv Hdis as us0 E0.
      eapply fingerprints_of_update; [|exact Hdis|]; [by intros ?|].
      eapply fingerprints_of_update; [|exact E0|done]. by intros ?. }
    by rewrite (fingerprints_of_det _ _ _ _ Hfl1 Hfl0'). }
  do 3 (split; [done|]). split; [by rewrite Hctxs, decide_True|].
  split; [done|]. by rewrite Hfreed, <- Hd1.
Qed.

Lemma disconnect_then_forget_witness :
  ∃ us1 us' (fl : list addr),
    otrl_context_force_disconnect 2 sample_private = Some us1
    ∧ (∀ fuel, length fl + 1 < fuel → otrl_context_forget fuel 2 us1 = Some us')
    ∧ contexts us' !! 2%positive = None.
Proof.
  assert (∃ ctx, contexts sample_private !! 2%positive = Some ctx)
    as [ctx Hctx] by by_evaluation.
  destruct (disconnect_then_forget sample_private _ 2 ctx
              reachable_sample_private registry_sample_private Hctx)
    as (l1 & k & l2 & fl & us1 & us' & _ & _ & Hdis & Hrun & _ & Hgone & _).
  exists us1, us', fl. split; [exact Hdis|]. split; [exact Hrun|exact Hgone].
Defined.

(** X15: in every reachable store, [otrl_context_forget_all] returns for
    every fuel from some bound on; it leaves no context and no entry
    allocated, and it has called the destructor of the application data of
    every context that has both data and destructor, once, in the order
    of the list. *)
Theorem forget_all_releases_everything us reg :
  reachable us →
  registry us reg →
  ∃ fuel0,
    ∀ fuel, fuel0 ≤ fuel →
      otrl_context_forget_all fuel us
      = Some {| context_root := None; contexts := ∅; fingerprints := ∅;
                app_data_freed
                := app_data_freed us ++ destructor_calls us reg.*1 |}.
Proof.
  intros Hr Hreg. apply reachable_coherent in Hr.
  destruct (forget_all_spec reg us Hr Hreg) as [fuel0 Hall].
  exists fuel0. exact Hall.
Qed.

Lemma forget_all_releases_everything_witness :
  ∃ fuel0,
    ∀ fuel, fuel0 ≤ fuel →
      otrl_context_forget_all fuel sample_private
      = Some {| context_root := None; contexts := ∅; fingerprints := ∅;
                app_data_freed := [(7%positive, 42%Z)] |}.
Proof.
  exact (forget_all_releases_everything sample_private _
           reachable_sample_private registry_sample_private).
Defined.

(** ** The active fingerprint of a private conversation *)

(** X16: in every store reached from the empty one by calls of the
    operations of context.c and by assignments of a driver that takes
    care, the active fingerprint of a context in a private conversation is
    an allocated entry that points back to the context and sits on its
    fingerprint chain: no operation releases it. *)
Theorem active_fingerprint_stays_allocated us c ctx p :
  reachable_with_care us →
  contexts us !! c = Some ctx →
  state ctx = CONN_CONNECTED →
  active_fingerprint ctx = Some p →
  ∃ f fp fl,
    p = FpNode f
    ∧ fingerprints us !! f = Some fp
    ∧ fp_context fp = c
    ∧ fingerprints_of us c fl
    ∧ f ∈ fl.
Proof.
  intros Hr Hctx Hst Hact.
  destruct (with_care_active_ok us Hr c ctx p Hctx Hst Hact)
    as (f & fl & -> & Hfl & Hin).
  pose proof Hfl as (ctx' & _ & Hent).
  destruct (entries_owner _ _ _ _ _ _ Hent Hin) as (fp & Hfp & Hc).
  by exists f, fp, fl.
Qed.

Lemma active_fingerprint_stays_allocated_witness :
  ∃ fp, fingerprints sample_private !! 3%positive = Some fp
        ∧ fp_context fp = 2%positive.
Proof.
  assert (∃ ctx, contexts sample_private !! 2%positive = Some ctx
                 ∧ state ctx = CONN_CONNECTED
                 ∧ active_fingerprint ctx = Some (FpNode 3))
    as (ctx & Hctx & Hst & Hact) by by_evaluation.
  destruct (active_fingerprint_stays_allocated sample_private 2 ctx (FpNode 3)
              with_care_sample_private Hctx Hst Hact)
    as (f & fp & fl & Heq & Hfp & Hc & _).
  injection Heq as <-. exists fp. split; [exact Hfp|exact Hc].
Defined.
